(** * thereisnoplanb/linq: lazy sequence combinators over Go push iterators

    A shallow embedding of the operators of [linq] (Go) and the properties
    of its specification that concern Aggregate, Sum, First, Last, Single,
    Min, Max, TakeWhile, SkipWhile, Reverse, SequenceEqual, Except and the
    Order family.

    Conventions of the embedding.
    - A Go [iter.Seq[T]] is a function taking a [yield] callback.  The
      callback is a closure that mutates the variables it captured and
      answers "continue" ([true]) or "stop" ([false]).  Here the captured
      variables are an explicit state [S] that is threaded through the
      traversal: [Yield T S := T -> S -> outcome (S * bool)].
    - A run-time panic (index out of range, call of a nil function value)
      is the [Panic] outcome; it propagates through every caller.
    - A [for item := range source { body }] statement is the application
      [source S body s0]: [body] returns [false] for [break] and for a
      [return] out of the enclosing function, [true] for [continue] and for
      falling off the end of the body.
    - A variadic parameter [p ...F] of function type is a [list (option F)]:
      the list is the slice the callee receives, [None] is a nil function.
    - Go's [int] is a 64-bit two's complement integer: a [Z] wrapped by
      [wrap64] after every arithmetic operation. *)

From Stdlib Require Import List ZArith Bool String Lia Permutation Sorted.
Import ListNotations.

Local Open Scope Z_scope.

(* ================================================================== *)
(** ** Outcomes: normal return or panic *)

Inductive outcome (A : Type) : Type :=
| Done (a : A)
| Panic (msg : string).

Arguments Done {A} a.
Arguments Panic {A} msg.

Definition bind {A B : Type} (c : outcome A) (k : A -> outcome B) : outcome B :=
  match c with
  | Done a => k a
  | Panic msg => Panic msg
  end.

Notation "x <- c ;; k" := (bind c (fun x => k))
  (at level 61, c at next level, right associativity).
Notation "' pat <- c ;; k" := (bind c (fun x => match x with pat => k end))
  (at level 61, pat pattern, c at next level, right associativity).

(* ================================================================== *)
(** ** Errors.go *)

Inductive error : Type :=
| ErrSourceContainsNoElements
| ErrNoElementSatisfiesTheConditionInPredicate
| ErrMoreThanOneElementSatisfiesTheConditionInPredicate
| ErrSourceHasMoreThanOneElement
| ErrSizeIsBelowOne
| ErrIndexOutOfRange.

(* ================================================================== *)
(** ** Go's [int] *)

Definition wrap64 (z : Z) : Z := (z + 2 ^ 63) mod 2 ^ 64 - 2 ^ 63.

Definition int_add (x y : Z) : Z := wrap64 (x + y).

(** Go's [/] on integers truncates toward zero. *)
Definition int_quot (x y : Z) : Z := wrap64 (Z.quot x y).

(* ================================================================== *)
(** ** The sequence primitive *)

Definition Yield (T S : Type) : Type := T -> S -> outcome (S * bool).

Definition Iterator (T : Type) : Type := forall S : Type, Yield T S -> S -> outcome S.

(** [FromSlice]: [for _, value := range source { if !yield(value) { return } }]. *)
Fixpoint FromSlice {TSource : Type} (source : list TSource) : Iterator TSource :=
  fun S yield s =>
    match source with
    | [] => Done s
    | value :: rest =>
        '(s', continue) <- yield value s ;;
        if continue then FromSlice rest S yield s' else Done s'
    end.

(** [ToSlice]: [result = append(result, item)] for every item. *)
Definition ToSlice {TSource : Type} (source : Iterator TSource) : outcome (list TSource) :=
  source (list TSource) (fun item result => Done (result ++ [item], true)) [].

(* ================================================================== *)
(** ** Aggregate *)

(** The optional trailing [resultSelector ...func(T) T]:
    [if len(resultSelector) > 0 { result = resultSelector[0](result) }]. *)
Definition applyResultSelector {A : Type} (resultSelector : list (option (A -> A)))
    (result : A) : outcome A :=
  match resultSelector with
  | [] => Done result
  | Some f :: _ => Done (f result)
  | None :: _ => Panic "invalid memory address or nil pointer dereference"
  end.

(** The function [Aggregate[TSource, TAccumulator]]. *)
Definition Aggregate {TSource TAccumulator : Type} (source : Iterator TSource)
    (seed : TAccumulator) (accumulator : TAccumulator -> TSource -> TAccumulator)
    (resultSelector : list (option (TAccumulator -> TAccumulator)))
  : outcome TAccumulator :=
  result <- source TAccumulator
              (fun item result => Done (accumulator result item, true)) seed ;;
  applyResultSelector resultSelector result.

(** The method [Iterator[TSource].Aggregate]: same body, accumulator of the
    element type. *)
Definition Iterator_Aggregate {TSource : Type} (source : Iterator TSource)
    (seed : TSource) (accumulator : TSource -> TSource -> TSource)
    (resultSelector : list (option (TSource -> TSource))) : outcome TSource :=
  result <- source TSource
              (fun item result => Done (accumulator result item, true)) seed ;;
  applyResultSelector resultSelector result.

(* ================================================================== *)
(** ** What the operators ask of an element type

    The package [generic] and the standard packages [reflect] and [cmp]
    are outside the repository.  An element type enters the operators
    only through the questions below, asked by type assertion, by
    reflection or by the type switches of Min, Max and Order. *)

Class GoType (T : Type) : Type := {
  (** [*new(T)], the zero value. *)
  zero : T;
  (** [generic.IEquatable[T]]: the method [Equal], receiver first. *)
  IEquatable : option (T -> T -> bool);
  (** [generic.IComparable[T]]: the method [Compare], receiver first. *)
  IComparable : option (T -> T -> Z);
  (** [reflect.ValueOf(v).Comparable()]. *)
  reflectComparable : T -> bool;
  (** [reflect.Value.Equal]. *)
  reflectValueEqual : T -> T -> bool;
  (** [reflect.DeepEqual]. *)
  DeepEqual : T -> T -> bool;
  (** [Some c] when [T] is one of the kinds listed in the type switches
      (the integer kinds, the float kinds, string), [c] being
      [cmp.Compare] at that kind; [None] for every other type. *)
  primitive : option (T -> T -> Z);
  (** The operator [<] of the language at that kind ([x > y] is [y < x]).
      At the integer kinds and at string it holds exactly when
      [cmp.Compare] is negative; at the float kinds it is false as soon
      as an operand is NaN, where [cmp.Compare] puts NaN below every
      number. *)
  primitiveLess : T -> T -> bool
}.

(** [cmp.Compare] on integers. *)
Definition cmp_Compare_int (x y : Z) : Z :=
  if x <? y then -1 else if y <? x then 1 else 0.

(** Go's [int]. *)
#[export] Instance GoType_int : GoType Z := {|
  zero := 0;
  IEquatable := None;
  IComparable := None;
  reflectComparable := fun _ => true;
  reflectValueEqual := Z.eqb;
  DeepEqual := Z.eqb;
  primitive := Some cmp_Compare_int;
  primitiveLess := Z.ltb
|}.

(** Go's [string]; [+] is concatenation. *)
Fixpoint cmp_Compare_string (x y : string) : Z :=
  match x, y with
  | EmptyString, EmptyString => 0
  | EmptyString, String _ _ => -1
  | String _ _, EmptyString => 1
  | String a x', String b y' =>
      match Nat.compare (Ascii.nat_of_ascii a) (Ascii.nat_of_ascii b) with
      | Lt => -1
      | Gt => 1
      | Eq => cmp_Compare_string x' y'
      end
  end.

#[export] Instance GoType_string : GoType string := {|
  zero := EmptyString;
  IEquatable := None;
  IComparable := None;
  reflectComparable := fun _ => true;
  reflectValueEqual := String.eqb;
  DeepEqual := String.eqb;
  primitive := Some cmp_Compare_string;
  primitiveLess := fun x y => cmp_Compare_string x y <? 0
|}.

(** The constraint [generic.Number | generic.String] of [Sum]: the types
    that have [+]. *)
Class Number (T : Type) {G : GoType T} : Type := {
  plus : T -> T -> T
}.

#[export] Instance Number_int : Number Z := {| plus := int_add |}.
#[export] Instance Number_string : Number string := {| plus := String.append |}.

(** The function types of the package [generic]. *)
Definition generic_Predicate (T : Type) : Type := T -> bool.
Definition generic_Equality (T : Type) : Type := T -> T -> bool.
Definition generic_Comparison (T : Type) : Type := T -> T -> Z.

(* ================================================================== *)
(** ** Sum *)

(** [for item := range source { result += item }], [result] starting at
    the zero value of the named result. *)
Definition Sum {TValue : Type} `{Number TValue} (source : Iterator TValue)
  : outcome TValue :=
  source TValue (fun item result => Done (plus result item, true)) zero.

(** [Average]: the sum and the count are taken in one loop; an empty
    source is reported before the division.  The type [float64], its
    conversions and its division are those of the language and stay
    abstract.  State: [count], [sum]. *)
Section Average.
Context {TSource : Type} `{Number TSource}.
Variable float64 : Type.
Variable float64_zero : float64.
Variable float64_of : TSource -> float64.
Variable float64_of_int : Z -> float64.
Variable float64_div : float64 -> float64 -> float64.

Definition Average (source : Iterator TSource) : outcome (float64 * option error) :=
  '(count, sum) <- source (Z * TSource)%type
      (fun item '(count, sum) => Done ((int_add count 1, plus sum item), true))
      (0, zero) ;;
  if count =? 0 then Done (float64_zero, Some ErrSourceContainsNoElements)
  else Done (float64_div (float64_of sum) (float64_of_int count), None).
End Average.

(* ================================================================== *)
(** ** First, Last, Single *)

Section Selection.
Context {TSource : Type} `{GoType TSource}.

(** [len(predicate) > 0 && predicate[0] != nil]. *)
Definition suppliedPredicate (predicate : list (option (generic_Predicate TSource))) : option (generic_Predicate TSource) :=
  match predicate with
  | Some p :: _ => Some p
  | _ => None
  end.

(** State of the loops of First: [any] and the value returned from
    inside the loop, if the loop returned. *)
Definition Iterator_First (source : Iterator TSource)
    (predicate : list (option (generic_Predicate TSource))) : outcome (TSource * option error) :=
  match suppliedPredicate predicate with
  | Some Predicate =>
      '(any, ret) <- source (bool * option TSource)%type
          (fun item '(any, ret) =>
             if Predicate item then Done ((true, Some item), false)
             else Done ((true, ret), true))
          (false, None) ;;
      match ret with
      | Some item => Done (item, None)
      | None =>
          if negb any then Done (zero, Some ErrSourceContainsNoElements)
          else Done (zero, Some ErrNoElementSatisfiesTheConditionInPredicate)
      end
  | None =>
      ret <- source (option TSource)
          (fun item _ => Done (Some item, false)) None ;;
      match ret with
      | Some item => Done (item, None)
      | None => Done (zero, Some ErrSourceContainsNoElements)
      end
  end.

(** State of the loops of Last: [any], [found], [result]. *)
Definition Iterator_Last (source : Iterator TSource)
    (predicate : list (option (generic_Predicate TSource))) : outcome (TSource * option error) :=
  match suppliedPredicate predicate with
  | Some Predicate =>
      '(any, found, result) <- source (bool * bool * TSource)%type
          (fun item '(any, found, result) =>
             if Predicate item then Done ((true, true, item), true)
             else Done ((true, found, result), true))
          (false, false, zero) ;;
      if found then Done (result, None)
      else if negb any then Done (zero, Some ErrSourceContainsNoElements)
      else Done (zero, Some ErrNoElementSatisfiesTheConditionInPredicate)
  | None =>
      '(found, result) <- source (bool * TSource)%type
          (fun item '(found, result) => Done ((true, item), true))
          (false, zero) ;;
      if found then Done (result, None)
      else Done (zero, Some ErrSourceContainsNoElements)
  end.

(** State of the loops of Single: [any], [found], [result], and the
    error returned from inside the loop, if the loop returned. *)
Definition Iterator_Single (source : Iterator TSource)
    (predicate : list (option (generic_Predicate TSource))) : outcome (TSource * option error) :=
  match suppliedPredicate predicate with
  | Some Predicate =>
      '(any, found, result, ret) <- source (bool * bool * TSource * option error)%type
          (fun item '(any, found, result, ret) =>
             if Predicate item then
               if found then
                 Done ((true, found, result,
                        Some ErrMoreThanOneElementSatisfiesTheConditionInPredicate), false)
               else Done ((true, true, item, ret), true)
             else Done ((true, found, result, ret), true))
          (false, false, zero, None) ;;
      match ret with
      | Some err => Done (zero, Some err)
      | None =>
          if found then Done (result, None)
          else if negb any then Done (zero, Some ErrSourceContainsNoElements)
          else Done (zero, Some ErrNoElementSatisfiesTheConditionInPredicate)
      end
  | None =>
      '(found, result, ret) <- source (bool * TSource * option error)%type
          (fun item '(found, result, ret) =>
             if found then
               Done ((found, result, Some ErrSourceHasMoreThanOneElement), false)
             else Done ((true, item, ret), true))
          (false, zero, None) ;;
      match ret with
      | Some err => Done (zero, Some err)
      | None =>
          if negb found then Done (zero, Some ErrSourceContainsNoElements)
          else Done (result, None)
      end
  end.

End Selection.

(* ================================================================== *)
(** ** Min and Max *)

Section MinMax.
Context {TSource : Type} `{GoType TSource}.

Definition nilCall {A : Type} : outcome A :=
  Panic "invalid memory address or nil pointer dereference".

(** [minmax[TSource, T]]: the fallback of Min, Max and MinMax on the
    primitive kinds, written with the operators [<] and [>] of the kind
    [T]; [lessThan] is [<] at that kind, and [value > max] is
    [max < value].  State: [found], [min], [max]. *)
Definition minmax (lessThan : TSource -> TSource -> bool) (source : Iterator TSource)
  : outcome (TSource * TSource * option error) :=
  '(found, min, max) <- source (bool * TSource * TSource)%type
      (fun value '(found, min, max) =>
         if negb found then Done ((true, value, value), true)
         else if lessThan value min then Done ((found, value, max), true)
         else if lessThan max value then Done ((found, min, value), true)
         else Done ((found, min, max), true))
      (false, zero, zero) ;;
  if negb found then Done (zero, zero, Some ErrSourceContainsNoElements)
  else Done (min, max, None).

(** The loop shared by the comparer branch and the IComparable branch
    of [Iterator.Max]: [test max item] is [compare[0](max, item) > 0],
    respectively [v.Compare(item) > 0].  State: [found], [max]. *)
Definition Max_loop (test : TSource -> TSource -> outcome bool)
    (source : Iterator TSource) : outcome (TSource * option error) :=
  '(found, max) <- source (bool * TSource)%type
      (fun item '(found, max) =>
         if negb found then Done ((true, item), true)
         else
           replace <- test max item ;;
           Done ((found, if replace : bool then item else max), true))
      (false, zero) ;;
  if negb found then Done (max, Some ErrSourceContainsNoElements)
  else Done (max, None).

Definition Iterator_Max (source : Iterator TSource)
    (compare : list (option (generic_Comparison TSource))) : outcome (TSource * option error) :=
  match compare with
  | compare0 :: _ =>
      Max_loop (fun max item =>
                  match compare0 with
                  | Some c => Done (c max item >? 0)
                  | None => nilCall
                  end) source
  | [] =>
      match IComparable with
      | Some Compare =>
          (* [v] is bound to the zero value [max] before the loop *)
          Max_loop (fun _ item => Done (Compare zero item >? 0)) source
      | None =>
          match primitive with
          | Some _ =>
              '(_, max, err) <- minmax primitiveLess source ;;
              Done (max, err)
          | None => Panic "unsupported type for Max"
          end
      end
  end.

(** The loop shared by the comparer branch and the IComparable branch
    of [Iterator.Min]: [test min item] is [compare[0](min, item) < 0],
    respectively [v.Compare(item) < 0].  State: [found], [min]. *)
Definition Min_loop (test : TSource -> TSource -> outcome bool)
    (source : Iterator TSource) : outcome (TSource * option error) :=
  '(found, min) <- source (bool * TSource)%type
      (fun item '(found, min) =>
         if negb found then Done ((true, item), true)
         else
           replace <- test min item ;;
           Done ((found, if replace : bool then item else min), true))
      (false, zero) ;;
  if negb found then Done (min, Some ErrSourceContainsNoElements)
  else Done (min, None).

Definition Iterator_Min (source : Iterator TSource)
    (compare : list (option (generic_Comparison TSource))) : outcome (TSource * option error) :=
  match compare with
  | compare0 :: _ =>
      Min_loop (fun min item =>
                  match compare0 with
                  | Some c => Done (c min item <? 0)
                  | None => nilCall
                  end) source
  | [] =>
      match IComparable with
      | Some Compare =>
          Min_loop (fun _ item => Done (Compare zero item <? 0)) source
      | None =>
          match primitive with
          | Some _ =>
              '(min, _, err) <- minmax primitiveLess source ;;
              Done (min, err)
          | None => Panic "unsupported type for Max"
          end
      end
  end.

End MinMax.

(* ================================================================== *)
(** ** TakeWhile, SkipWhile, Concat, Reverse *)

Section Elementwise.
Context {TSource : Type}.

(** [if predicate(item) { return }; if !yield(item) { return }]. *)
Definition Iterator_TakeWhile (source : Iterator TSource)
    (predicate : TSource -> bool) : Iterator TSource :=
  fun S yield s =>
    source S
      (fun item s => if predicate item then Done (s, false) else yield item s)
      s.

(** [skip := true]; per item
    [if skip && !predicate(item) { continue }; skip = false;
     if !yield(item) { return }].
    State: [skip] and the state of the consumer. *)
Definition Iterator_SkipWhile (source : Iterator TSource)
    (predicate : TSource -> bool) : Iterator TSource :=
  fun S yield s =>
    '(_, s') <- source (bool * S)%type
        (fun item '(skip, s) =>
           if skip && negb (predicate item) then Done ((skip, s), true)
           else
             '(s', continue) <- yield item s ;;
             Done ((false, s'), continue))
        (true, s) ;;
    Done s'.

(** Two loops in sequence; a [return] inside the first skips the second.
    State of the first loop: the consumer's state and whether the loop
    returned. *)
Definition Iterator_Concat (source sequence : Iterator TSource) : Iterator TSource :=
  fun S yield s =>
    '(s', returned) <- source (S * bool)%type
        (fun item '(s, _) =>
           '(s', continue) <- yield item s ;;
           Done ((s', negb continue), continue))
        (s, false) ;;
    if returned then Done s' else sequence S yield s'.

(** [for i := len(reverse); i >= 0; i-- { if !yield(reverse[i]) { return } }]
    entered at index [i]; [reverse[i]] panics when [i] is out of range. *)
Fixpoint Reverse_loop {St : Type} (reverse : list TSource) (i : nat)
    (yield : Yield TSource St) (s : St) : outcome St :=
  match nth_error reverse i with
  | None => Panic "index out of range"
  | Some value =>
      '(s', continue) <- yield value s ;;
      if continue then
        match i with
        | O => Done s'
        | S i' => Reverse_loop reverse i' yield s'
        end
      else Done s'
  end.

Definition Iterator_Reverse (source : Iterator TSource) : Iterator TSource :=
  fun S yield s =>
    reverse <- source (list TSource)
        (fun item reverse => Done (reverse ++ [item], true)) [] ;;
    Reverse_loop reverse (List.length reverse) yield s.

End Elementwise.

(* ================================================================== *)
(** ** Contains, Distinct, Except, SequenceEqual *)

Section Equality.
Context {TSource : Type} `{GoType TSource}.

(** [for item := range source { if test(item) { return true } }; return false]. *)
Definition Contains_loop (test : TSource -> bool) (source : Iterator TSource)
  : outcome bool :=
  source bool
    (fun item result => if test item then Done (true, false) else Done (result, true))
    false.

Definition Iterator_Contains (source : Iterator TSource) (value : TSource)
    (comparer : list (option (generic_Equality TSource))) : outcome bool :=
  match comparer with
  | Some Equal :: _ => Contains_loop (fun item => Equal item value) source
  | _ =>
      match IEquatable with
      | Some Equal => Contains_loop (fun item => Equal value item) source
      | None =>
          if reflectComparable value
          then Contains_loop (fun item => reflectValueEqual value item) source
          else Contains_loop (fun item => DeepEqual item value) source
      end
  end.

(** First loop: collect the items not yet in [result]; second loop:
    yield [result]. *)
Definition Iterator_Distinct (source : Iterator TSource)
    (comparer : list (option (generic_Equality TSource))) : Iterator TSource :=
  fun S yield s =>
    result <- source (list TSource)
        (fun item result =>
           seen <- Iterator_Contains (FromSlice result) item comparer ;;
           Done (if seen : bool then result else result ++ [item], true))
        [] ;;
    FromSlice result S yield s.

(** The nested loops shared by the three branches of [Except]:
    [for item := range left { for other := range right {
       if isEqual(item, other) { if !yield(item) { return } } } }].
    State of both loops: the consumer's state and whether [return] was
    executed. *)
Definition Except_loops (isEqual : TSource -> TSource -> outcome bool)
    (left right : Iterator TSource) : Iterator TSource :=
  fun S yield s =>
    '(s', _) <- left (S * bool)%type
        (fun item '(s, _) =>
           '(s', returned) <- right (S * bool)%type
               (fun other '(s, _) =>
                  equal <- isEqual item other ;;
                  if equal : bool then
                    '(s', continue) <- yield item s ;;
                    Done ((s', negb continue), continue)
                  else Done ((s, false), true))
               (s, false) ;;
           Done ((s', returned), negb returned))
        (s, false) ;;
    Done s'.

Definition Iterator_Except (source sequence : Iterator TSource)
    (comparer : list (option (generic_Equality TSource))) : Iterator TSource :=
  match comparer with
  | isEqual :: _ =>
      Except_loops
        (fun item other =>
           match isEqual with
           | Some eq => Done (eq item other)
           | None => Panic "invalid memory address or nil pointer dereference"
           end)
        (Iterator_Distinct source [isEqual])
        (Iterator_Distinct sequence [isEqual])
  | [] =>
      match IEquatable with
      | Some Equal =>
          Except_loops (fun item other => Done (Equal item other))
            (Iterator_Distinct source []) (Iterator_Distinct sequence [])
      | None =>
          Except_loops (fun item other => Done (DeepEqual item other))
            (Iterator_Distinct source []) (Iterator_Distinct sequence [])
      end
  end.

(** [iter.Pull]: call number [n] (from 0) of [next] resumes [sequence]
    until its next [yield] and returns the element passed to it, or
    [ok = false] when [sequence] ends first.  A sequence is a function of
    its consumer only, so running it from the start and stopping at yield
    number [n] delivers the same element.  State: the yields still to
    skip and the element found. *)
Definition Pull_next (sequence : Iterator TSource) (n : nat)
  : outcome (option TSource) :=
  '(_, found) <- sequence (nat * option TSource)%type
      (fun item '(k, found) =>
         match k with
         | O => Done ((O, Some item), false)
         | Datatypes.S k' => Done ((k', found), true)
         end)
      (n, None) ;;
  Done found.

(** The loop of [SequenceEqual]: [item2, ok := next()], then
    [return false] when [!ok] or when the items differ.  State: the
    number of calls of [next] so far and the value returned from inside
    the loop, if the loop returned.  After the loop:
    [_, ok := next(); return !ok]. *)
Definition SequenceEqual_loop (equal : TSource -> TSource -> bool)
    (source sequence : Iterator TSource) : outcome bool :=
  '(calls, ret) <- source (nat * option bool)%type
      (fun item1 '(calls, ret) =>
         next <- Pull_next sequence calls ;;
         match next with
         | None => Done ((Datatypes.S calls, Some false), false)
         | Some item2 =>
             if equal item1 item2 then Done ((Datatypes.S calls, ret), true)
             else Done ((Datatypes.S calls, Some false), false)
         end)
      (O, None) ;;
  match ret with
  | Some result => Done result
  | None =>
      next <- Pull_next sequence calls ;;
      match next with
      | None => Done true
      | Some _ => Done false
      end
  end.

Definition Iterator_SequenceEqual (source sequence : Iterator TSource)
    (comparer : list (option (generic_Equality TSource))) : outcome bool :=
  match comparer with
  | Some Compare :: _ => SequenceEqual_loop Compare source sequence
  | _ =>
      SequenceEqual_loop
        (fun item1 item2 =>
           match IEquatable with
           | Some Equal => Equal item1 item2
           | None => DeepEqual item1 item2
           end)
        source sequence
  end.

End Equality.

(* ================================================================== *)
(** ** Order and OrderBy *)

(** [generic.ValuePair[T1, T2]]. *)
Record ValuePair (T1 T2 : Type) : Type := mkValuePair { Item1 : T1; Item2 : T2 }.

Arguments mkValuePair {T1 T2} Item1 Item2.
Arguments Item1 {T1 T2} v.
Arguments Item2 {T1 T2} v.

(** The constraint [generic.Comparable] of [OrderBy]: the key types that
    [cmp.Compare] accepts, with their operator [<] ([x > y] is [y < x]).
    At the integer kinds and at string [x < y] holds exactly when
    [cmp.Compare(x, y)] is negative; at the float kinds it is false as
    soon as an operand is NaN. *)
Class Comparable (T : Type) : Type := {
  cmp_Compare : T -> T -> Z;
  cmp_Less : T -> T -> bool
}.

#[export] Instance Comparable_int : Comparable Z :=
  {| cmp_Compare := cmp_Compare_int; cmp_Less := Z.ltb |}.
#[export] Instance Comparable_string : Comparable string :=
  {| cmp_Compare := cmp_Compare_string;
     cmp_Less := fun x y => cmp_Compare_string x y <? 0 |}.

Section Ordering.
(** [slices.SortFunc] of the standard library, applied to a non-nil
    comparison: the slice after the call, as a function of the slice
    before it. *)
Variable SortFunc : forall E : Type, (E -> E -> Z) -> list E -> list E.
Arguments SortFunc {E}.

(** [slices.SortFunc(x, cmp)] where [cmp] may be nil: sorting fewer than
    two elements compares nothing, otherwise the first comparison calls
    the nil function. *)
Definition callSortFunc {E : Type} (x : list E) (cmp : option (E -> E -> Z))
  : outcome (list E) :=
  match cmp with
  | Some c => Done (SortFunc c x)
  | None =>
      if (List.length x <? 2)%nat then Done x
      else Panic "invalid memory address or nil pointer dereference"
  end.

(** The method [Iterator[TSource].Order]. *)
Definition Iterator_Order {TSource : Type} `{GoType TSource}
    (source : Iterator TSource) (compare : list (option (TSource -> TSource -> Z)))
  : Iterator TSource :=
  fun S yield s =>
    result1 <- source (list TSource)
        (fun item result1 => Done (result1 ++ [item], true)) [] ;;
    sorted <- match compare with
              | compare0 :: _ => callSortFunc result1 compare0
              | [] =>
                  match IComparable with
                  | Some Compare =>
                      Done (SortFunc (fun first second => Compare first second) result1)
                  | None =>
                      match primitive with
                      | Some c => Done (SortFunc (fun x y => c x y) result1)
                      | None => Panic "unsupported type for Order"
                      end
                  end
              end ;;
    FromSlice sorted S yield s.

(** The function [OrderBy[TSource, TValue]]. *)
Definition OrderBy {TSource TValue : Type} `{Comparable TValue}
    (source : Iterator TSource) (valueSelector : TSource -> TValue)
    (compare : list (option (TValue -> TValue -> Z))) : Iterator TSource :=
  fun S yield s =>
    result <- source (list (ValuePair TSource TValue))
        (fun item result =>
           Done (result ++ [mkValuePair item (valueSelector item)], true)) [] ;;
    sorted <- match compare with
              | Some Compare :: _ =>
                  Done (SortFunc (fun x y => Compare (Item2 x) (Item2 y)) result)
              | None :: _ =>
                  (* [Compare := compare[0]] is nil; the closure that
                     calls it is not *)
                  if (List.length result <? 2)%nat then Done result
                  else Panic "invalid memory address or nil pointer dereference"
              | [] =>
                  Done (SortFunc (fun x y => cmp_Compare (Item2 x) (Item2 y)) result)
              end ;;
    FromSlice (map Item1 sorted) S yield s.

End Ordering.

(* ================================================================== *)
(** ** Notions of the specification *)

(** Equality Resolution (specification, 4.2): the comparer passed for the
    call when it is not nil, else the element type's own [Equal] with the
    left-hand element as receiver, else deep structural equality. *)
Definition resolvedEquality {T : Type} `{GoType T}
    (comparer : list (option (T -> T -> bool))) : T -> T -> bool :=
  match comparer with
  | Some c :: _ => c
  | _ =>
      match IEquatable with
      | Some Equal => Equal
      | None => DeepEqual
      end
  end.

(** Two finite sequences are equal under [eq]: same length and equal at
    every position. *)
Fixpoint pairwiseEqual {T : Type} (eq : T -> T -> bool) (a b : list T) : bool :=
  match a, b with
  | [], [] => true
  | x :: a', y :: b' => eq x y && pairwiseEqual eq a' b'
  | _, _ => false
  end.

(* ================================================================== *)
(** ** slices.SortFunc as the Go runtime implements it

    [slices.SortFunc] belongs to the standard library, not to the
    repository; its documentation promises a sorted permutation for a
    strict weak ordering and states that the sort is not guaranteed to be
    stable.  The model below follows the library's pattern-defeating
    quicksort ([pdqsortCmpFunc] and its helpers in [zsortanyfunc.go]) on a
    slice held as a list with indexed reads and swaps.  The step function
    of the pseudo-random generator used by [breakPatternsCmpFunc] is left
    as a variable. *)

Section Pdqsort.
Variable xorshift_Next : Z -> Z.
Context {E : Type}.
Variable cmp : E -> E -> Z.

Fixpoint set_index (data : list E) (i : nat) (v : E) : list E :=
  match data, i with
  | [], _ => []
  | _ :: rest, O => v :: rest
  | x :: rest, Datatypes.S i' => x :: set_index rest i' v
  end.

(** [cmp(data[i], data[j]) < 0]. *)
Definition less (data : list E) (i j : nat) : bool :=
  match nth_error data i, nth_error data j with
  | Some x, Some y => cmp x y <? 0
  | _, _ => false
  end.

(** [data[i], data[j] = data[j], data[i]]. *)
Definition swap (data : list E) (i j : nat) : list E :=
  match nth_error data i, nth_error data j with
  | Some x, Some y => set_index (set_index data i y) j x
  | _, _ => data
  end.

(** Inner loop of insertion sort:
    [for j := i; j > a && less(data[j], data[j-1]); j--  { swap }]. *)
Fixpoint insertionSort_shift (data : list E) (a j : nat) : list E :=
  match j with
  | O => data
  | Datatypes.S j' =>
      if (a <? j)%nat && less data j j'
      then insertionSort_shift (swap data j j') a j'
      else data
  end.

(** [for i := a + 1; i < b; i++ { ... }]. *)
Definition insertionSortCmpFunc (data : list E) (a b : nat) : list E :=
  fold_left (fun data i => insertionSort_shift data a i)
    (seq (a + 1) (b - (a + 1))) data.

(** [siftDownCmpFunc]; the root index grows at every turn and stays
    below [hi], so [hi] turns suffice. *)
Fixpoint siftDown_loop (turns : nat) (data : list E) (root hi first : nat) : list E :=
  match turns with
  | O => data
  | Datatypes.S turns' =>
      let child := (2 * root + 1)%nat in
      if (hi <=? child)%nat then data
      else
        let child :=
          if (child + 1 <? hi)%nat && less data (first + child) (first + child + 1)
          then (child + 1)%nat else child in
        if negb (less data (first + root) (first + child)) then data
        else siftDown_loop turns' (swap data (first + root) (first + child))
               child hi first
  end.

Definition siftDownCmpFunc (data : list E) (lo hi first : nat) : list E :=
  siftDown_loop hi data lo hi first.

Definition heapSortCmpFunc (data : list E) (a b : nat) : list E :=
  let first := a in
  let lo := O in
  let hi := (b - a)%nat in
  let data :=
    fold_left (fun data i => siftDownCmpFunc data i hi first)
      (rev (seq 0 ((hi - 1) / 2 + 1))) data in
  fold_left
    (fun data i => siftDownCmpFunc (swap data first (first + i)) lo i first)
    (rev (seq 0 hi)) data.

(** [for i <= j && test(i) { i++ }], at most [turns] times. *)
Fixpoint scan_up (turns : nat) (test : nat -> bool) (i j : nat) : nat :=
  match turns with
  | O => i
  | Datatypes.S turns' =>
      if (i <=? j)%nat && test i then scan_up turns' test (i + 1)%nat j else i
  end.

(** [for i <= j && test(j) { j-- }], at most [turns] times. *)
Fixpoint scan_down (turns : nat) (test : nat -> bool) (i j : nat) : nat :=
  match turns with
  | O => j
  | Datatypes.S turns' =>
      if (i <=? j)%nat && test j then scan_down turns' test i (j - 1)%nat else j
  end.

(** The [for { ... }] loop of [partitionCmpFunc]; it returns the slice
    and [j]. *)
Fixpoint partition_loop (turns : nat) (data : list E) (a i j : nat) : list E * nat :=
  match turns with
  | O => (data, j)
  | Datatypes.S turns' =>
      let i := scan_up (j + 1 - i) (fun i => less data i a) i j in
      let j := scan_down (j + 1 - i) (fun j => negb (less data j a)) i j in
      if (j <? i)%nat then (data, j)
      else partition_loop turns' (swap data i j) a (i + 1)%nat (j - 1)%nat
  end.

(** [partitionCmpFunc]: the slice, the new pivot index and
    [alreadyPartitioned]. *)
Definition partitionCmpFunc (data : list E) (a b pivot : nat) : list E * nat * bool :=
  let data := swap data a pivot in
  let i := (a + 1)%nat in
  let j := (b - 1)%nat in
  let i := scan_up (j + 1 - i) (fun i => less data i a) i j in
  let j := scan_down (j + 1 - i) (fun j => negb (less data j a)) i j in
  if (j <? i)%nat then (swap data j a, j, true)
  else
    let data := swap data i j in
    let '(data, j) := partition_loop (b - a) data a (i + 1)%nat (j - 1)%nat in
    (swap data j a, j, false).

(** The loop of [partitionEqualCmpFunc]; it returns the slice and [i]. *)
Fixpoint partitionEqual_loop (turns : nat) (data : list E) (a i j : nat) : list E * nat :=
  match turns with
  | O => (data, i)
  | Datatypes.S turns' =>
      let i := scan_up (j + 1 - i) (fun i => negb (less data a i)) i j in
      let j := scan_down (j + 1 - i) (fun j => less data a j) i j in
      if (j <? i)%nat then (data, i)
      else partitionEqual_loop turns' (swap data i j) a (i + 1)%nat (j - 1)%nat
  end.

Definition partitionEqualCmpFunc (data : list E) (a b pivot : nat) : list E * nat :=
  let data := swap data a pivot in
  partitionEqual_loop (b - a) data a (a + 1)%nat (b - 1)%nat.

(** [for j := i - 1; j >= 1; j-- { if !less(data[j], data[j-1]) { break }; swap }]. *)
Fixpoint shift_left (data : list E) (j : nat) : list E :=
  match j with
  | O => data
  | Datatypes.S j' =>
      if negb (less data j j') then data else shift_left (swap data j j') j'
  end.

(** [for j := i + 1; j < b; j++ { if !less(data[j], data[j-1]) { break }; swap }]. *)
Fixpoint shift_right (turns : nat) (data : list E) (j b : nat) : list E :=
  match turns with
  | O => data
  | Datatypes.S turns' =>
      if (j <? b)%nat then
        if negb (less data j (j - 1)) then data
        else shift_right turns' (swap data j (j - 1)) (j + 1)%nat b
      else data
  end.

(** The [for j := 0; j < maxSteps; j++] loop of
    [partialInsertionSortCmpFunc], with [steps] turns left. *)
Fixpoint partialInsertionSort_loop (steps : nat) (data : list E) (a b i : nat)
  : list E * bool :=
  match steps with
  | O => (data, false)
  | Datatypes.S steps' =>
      let i := scan_up (b - i) (fun i => negb (less data i (i - 1))) i (b - 1) in
      if (i =? b)%nat then (data, true)
      else if (b - a <? 50)%nat then (data, false)
      else
        let data := swap data i (i - 1) in
        let data := if (2 <=? i - a)%nat then shift_left data (i - 1) else data in
        let data :=
          if (2 <=? b - i)%nat then shift_right (b - i) data (i + 1)%nat b else data in
        partialInsertionSort_loop steps' data a b i
  end.

Definition partialInsertionSortCmpFunc (data : list E) (a b : nat) : list E * bool :=
  partialInsertionSort_loop 5 data a b (a + 1)%nat.

(** [bits.Len(uint(n))]. *)
Definition bits_Len (n : nat) : nat :=
  match n with
  | O => O
  | _ => Datatypes.S (Nat.log2 n)
  end.

Definition nextPowerOfTwo (length : nat) : Z := Z.shiftl 1 (Z.of_nat (bits_Len length)).

(** The three swaps of [breakPatternsCmpFunc], [random] being the state
    of the generator: with [idx := a + (length/4)*2 - 1], round [i]
    exchanges [data[idx-1+i]] and [data[a+other]]. *)
Fixpoint breakPatterns_loop (idx a length : nat) (modulus : Z) (random : Z)
    (rounds : list nat) (data : list E) : list E :=
  match rounds with
  | [] => data
  | i :: rounds' =>
      let random := xorshift_Next random in
      let other := Z.to_nat (Z.land random (modulus - 1)) in
      let other := if (length <=? other)%nat then (other - length)%nat else other in
      breakPatterns_loop idx a length modulus random rounds'
        (swap data (idx - 1 + i) (a + other))
  end.

Definition breakPatternsCmpFunc (data : list E) (a b : nat) : list E :=
  let length := (b - a)%nat in
  if (8 <=? length)%nat then
    breakPatterns_loop (a + (length / 4) * 2 - 1) a length (nextPowerOfTwo length)
      (Z.of_nat length) [0; 1; 2]%nat data
  else data.

Inductive sortedHint : Type := unknownHint | increasingHint | decreasingHint.

(** [order2CmpFunc]: the two indices in order and the swap count. *)
Definition order2CmpFunc (data : list E) (a b : nat) (swaps : nat) : nat * nat * nat :=
  if less data b a then (b, a, Datatypes.S swaps) else (a, b, swaps).

(** [medianCmpFunc]: the index of the median and the swap count. *)
Definition medianCmpFunc (data : list E) (a b c : nat) (swaps : nat) : nat * nat :=
  let '(a, b, swaps) := order2CmpFunc data a b swaps in
  let '(b, c, swaps) := order2CmpFunc data b c swaps in
  let '(a, b, swaps) := order2CmpFunc data a b swaps in
  (b, swaps).

Definition medianAdjacentCmpFunc (data : list E) (a : nat) (swaps : nat) : nat * nat :=
  medianCmpFunc data (a - 1) a (a + 1) swaps.

Definition choosePivotCmpFunc (data : list E) (a b : nat) : nat * sortedHint :=
  let l := (b - a)%nat in
  let swaps := O in
  let i := (a + l / 4 * 1)%nat in
  let j := (a + l / 4 * 2)%nat in
  let k := (a + l / 4 * 3)%nat in
  let '(j, swaps) :=
    if (8 <=? l)%nat then
      let '(i, j, k, swaps) :=
        if (50 <=? l)%nat then
          let '(i, swaps) := medianAdjacentCmpFunc data i swaps in
          let '(j, swaps) := medianAdjacentCmpFunc data j swaps in
          let '(k, swaps) := medianAdjacentCmpFunc data k swaps in
          (i, j, k, swaps)
        else (i, j, k, swaps) in
      medianCmpFunc data i j k swaps
    else (j, swaps) in
  if (swaps =? 0)%nat then (j, increasingHint)
  else if (swaps =? 12)%nat then (j, decreasingHint)
  else (j, unknownHint).

(** [for i < j { swap; i++; j-- }]. *)
Fixpoint reverseRange_loop (turns : nat) (data : list E) (i j : nat) : list E :=
  match turns with
  | O => data
  | Datatypes.S turns' =>
      if (i <? j)%nat then reverseRange_loop turns' (swap data i j) (i + 1)%nat (j - 1)%nat
      else data
  end.

Definition reverseRangeCmpFunc (data : list E) (a b : nat) : list E :=
  reverseRange_loop (b - a) data a (b - 1)%nat.

Definition isIncreasing (hint : sortedHint) : bool :=
  match hint with increasingHint => true | _ => false end.

Definition isDecreasing (hint : sortedHint) : bool :=
  match hint with decreasingHint => true | _ => false end.

(** [pdqsortCmpFunc]: one turn of [fuel] per loop iteration and per
    recursive call; every iteration and every call works on a strictly
    shorter range, so [b - a + 1] turns suffice.  [None] when the fuel
    runs out. *)
Fixpoint pdqsortCmpFunc (fuel : nat) (data : list E) (a b limit : nat)
    (wasBalanced wasPartitioned : bool) : option (list E) :=
  match fuel with
  | O => None
  | Datatypes.S fuel' =>
      let length := (b - a)%nat in
      if (length <=? 12)%nat then Some (insertionSortCmpFunc data a b)
      else if (limit =? 0)%nat then Some (heapSortCmpFunc data a b)
      else
        let '(data, limit) :=
          if negb wasBalanced then (breakPatternsCmpFunc data a b, (limit - 1)%nat)
          else (data, limit) in
        let '(pivot, hint) := choosePivotCmpFunc data a b in
        let '(data, pivot, hint) :=
          if isDecreasing hint
          then (reverseRangeCmpFunc data a b, (b - 1 - (pivot - a))%nat, increasingHint)
          else (data, pivot, hint) in
        let '(data, done) :=
          if wasBalanced && wasPartitioned && isIncreasing hint
          then partialInsertionSortCmpFunc data a b
          else (data, false) in
        if done then Some data
        else if (0 <? a)%nat && negb (less data (a - 1) pivot) then
          let '(data, mid) := partitionEqualCmpFunc data a b pivot in
          pdqsortCmpFunc fuel' data mid b limit wasBalanced wasPartitioned
        else
          let '(data, mid, alreadyPartitioned) := partitionCmpFunc data a b pivot in
          let leftLen := (mid - a)%nat in
          let rightLen := (b - mid)%nat in
          let balanceThreshold := (length / 8)%nat in
          if (leftLen <? rightLen)%nat then
            match pdqsortCmpFunc fuel' data a mid limit true true with
            | Some data =>
                pdqsortCmpFunc fuel' data (mid + 1) b limit
                  (balanceThreshold <=? leftLen)%nat alreadyPartitioned
            | None => None
            end
          else
            match pdqsortCmpFunc fuel' data (mid + 1) b limit true true with
            | Some data =>
                pdqsortCmpFunc fuel' data a mid limit
                  (balanceThreshold <=? rightLen)%nat alreadyPartitioned
            | None => None
            end
  end.

(** [slices.SortFunc(x, cmp)]:
    [n := len(x); pdqsortCmpFunc(x, 0, n, bits.Len(uint(n)), cmp)]. *)
Definition slices_SortFunc_run (x : list E) : option (list E) :=
  let n := List.length x in
  pdqsortCmpFunc (n + 1) x 0 n (bits_Len n) true true.

Definition slices_SortFunc (x : list E) : list E :=
  match slices_SortFunc_run x with
  | Some sorted => sorted
  | None => x
  end.

End Pdqsort.

(* ================================================================== *)
(** ** Notions of the specification: ordering *)

(** Ordering Resolution (specification, 4.3): the comparer passed for the
    call, else the element type's own [Compare], else the natural order of
    a primitive kind; no comparison is resolved for a nil comparer or for
    a type with none of the three. *)
Definition resolvedComparison {T : Type} `{GoType T}
    (compare : list (option (T -> T -> Z))) : option (T -> T -> Z) :=
  match compare with
  | Some c :: _ => Some c
  | None :: _ => None
  | [] =>
      match IComparable with
      | Some Compare => Some Compare
      | None => primitive
      end
  end.

(** The comparison OrderBy applies to the projected keys: the comparer
    passed for the call, else [cmp.Compare]. *)
Definition resolvedKeyComparison {V : Type} `{Comparable V}
    (compare : list (option (V -> V -> Z))) : option (V -> V -> Z) :=
  match compare with
  | Some c :: _ => Some c
  | None :: _ => None
  | [] => Some cmp_Compare
  end.

(** What [slices.SortFunc] requires of [cmp]: "less", read as a negative
    result, is a strict weak ordering. *)
Record StrictWeakOrdering {E : Type} (cmp : E -> E -> Z) : Prop := {
  swo_irreflexive : forall x, ~ cmp x x < 0;
  swo_transitive : forall x y z, cmp x y < 0 -> cmp y z < 0 -> cmp x z < 0;
  swo_negatively_transitive :
    forall x y z, ~ cmp x y < 0 -> ~ cmp y z < 0 -> ~ cmp x z < 0
}.

Arguments swo_irreflexive {E cmp} s x.
Arguments swo_transitive {E cmp} s x y z.
Arguments swo_negatively_transitive {E cmp} s x y z.

(** Non-decreasing under [cmp]: no element is less than an earlier one. *)
Definition nonDecreasing {E : Type} (cmp : E -> E -> Z) (l : list E) : Prop :=
  StronglySorted (fun x y => ~ cmp y x < 0) l.

(** What the documentation of [slices.SortFunc] promises: for a strict
    weak ordering the slice ends up a non-decreasing permutation of what
    it was.  Stability is explicitly not promised. *)
Definition SortFunc_contract
    (SortFunc : forall E : Type, (E -> E -> Z) -> list E -> list E) : Prop :=
  forall (E : Type) (cmp : E -> E -> Z) (x : list E),
    StrictWeakOrdering cmp ->
    Permutation x (SortFunc E cmp x) /\ nonDecreasing cmp (SortFunc E cmp x).

(** Stability, for a sort by key: for every key [k], the elements whose
    key compares equal to [k] come out in the order in which they went
    in. *)
Definition sameOrderAmongEqual {T V : Type} (key : T -> V) (cmp : V -> V -> Z)
    (input output : list T) : Prop :=
  forall k : V,
    filter (fun x => cmp (key x) k =? 0) output
    = filter (fun x => cmp (key x) k =? 0) input.

(** A sort that meets the contract: insertion into a sorted list, each
    element going before the first one that is not less than it. *)
Fixpoint insertSorted {E : Type} (cmp : E -> E -> Z) (x : E) (l : list E) : list E :=
  match l with
  | [] => [x]
  | y :: l' => if cmp y x <? 0 then y :: insertSorted cmp x l' else x :: y :: l'
  end.

Definition insertionSort (E : Type) (cmp : E -> E -> Z) (l : list E) : list E :=
  fold_right (insertSorted cmp) [] l.


(** Another sort that meets the contract: each element goes after the
    last one that is not greater than it. *)
Fixpoint insertSortedLast {E : Type} (cmp : E -> E -> Z) (x : E) (l : list E) : list E :=
  match l with
  | [] => [x]
  | y :: l' => if cmp x y <? 0 then x :: y :: l' else y :: insertSortedLast cmp x l'
  end.

Definition insertionSortLast (E : Type) (cmp : E -> E -> Z) (l : list E) : list E :=
  fold_right (insertSortedLast cmp) [] l.

(** Thirteen elements (identity tag, key): twelve with key 1 in the order
    of their tags, then one with key 0; and the order in which OrderBy by
    key yields them. *)
Definition taggedInput : list (Z * Z) :=
  [(0, 1); (1, 1); (2, 1); (3, 1); (4, 1); (5, 1); (6, 1);
   (7, 1); (8, 1); (9, 1); (10, 1); (11, 1); (12, 0)].

Definition taggedOutput : list (Z * Z) :=
  [(12, 0); (6, 1); (2, 1); (3, 1); (4, 1); (5, 1); (0, 1);
   (7, 1); (8, 1); (9, 1); (10, 1); (11, 1); (1, 1)].

(* ================================================================== *)
(** ** Loop bodies in closed form, for the proofs *)

(** One turn of the loop of Last with a predicate [p], as a function of
    the state [any], [found], [result]. *)
Definition Last_step {T : Type} (p : T -> bool) (item : T) (st : bool * bool * T)
  : bool * bool * T :=
  let '(any, found, result) := st in
  if p item then (true, true, item) else (true, found, result).

(** One turn of the loop of SequenceEqual when the right-hand sequence is
    the slice [b]: the cursor is the index [calls] into [b]. *)
Definition compare_step {T : Type} (eq : T -> T -> bool) (b : list T) (item1 : T)
    (st : nat * option bool) : outcome (nat * option bool * bool) :=
  let '(calls, ret) := st in
  match nth_error b calls with
  | None => Done ((Datatypes.S calls, Some false), false)
  | Some item2 =>
      if eq item1 item2 then Done ((Datatypes.S calls, ret), true)
      else Done ((Datatypes.S calls, Some false), false)
  end.

(* ================================================================== *)
(** * Further operators

    An [Iterator] value of the embedding is one traversal function.  The
    operators Take, Skip, SkipLast, TakeLast, Range and Repeat return a
    closure that decrements a variable captured from the call that built
    it, so a later traversal of the same iterator value starts from what
    the earlier one left.  For these the embedding has a [_run] function
    that takes the captured variable as it stands and returns it as the
    traversal leaves it; the iterator proper is the first traversal.
    Operators that traverse an operand more than once (SkipLast, TakeLast,
    ContainsAny, ContainsAll, Union, Intersect, Join) are given here for
    operands that can be traversed again, as slices can. *)

Definition int_sub (x y : Z) : Z := wrap64 (x - y).

(** Two sequences that no consumer can tell apart: whatever the consumer
    and its state, traversal ends in the same state or the same panic. *)
Definition sameSequence {T : Type} (a b : Iterator T) : Prop :=
  forall (S : Type) (yield : Yield T S) (s : S), a S yield s = b S yield s.

(** [FromIterator]. *)
Definition FromIterator {TSource : Type} (source : Iterator TSource) : Iterator TSource :=
  source.

(* ------------------------------------------------------------------ *)
(** ** Where, Select, SelectMany, Cast *)

(** [if predicate(item) { if !yield(item) { return } }]. *)
Definition Iterator_Where {TSource : Type} (source : Iterator TSource)
    (predicate : TSource -> bool) : Iterator TSource :=
  fun S yield s =>
    source S (fun item s => if predicate item then yield item s else Done (s, true)) s.

(** [if !yield(valueSelector(item)) { return }]. *)
Definition Select {TSource TResult : Type} (source : Iterator TSource)
    (valueSelector : TSource -> TResult) : Iterator TResult :=
  fun S yield s => source S (fun item s => yield (valueSelector item) s) s.

(** The inner loop runs over the slice [valueSelector(item)]; a [return]
    inside it ends the outer loop too.  State of the inner loop: the
    consumer's state and whether [return] was executed. *)
Definition SelectMany {TSource TResult : Type} (source : Iterator TSource)
    (valueSelector : TSource -> list TResult) : Iterator TResult :=
  fun S yield s =>
    source S
      (fun item s =>
         '(s', returned) <- FromSlice (valueSelector item) (S * bool)%type
             (fun innerItem '(s, _) =>
                '(s', continue) <- yield innerItem s ;;
                Done ((s', negb continue), continue))
             (s, false) ;;
         Done (s', negb returned))
      s.

(** [Cast]: [any(item).(TResult)] panics when the assertion fails;
    [assert] is the assertion of the language. *)
Definition Cast {TSource TResult : Type} (assert : TSource -> option TResult)
    (source : Iterator TSource) : Iterator TResult :=
  fun S yield s =>
    source S
      (fun item s =>
         match assert item with
         | Some value => yield value s
         | None => Panic "interface conversion"
         end)
      s.

(* ------------------------------------------------------------------ *)
(** ** Count, All, Any *)

Definition Iterator_Count {TSource : Type} (source : Iterator TSource)
    (predicate : list (option (generic_Predicate TSource))) : outcome Z :=
  match predicate with
  | Some Predicate :: _ =>
      source Z
        (fun item result =>
           if Predicate item then Done (int_add result 1, true) else Done (result, true))
        0
  | _ => source Z (fun _ result => Done (int_add result 1, true)) 0
  end.

(** [if !predicate(item) { return false }]; [return true] after the loop. *)
Definition Iterator_All {TSource : Type} (source : Iterator TSource)
    (predicate : TSource -> bool) : outcome bool :=
  source bool
    (fun item result => if negb (predicate item) then Done (false, false) else Done (result, true))
    true.

Definition Iterator_Any {TSource : Type} (source : Iterator TSource)
    (predicate : list (option (generic_Predicate TSource))) : outcome bool :=
  match predicate with
  | Some Predicate :: _ =>
      source bool
        (fun item result => if Predicate item then Done (true, false) else Done (result, true))
        false
  | _ => source bool (fun _ _ => Done (true, false)) false
  end.

(* ------------------------------------------------------------------ *)
(** ** Append, Prepend *)

(** The loop over [source], then the loop over the slice [elements]. *)
Definition Iterator_Append {TSource : Type} (source : Iterator TSource)
    (elements : list TSource) : Iterator TSource :=
  fun S yield s =>
    '(s', returned) <- source (S * bool)%type
        (fun item '(s, _) =>
           '(s', continue) <- yield item s ;;
           Done ((s', negb continue), continue))
        (s, false) ;;
    if returned then Done s' else FromSlice elements S yield s'.

(** The loop over the slice [elements], then the loop over [source]. *)
Definition Iterator_Prepend {TSource : Type} (source : Iterator TSource)
    (elements : list TSource) : Iterator TSource :=
  fun S yield s =>
    '(s', returned) <- FromSlice elements (S * bool)%type
        (fun element '(s, _) =>
           '(s', continue) <- yield element s ;;
           Done ((s', negb continue), continue))
        (s, false) ;;
    if returned then Done s' else source S yield s'.

(* ------------------------------------------------------------------ *)
(** ** Take, Skip, SkipLast, TakeLast *)

(** The loop of Take (and of SkipLast):
    [if count <= 0 { return }; if !yield(item) { return }; count--].
    State: the captured [count] and the consumer's state. *)
Definition Take_run {TSource : Type} (source : Iterator TSource) (count : Z)
    (S : Type) (yield : Yield TSource S) (s : S) : outcome (Z * S) :=
  source (Z * S)%type
    (fun item '(count, s) =>
       if count <=? 0 then Done ((count, s), false)
       else
         '(s', continue) <- yield item s ;;
         if continue then Done ((int_sub count 1, s'), true)
         else Done ((count, s'), false))
    (count, s).

Definition Iterator_Take {TSource : Type} (source : Iterator TSource) (count : Z)
  : Iterator TSource :=
  fun S yield s => '(_, s') <- Take_run source count S yield s ;; Done s'.

(** The loop of Skip (and of TakeLast):
    [if count > 0 { count--; continue }; if !yield(item) { return }]. *)
Definition Skip_run {TSource : Type} (source : Iterator TSource) (count : Z)
    (S : Type) (yield : Yield TSource S) (s : S) : outcome (Z * S) :=
  source (Z * S)%type
    (fun item '(count, s) =>
       if count >? 0 then Done ((int_sub count 1, s), true)
       else
         '(s', continue) <- yield item s ;;
         Done ((count, s'), continue))
    (count, s).

Definition Iterator_Skip {TSource : Type} (source : Iterator TSource) (count : Z)
  : Iterator TSource :=
  fun S yield s => '(_, s') <- Skip_run source count S yield s ;; Done s'.

(** [count = source.Count() - count], then the loop of Take. *)
Definition SkipLast_run {TSource : Type} (source : Iterator TSource) (count : Z)
    (S : Type) (yield : Yield TSource S) (s : S) : outcome (Z * S) :=
  total <- Iterator_Count source [] ;;
  Take_run source (int_sub total count) S yield s.

Definition Iterator_SkipLast {TSource : Type} (source : Iterator TSource) (count : Z)
  : Iterator TSource :=
  fun S yield s => '(_, s') <- SkipLast_run source count S yield s ;; Done s'.

(** [count = source.Count() - count], then the loop of Skip. *)
Definition TakeLast_run {TSource : Type} (source : Iterator TSource) (count : Z)
    (S : Type) (yield : Yield TSource S) (s : S) : outcome (Z * S) :=
  total <- Iterator_Count source [] ;;
  Skip_run source (int_sub total count) S yield s.

Definition Iterator_TakeLast {TSource : Type} (source : Iterator TSource) (count : Z)
  : Iterator TSource :=
  fun S yield s => '(_, s') <- TakeLast_run source count S yield s ;; Done s'.

(* ------------------------------------------------------------------ *)
(** ** ElementAt and its variants *)

Section ElementAt.
Context {TSource : Type} `{GoType TSource}.

(** The loop shared by the three variants:
    [if index == 0 { return item }; index--].  State: [index] and the
    item returned from inside the loop, if the loop returned. *)
Definition ElementAt_loop (source : Iterator TSource) (index : Z)
  : outcome (Z * option TSource) :=
  source (Z * option TSource)%type
    (fun item '(index, ret) =>
       if index =? 0 then Done ((index, Some item), false)
       else Done ((int_sub index 1, ret), true))
    (index, None).

Definition Iterator_ElementAt (source : Iterator TSource) (index : Z)
  : outcome (TSource * option error) :=
  if index <? 0 then Done (zero, Some ErrIndexOutOfRange)
  else
    '(_, ret) <- ElementAt_loop source index ;;
    match ret with
    | Some item => Done (item, None)
    | None => Done (zero, Some ErrIndexOutOfRange)
    end.

Definition Iterator_ElementAtOrDefault (source : Iterator TSource) (index : Z)
  : outcome TSource :=
  if index <? 0 then Done zero
  else
    '(_, ret) <- ElementAt_loop source index ;;
    match ret with
    | Some item => Done item
    | None => Done zero
    end.

Definition Iterator_ElementAtOrFallback (source : Iterator TSource) (index : Z)
    (fallback : TSource) : outcome TSource :=
  if index <? 0 then Done fallback
  else
    '(_, ret) <- ElementAt_loop source index ;;
    match ret with
    | Some item => Done item
    | None => Done fallback
    end.

End ElementAt.

(* ------------------------------------------------------------------ *)
(** ** The OrDefault and OrFallback variants of First, Last, Single *)

Section Fallbacks.
Context {TSource : Type} `{GoType TSource}.

(** The loops of FirstOrDefault and FirstOrFallback; [otherwise] is what
    is returned after the loop. *)
Definition First_or (otherwise : TSource) (source : Iterator TSource)
    (predicate : list (option (generic_Predicate TSource))) : outcome TSource :=
  ret <- match suppliedPredicate predicate with
         | Some Predicate =>
             source (option TSource)
               (fun item ret =>
                  if Predicate item then Done (Some item, false) else Done (ret, true))
               None
         | None =>
             source (option TSource) (fun item _ => Done (Some item, false)) None
         end ;;
  match ret with
  | Some item => Done item
  | None => Done otherwise
  end.

Definition Iterator_FirstOrDefault (source : Iterator TSource)
    (predicate : list (option (generic_Predicate TSource))) : outcome TSource :=
  First_or zero source predicate.

Definition Iterator_FirstOrFallback (source : Iterator TSource) (fallback : TSource)
    (predicate : list (option (generic_Predicate TSource))) : outcome TSource :=
  First_or fallback source predicate.

(** The loops of LastOrDefault and LastOrFallback.  State: [found],
    [result]. *)
Definition Last_or (otherwise : TSource) (source : Iterator TSource)
    (predicate : list (option (generic_Predicate TSource))) : outcome TSource :=
  '(found, result) <-
     match suppliedPredicate predicate with
     | Some Predicate =>
         source (bool * TSource)%type
           (fun item '(found, result) =>
              if Predicate item then Done ((true, item), true)
              else Done ((found, result), true))
           (false, zero)
     | None =>
         source (bool * TSource)%type
           (fun item _ => Done ((true, item), true))
           (false, zero)
     end ;;
  if found : bool then Done result else Done otherwise.

Definition Iterator_LastOrDefault (source : Iterator TSource)
    (predicate : list (option (generic_Predicate TSource))) : outcome TSource :=
  Last_or zero source predicate.

Definition Iterator_LastOrFallback (source : Iterator TSource) (fallback : TSource)
    (predicate : list (option (generic_Predicate TSource))) : outcome TSource :=
  Last_or fallback source predicate.

(** The loops of SingleOrDefault and SingleOrFallback.  State: [found],
    [result], and whether the loop returned on a second match. *)
Definition Single_loops (source : Iterator TSource)
    (predicate : list (option (generic_Predicate TSource)))
  : outcome (bool * TSource * bool) :=
  match suppliedPredicate predicate with
  | Some Predicate =>
      source (bool * TSource * bool)%type
        (fun item '(found, result, returned) =>
           if Predicate item then
             if found : bool then Done ((found, result, true), false)
             else Done ((true, item, returned), true)
           else Done ((found, result, returned), true))
        (false, zero, false)
  | None =>
      source (bool * TSource * bool)%type
        (fun item '(found, result, returned) =>
           if found : bool then Done ((found, result, true), false)
           else Done ((true, item, returned), true))
        (false, zero, false)
  end.

(** SingleOrDefault returns [result] after the loop without looking at
    [found]: [result] is still the zero value when nothing matched. *)
Definition Iterator_SingleOrDefault (source : Iterator TSource)
    (predicate : list (option (generic_Predicate TSource))) : outcome TSource :=
  '(found, result, returned) <- Single_loops source predicate ;;
  if returned : bool then Done zero else Done result.

Definition Iterator_SingleOrFallback (source : Iterator TSource) (fallback : TSource)
    (predicate : list (option (generic_Predicate TSource))) : outcome TSource :=
  '(found, result, returned) <- Single_loops source predicate ;;
  if returned : bool then Done fallback
  else if found : bool then Done result else Done fallback.

End Fallbacks.

(* ------------------------------------------------------------------ *)
(** ** ContainsAny, ContainsAll, Intersect, Union, Zip, Join *)

Section Sets.
Context {TSource : Type} `{GoType TSource}.

(** [for _, value := range values { if source.Contains(value, comparer...) { return true } }]. *)
Fixpoint Iterator_ContainsAny (source : Iterator TSource) (values : list TSource)
    (comparer : list (option (generic_Equality TSource))) : outcome bool :=
  match values with
  | [] => Done false
  | value :: rest =>
      found <- Iterator_Contains source value comparer ;;
      if found : bool then Done true else Iterator_ContainsAny source rest comparer
  end.

Fixpoint Iterator_ContainsAll (source : Iterator TSource) (values : list TSource)
    (comparer : list (option (generic_Equality TSource))) : outcome bool :=
  match values with
  | [] => Done true
  | value :: rest =>
      found <- Iterator_Contains source value comparer ;;
      if found : bool then Iterator_ContainsAll source rest comparer else Done false
  end.

(** The body of Intersect is, branch for branch, the nested loops of
    Except. *)
Definition Iterator_Intersect (source sequence : Iterator TSource)
    (comparer : list (option (generic_Equality TSource))) : Iterator TSource :=
  match comparer with
  | isEqual :: _ =>
      Except_loops
        (fun item other =>
           match isEqual with
           | Some eq => Done (eq item other)
           | None => Panic "invalid memory address or nil pointer dereference"
           end)
        (Iterator_Distinct source [isEqual])
        (Iterator_Distinct sequence [isEqual])
  | [] =>
      match IEquatable with
      | Some Equal =>
          Except_loops (fun item other => Done (Equal item other))
            (Iterator_Distinct source []) (Iterator_Distinct sequence [])
      | None =>
          Except_loops (fun item other => Done (DeepEqual item other))
            (Iterator_Distinct source []) (Iterator_Distinct sequence [])
      end
  end.

(** The distinct elements of [source], then the distinct elements of
    [sequence] that [source.Contains] does not find. *)
Definition Iterator_Union (source sequence : Iterator TSource)
    (comparer : list (option (generic_Equality TSource))) : Iterator TSource :=
  fun S yield s =>
    '(s', returned) <- Iterator_Distinct source comparer (S * bool)%type
        (fun item '(s, _) =>
           '(s', continue) <- yield item s ;;
           Done ((s', negb continue), continue))
        (s, false) ;;
    if returned then Done s'
    else
      Iterator_Distinct sequence comparer S
        (fun item s =>
           found <- Iterator_Contains source item comparer ;;
           if found : bool then Done (s, true) else yield item s)
        s'.

End Sets.

(** [Zip]: one call of [next] on [sequence] per element of [source]; the
    loop returns when [sequence] has ended.  State: the number of calls of
    [next] and the consumer's state. *)
Definition Zip {TFirst TSecond : Type} (source : Iterator TFirst)
    (sequence : Iterator TSecond) : Iterator (ValuePair TFirst TSecond) :=
  fun S yield s =>
    '(_, s') <- source (nat * S)%type
        (fun item1 '(calls, s) =>
           next <- Pull_next sequence calls ;;
           match next with
           | None => Done ((Datatypes.S calls, s), false)
           | Some item2 =>
               '(s', continue) <- yield (mkValuePair item1 item2) s ;;
               Done ((Datatypes.S calls, s'), continue)
           end)
        (O, s) ;;
    Done s'.

Section Join.
Context {TOuter TInner TKey TResult : Type} `{GoType TKey}.

(** The nested loops shared by [joinComparer], [joinEquatable] and
    [joinComparable]; [isEqual] is the test each applies to the two keys. *)
Definition join_loops (isEqual : TKey -> TKey -> bool)
    (outer : Iterator TOuter) (inner : Iterator TInner)
    (outerKeySelector : TOuter -> TKey) (innerKeySelector : TInner -> TKey)
    (resultSelector : TOuter -> TInner -> TResult) : Iterator TResult :=
  fun S yield s =>
    '(s', _) <- outer (S * bool)%type
        (fun outerItem '(s, _) =>
           let outerKey := outerKeySelector outerItem in
           '(s', returned) <- inner (S * bool)%type
               (fun innerItem '(s, _) =>
                  let innerKey := innerKeySelector innerItem in
                  if isEqual outerKey innerKey then
                    '(s', continue) <- yield (resultSelector outerItem innerItem) s ;;
                    Done ((s', negb continue), continue)
                  else Done ((s, false), true))
               (s, false) ;;
           Done ((s', returned), negb returned))
        (s, false) ;;
    Done s'.

Definition Join (outer : Iterator TOuter) (inner : Iterator TInner)
    (outerKeySelector : TOuter -> TKey) (innerKeySelector : TInner -> TKey)
    (resultSelector : TOuter -> TInner -> TResult)
    (comparer : list (option (generic_Equality TKey))) : Iterator TResult :=
  match comparer with
  | Some isEqual :: _ =>
      join_loops isEqual outer inner outerKeySelector innerKeySelector resultSelector
  | _ =>
      match IEquatable with
      | Some Equal =>
          join_loops Equal outer inner outerKeySelector innerKeySelector resultSelector
      | None =>
          join_loops DeepEqual outer inner outerKeySelector innerKeySelector resultSelector
      end
  end.

End Join.

(* ------------------------------------------------------------------ *)
(** ** The functions Min, Max, MinMax and the method MinMax *)

Section Extrema.
Context {TSource : Type} `{GoType TSource} `{Comparable TSource}.

(** [item < min] is [cmp_Less item min] and [item > max] is
    [cmp_Less max item]: the operators of the ordered type. *)
Definition Min (source : Iterator TSource) : outcome (TSource * option error) :=
  '(found, min) <- source (bool * TSource)%type
      (fun item '(found, min) =>
         if negb found then Done ((true, item), true)
         else if cmp_Less item min then Done ((found, item), true)
         else Done ((found, min), true))
      (false, zero) ;;
  if negb found then Done (min, Some ErrSourceContainsNoElements)
  else Done (min, None).

Definition Max (source : Iterator TSource) : outcome (TSource * option error) :=
  '(found, max) <- source (bool * TSource)%type
      (fun item '(found, max) =>
         if negb found then Done ((true, item), true)
         else if cmp_Less max item then Done ((found, item), true)
         else Done ((found, max), true))
      (false, zero) ;;
  if negb found then Done (max, Some ErrSourceContainsNoElements)
  else Done (max, None).

Definition MinMax (source : Iterator TSource)
  : outcome (TSource * TSource * option error) :=
  '(found, min, max) <- source (bool * TSource * TSource)%type
      (fun item '(found, min, max) =>
         if negb found then Done ((true, item, item), true)
         else if cmp_Less item min then Done ((found, item, max), true)
         else if cmp_Less max item then Done ((found, min, item), true)
         else Done ((found, min, max), true))
      (false, zero, zero) ;;
  if negb found then Done (min, max, Some ErrSourceContainsNoElements)
  else Done (min, max, None).

End Extrema.

Section MinMaxMethod.
Context {TSource : Type} `{GoType TSource}.

(** The method [Iterator.MinMax].  In the comparer branch a replaced
    [min] skips the test of [max] ([continue]); in the IComparable branch
    both tests run, each against the zero value bound before the loop. *)
Definition Iterator_MinMax (source : Iterator TSource)
    (compare : list (option (generic_Comparison TSource)))
  : outcome (TSource * TSource * option error) :=
  match compare with
  | compare0 :: _ =>
      '(found, min, max) <- source (bool * TSource * TSource)%type
          (fun item '(found, min, max) =>
             if negb found then Done ((true, item, item), true)
             else
               match compare0 with
               | None => nilCall
               | Some c =>
                   if c min item <? 0 then Done ((found, item, max), true)
                   else if c max item >? 0 then Done ((found, min, item), true)
                   else Done ((found, min, max), true)
               end)
          (false, zero, zero) ;;
      if negb found then Done (min, max, Some ErrSourceContainsNoElements)
      else Done (min, max, None)
  | [] =>
      match IComparable with
      | Some Compare =>
          '(found, min, max) <- source (bool * TSource * TSource)%type
              (fun item '(found, min, max) =>
                 if negb found then Done ((true, item, item), true)
                 else
                   Done ((found,
                          (if Compare zero item <? 0 then item else min),
                          (if Compare zero item >? 0 then item else max)), true))
              (false, zero, zero) ;;
          if negb found then Done (min, max, Some ErrSourceContainsNoElements)
          else Done (min, max, None)
      | None =>
          match primitive with
          | Some _ => minmax primitiveLess source
          | None => Panic "unsupported type for Max"
          end
      end
  end.

End MinMaxMethod.

(* ------------------------------------------------------------------ *)
(** ** The descending orders and the function Order *)

Section Descending.
Variable SortFunc : forall E : Type, (E -> E -> Z) -> list E -> list E.
Arguments SortFunc {E}.
(** [slices.Sort] of the standard library at an ordered element type. *)
Variable Sort : forall E : Type, Comparable E -> list E -> list E.

(** The method [Iterator[TSource].OrderDescending]: the comparison is
    applied with its arguments exchanged. *)
Definition Iterator_OrderDescending {TSource : Type} `{GoType TSource}
    (source : Iterator TSource) (compare : list (option (TSource -> TSource -> Z)))
  : Iterator TSource :=
  fun S yield s =>
    result1 <- source (list TSource)
        (fun item result1 => Done (result1 ++ [item], true)) [] ;;
    sorted <- match compare with
              | Some Compare :: _ => Done (SortFunc (fun x y => Compare y x) result1)
              | None :: _ =>
                  if (List.length result1 <? 2)%nat then Done result1
                  else Panic "invalid memory address or nil pointer dereference"
              | [] =>
                  match IComparable with
                  | Some Compare =>
                      Done (SortFunc (fun first second => Compare second first) result1)
                  | None =>
                      match primitive with
                      | Some c => Done (SortFunc (fun x y => c y x) result1)
                      | None => Panic "unsupported type for Order"
                      end
                  end
              end ;;
    FromSlice sorted S yield s.

(** The function [OrderByDescending]. *)
Definition OrderByDescending {TSource TValue : Type} `{Comparable TValue}
    (source : Iterator TSource) (valueSelector : TSource -> TValue)
    (compare : list (option (TValue -> TValue -> Z))) : Iterator TSource :=
  fun S yield s =>
    result <- source (list (ValuePair TSource TValue))
        (fun item result =>
           Done (result ++ [mkValuePair item (valueSelector item)], true)) [] ;;
    sorted <- match compare with
              | Some Compare :: _ =>
                  Done (SortFunc (fun x y => Compare (Item2 y) (Item2 x)) result)
              | None :: _ =>
                  if (List.length result <? 2)%nat then Done result
                  else Panic "invalid memory address or nil pointer dereference"
              | [] =>
                  Done (SortFunc (fun x y => cmp_Compare (Item2 y) (Item2 x)) result)
              end ;;
    FromSlice (map Item1 sorted) S yield s.

(** The function [Order]: [slices.SortFunc] with a comparer,
    [slices.Sort] without. *)
Definition Order {TSource : Type} `{C : Comparable TSource}
    (source : Iterator TSource) (compare : list (option (TSource -> TSource -> Z)))
  : Iterator TSource :=
  fun S yield s =>
    result <- source (list TSource)
        (fun item result => Done (result ++ [item], true)) [] ;;
    sorted <- match compare with
              | compare0 :: _ => callSortFunc (@SortFunc) result compare0
              | [] => Done (Sort TSource C result)
              end ;;
    FromSlice sorted S yield s.

(** The function [OrderDescending]. *)
Definition OrderDescending {TSource : Type} `{Comparable TSource}
    (source : Iterator TSource) (compare : list (option (TSource -> TSource -> Z)))
  : Iterator TSource :=
  fun S yield s =>
    result <- source (list TSource)
        (fun item result => Done (result ++ [item], true)) [] ;;
    sorted <- match compare with
              | Some Compare :: _ => Done (SortFunc (fun x y => Compare y x) result)
              | None :: _ =>
                  if (List.length result <? 2)%nat then Done result
                  else Panic "invalid memory address or nil pointer dereference"
              | [] => Done (SortFunc (fun x y => cmp_Compare y x) result)
              end ;;
    FromSlice sorted S yield s.

End Descending.

(* ------------------------------------------------------------------ *)
(** ** Range and Repeat *)

(** [for count > 0 { if !yield(start) { return }; start++; count-- }], at
    most [turns] times.  It returns the captured [start] and [count] as the
    traversal leaves them. *)
Fixpoint Range_loop (turns : nat) (start count : Z) (St : Type) (yield : Yield Z St)
    (s : St) : outcome (Z * Z * St) :=
  match turns with
  | O => Done (start, count, s)
  | Datatypes.S turns' =>
      if count >? 0 then
        '(s', continue) <- yield start s ;;
        if continue
        then Range_loop turns' (int_add start 1) (int_sub count 1) St yield s'
        else Done (start, count, s')
      else Done (start, count, s)
  end.

(** [count] goes down by one per turn, so [count] turns end the loop. *)
Definition Range_run (start count : Z) (S : Type) (yield : Yield Z S) (s : S)
  : outcome (Z * Z * S) :=
  Range_loop (Z.to_nat count) start count S yield s.

Definition Range (start count : Z) : Iterator Z :=
  fun S yield s => '(_, _, s') <- Range_run start count S yield s ;; Done s'.

(** [for count > 0 { if !yield(element) { return }; count-- }]. *)
Fixpoint Repeat_loop {TSource : Type} (turns : nat) (element : TSource) (count : Z)
    (St : Type) (yield : Yield TSource St) (s : St) : outcome (Z * St) :=
  match turns with
  | O => Done (count, s)
  | Datatypes.S turns' =>
      if count >? 0 then
        '(s', continue) <- yield element s ;;
        if continue then Repeat_loop turns' element (int_sub count 1) St yield s'
        else Done (count, s')
      else Done (count, s)
  end.

Definition Repeat_run {TSource : Type} (element : TSource) (count : Z)
    (S : Type) (yield : Yield TSource S) (s : S) : outcome (Z * S) :=
  Repeat_loop (Z.to_nat count) element count S yield s.

Definition Repeat {TSource : Type} (element : TSource) (count : Z) : Iterator TSource :=
  fun S yield s => '(_, s') <- Repeat_run element count S yield s ;; Done s'.

(* ------------------------------------------------------------------ *)
(** ** Maps: ToMap, FromMap, GroupBy *)

(** [generic.KeyValuePair[TKey, TValue]]. *)
Record KeyValuePair (TKey TValue : Type) : Type :=
  mkKeyValuePair { Key : TKey; Value : TValue }.

Arguments mkKeyValuePair {TKey TValue} Key Value.
Arguments Key {TKey TValue} k.
Arguments Value {TKey TValue} k.

(** The key types of Go maps ([comparable]): [==] decides equality. *)
Class ComparableKey (K : Type) : Type := {
  key_eqb : K -> K -> bool;
  key_eqb_eq : forall x y, key_eqb x y = true <-> x = y
}.

#[export] Instance ComparableKey_int : ComparableKey Z :=
  {| key_eqb := Z.eqb; key_eqb_eq := Z.eqb_eq |}.
#[export] Instance ComparableKey_string : ComparableKey string :=
  {| key_eqb := String.eqb; key_eqb_eq := String.eqb_eq |}.

(** A Go [map[K]V]: its bindings, at most one per key.  The order of the
    list is not the order in which [range] visits the map. *)
Definition GoMap (K V : Type) : Type := list (K * V).

(** [v, ok := m[k]]. *)
Fixpoint map_lookup {K V : Type} `{ComparableKey K} (m : GoMap K V) (k : K) : option V :=
  match m with
  | [] => None
  | (k', v) :: rest => if key_eqb k' k then Some v else map_lookup rest k
  end.

(** [m[k] = v]. *)
Fixpoint map_assign {K V : Type} `{ComparableKey K} (m : GoMap K V) (k : K) (v : V)
  : GoMap K V :=
  match m with
  | [] => [(k, v)]
  | (k', v') :: rest =>
      if key_eqb k' k then (k, v) :: rest else (k', v') :: map_assign rest k v
  end.

(** [ToMap]: [result[keySelector(item)] = valueSelector(item)] per item. *)
Definition ToMap {TSource TKey TValue : Type} `{ComparableKey TKey}
    (source : Iterator TSource) (keySelector : TSource -> TKey)
    (valueSelector : TSource -> TValue) : outcome (GoMap TKey TValue) :=
  source (GoMap TKey TValue)
    (fun item result =>
       Done (map_assign result (keySelector item) (valueSelector item), true))
    [].

Section MapRange.
(** The order in which a [range] statement visits the bindings of a map;
    the language leaves it unspecified. *)
Variable rangeOrder : forall K V : Type, GoMap K V -> list (K * V).

(** [FromMap]. *)
Definition FromMap {TKey TValue : Type} (source : GoMap TKey TValue)
  : Iterator (KeyValuePair TKey TValue) :=
  FromSlice (map (fun binding => mkKeyValuePair (fst binding) (snd binding))
               (rangeOrder TKey TValue source)).

(** The first loop of [GroupBy]:
    [groups[key] = append(groups[key], item)]. *)
Definition GroupBy_groups {TSource TKey : Type} `{ComparableKey TKey}
    (source : Iterator TSource) (keySelector : TSource -> TKey)
  : outcome (GoMap TKey (list TSource)) :=
  source (GoMap TKey (list TSource))
    (fun item groups =>
       let key := keySelector item in
       Done (map_assign groups key
               (match map_lookup groups key with
                | Some group => group ++ [item]
                | None => [item]
                end), true))
    [].

(** [GroupBy]: the groups are yielded in the order of [range]; each value
    is [FromSlice] of the group. *)
Definition GroupBy {TSource TKey : Type} `{ComparableKey TKey}
    (source : Iterator TSource) (keySelector : TSource -> TKey)
  : Iterator (KeyValuePair TKey (Iterator TSource)) :=
  fun S yield s =>
    groups <- GroupBy_groups source keySelector ;;
    FromSlice (rangeOrder TKey (list TSource) groups) S
      (fun binding s => yield (mkKeyValuePair (fst binding) (FromSlice (snd binding))) s)
      s.

End MapRange.

(* ------------------------------------------------------------------ *)
(** ** Notions used by the properties of the further operators *)

(** An element type all of whose equality tiers decide equality: the
    method [Equal] when there is one, [reflect.Value.Equal] on comparable
    values, and [reflect.DeepEqual]. *)
Class LawfulEquality (T : Type) {G : GoType T} : Prop := {
  IEquatable_eq :
    forall Equal, IEquatable = Some Equal -> forall x y, Equal x y = true <-> x = y;
  reflectValueEqual_eq :
    forall x y, reflectComparable x = true -> (reflectValueEqual x y = true <-> x = y);
  DeepEqual_eq : forall x y, DeepEqual x y = true <-> x = y
}.

(** The elements of [l] without repetition, each at its first occurrence,
    under the test [seen] applied to (kept element, candidate). *)
Fixpoint firstOccurrences {T : Type} (seen : T -> T -> bool) (kept l : list T) : list T :=
  match l with
  | [] => kept
  | x :: rest =>
      firstOccurrences seen (if existsb (fun y => seen y x) kept then kept else kept ++ [x])
        rest
  end.

(** The integers [start], [start + 1], ... ([n] of them) as Go computes
    them, wrapping at 64 bits. *)
Fixpoint countUp (start : Z) (n : nat) : list Z :=
  match n with
  | O => []
  | Datatypes.S n' => start :: countUp (int_add start 1) n'
  end.

(** A value of Go's [int]. *)
Definition isInt (z : Z) : Prop := - 2 ^ 63 <= z < 2 ^ 63.

(** Materializing one iterator value twice: [run] is the closure with its
    captured counter; the second traversal starts from the counter the
    first one left. *)
Definition ToSlice_twice {T : Type}
    (run : Z -> forall S : Type, Yield T S -> S -> outcome (Z * S)) (count : Z)
  : outcome (list T * list T) :=
  '(count', first) <- run count (list T) (fun item result => Done (result ++ [item], true)) [] ;;
  '(_, second) <- run count' (list T) (fun item result => Done (result ++ [item], true)) [] ;;
  Done (first, second).

(** What a variant with a fallback makes of the result of the strict
    variant: the element when there is no error, the fallback otherwise. *)
Definition orElse {T : Type} (fallback : T) (strict : outcome (T * option error))
  : outcome T :=
  '(item, err) <- strict ;;
  Done (match err with
        | None => item
        | Some _ => fallback
        end).

(** Final states of two loops over the same slice stand in [R], or both
    loops panic with the same message. *)
Definition related {S1 S2 : Type} (R : S1 -> S2 -> Prop)
    (a : outcome S1) (b : outcome S2) : Prop :=
  match a, b with
  | Done s1, Done s2 => R s1 s2
  | Panic msg1, Panic msg2 => msg1 = msg2
  | _, _ => False
  end.

(** The loops of Single and of its variants in step: same [found], same
    [result], the variant has returned exactly when Single has an error to
    return, and [result] is the zero value until something is found. *)
Definition Single_step {T : Type} `{GoType T}
    (s1 : bool * T * option error) (s2 : bool * T * bool) : Prop :=
  fst (fst s1) = fst (fst s2)
  /\ snd (fst s1) = snd (fst s2)
  /\ snd s2 = match snd s1 with Some _ => true | None => false end
  /\ (fst (fst s2) = false -> snd (fst s2) = zero).

(** The test Contains applies to an element [item] of the source when it
    looks for [value]: the comparer on (item, value) when one that is not
    nil is passed, else [value.Equal(item)], else [reflect.Value.Equal]
    when [value] is comparable, else [reflect.DeepEqual]. *)
Definition containsTest {T : Type} `{GoType T}
    (comparer : list (option (generic_Equality T))) (value item : T) : bool :=
  match comparer with
  | Some Equal :: _ => Equal item value
  | _ =>
      match IEquatable with
      | Some Equal => Equal value item
      | None =>
          if reflectComparable value then reflectValueEqual value item
          else DeepEqual item value
      end
  end.

(** A test that decides equality. *)
Definition decides {T : Type} (c : T -> T -> bool) : Prop :=
  forall x y, c x y = true <-> x = y.

(** The equality used for a call decides equality: the comparer when one
    that is not nil is passed, every tier of the default otherwise. *)
Definition decidingEquality {T : Type} `{GoType T}
    (comparer : list (option (generic_Equality T))) : Prop :=
  match comparer with
  | Some c :: _ => decides c
  | _ => LawfulEquality T
  end.

(** No element of the list is [seen] by an earlier one. *)
Definition noneSeenEarlier {T : Type} (seen : T -> T -> bool) (l : list T) : Prop :=
  StronglySorted (fun y x => seen y x = false) l.

(* ------------------------------------------------------------------ *)
(** ** Notions for the extrema *)

(** A comparison with the laws of [cmp.Compare]: "less", read as a
    negative result, is a strict weak ordering, and exchanging the
    arguments exchanges "less" and "greater". *)
Record LawfulComparison {T : Type} (c : T -> T -> Z) : Prop := {
  lawful_less : StrictWeakOrdering c;
  lawful_greater : forall x y, c x y > 0 <-> c y x < 0
}.

Arguments lawful_less {T c} l.
Arguments lawful_greater {T c} l x y.

(** [m] is an element of [l] and no element of [l] is less than [m]. *)
Definition least {T : Type} (c : T -> T -> Z) (m : T) (l : list T) : Prop :=
  In m l /\ forall x, In x l -> ~ c x m < 0.

(** [m] is an element of [l] and no element of [l] is greater than [m]. *)
Definition greatest {T : Type} (c : T -> T -> Z) (m : T) (l : list T) : Prop :=
  In m l /\ forall x, In x l -> ~ c m x < 0.

(** The operator [<] of a type is a strict weak ordering, as it is at the
    integer kinds and at string.  At the float kinds it is not: NaN is
    neither less nor greater than any number, and numbers differ. *)
Record StrictWeakLess {T : Type} (lessThan : T -> T -> bool) : Prop := {
  less_irreflexive : forall x, lessThan x x = false;
  less_transitive :
    forall x y z, lessThan x y = true -> lessThan y z = true -> lessThan x z = true;
  less_negatively_transitive :
    forall x y z, lessThan x y = false -> lessThan y z = false -> lessThan x z = false
}.

Arguments less_irreflexive {T lessThan} s x.
Arguments less_transitive {T lessThan} s x y z.
Arguments less_negatively_transitive {T lessThan} s x y z.

(** [m] is an element of [l] and no element of [l] is [<] than [m]. *)
Definition leastUnder {T : Type} (lessThan : T -> T -> bool) (m : T) (l : list T)
  : Prop :=
  In m l /\ forall x, In x l -> lessThan x m = false.

(** [m] is an element of [l] and [m] is [<] than no element of [l]. *)
Definition greatestUnder {T : Type} (lessThan : T -> T -> bool) (m : T) (l : list T)
  : Prop :=
  In m l /\ forall x, In x l -> lessThan m x = false.

(** What a loop is left with that starts from [m] and replaces the
    element it holds by every item that is [better]. *)
Definition survivor {T : Type} (better : T -> T -> bool) (l : list T) (m : T) : T :=
  fold_left (fun held item => if better item held then item else held) l m.

(** A named integer type with a method [Compare] that returns
    [cmp.Compare] of the receiver and the argument, as a type that
    implements [generic.IComparable]. *)
Definition GoType_orderedInt : GoType Z := {|
  zero := 0;
  IEquatable := None;
  IComparable := Some cmp_Compare_int;
  reflectComparable := fun _ => true;
  reflectValueEqual := Z.eqb;
  DeepEqual := Z.eqb;
  primitive := None;
  primitiveLess := Z.ltb
|}.

(** Non-increasing under [cmp]: no element is less than a later one. *)
Definition nonIncreasing {E : Type} (cmp : E -> E -> Z) (l : list E) : Prop :=
  StronglySorted (fun x y => ~ cmp x y < 0) l.

(** What the language promises of [range] over a map that is not modified
    meanwhile: every binding is visited exactly once, in some order. *)
Definition visitsEveryBindingOnce
    (rangeOrder : forall K V : Type, GoMap K V -> list (K * V)) : Prop :=
  forall (K V : Type) (m : GoMap K V), Permutation m (rangeOrder K V m).

(** The elements of [l] whose key is [k], in the order of [l]. *)
Definition withKey {T K : Type} `{ComparableKey K} (keySelector : T -> K) (k : K)
    (l : list T) : list T :=
  filter (fun item => key_eqb (keySelector item) k) l.

(* ================================================================== *)
(** * Properties *)

(** ** Traversals of a slice *)

Lemma bind_Done {A B : Type} (a : A) (k : A -> outcome B) :
  bind (Done a) k = k a.
Proof. reflexivity. Qed.

(** A loop whose body never stops and never panics is a left fold. *)
Lemma FromSlice_fold {T S : Type} (step : T -> S -> S) (l : list T) (s : S) :
  FromSlice l S (fun item s => Done (step item s, true)) s
  = Done (fold_left (fun s item => step item s) l s).
Proof.
  revert s. induction l as [|x l IH]; intros s; simpl.
  - reflexivity.
  - apply IH.
Qed.

(** The traversal depends on the body only through its values. *)
Lemma FromSlice_ext {T S : Type} (f g : Yield T S) (l : list T) (s : S) :
  (forall item s, f item s = g item s) ->
  FromSlice l S f s = FromSlice l S g s.
Proof.
  intros Hfg. revert s. induction l as [|x l IH]; intros s; simpl.
  - reflexivity.
  - rewrite Hfg. destruct (g x s) as [[s' [|]]|msg]; simpl; auto.
Qed.

Lemma fold_left_snoc {T : Type} (l acc : list T) :
  fold_left (fun result item => result ++ [item]) l acc = acc ++ l.
Proof.
  revert acc. induction l as [|x l IH]; intros acc; simpl.
  - now rewrite app_nil_r.
  - rewrite IH, <- app_assoc. reflexivity.
Qed.

(** Collecting a slice gives the slice back. *)
Lemma collect_FromSlice {T : Type} (l : list T) :
  FromSlice l (list T) (fun item result => Done (result ++ [item], true)) [] = Done l.
Proof.
  rewrite (FromSlice_fold (fun item result => result ++ [item])).
  now rewrite fold_left_snoc.
Qed.

Lemma ToSlice_FromSlice {T : Type} (l : list T) : ToSlice (FromSlice l) = Done l.
Proof. apply collect_FromSlice. Qed.

(* ================================================================== *)
(** ** Aggregate *)

Lemma Aggregate_FromSlice {T A : Type} (l : list T) (seed : A) (accumulator : A -> T -> A)
    (resultSelector : list (option (A -> A))) :
  Aggregate (FromSlice l) seed accumulator resultSelector
  = applyResultSelector resultSelector (fold_left accumulator l seed).
Proof.
  unfold Aggregate.
  now rewrite (FromSlice_fold (fun item result => accumulator result item)).
Qed.

Lemma Iterator_Aggregate_FromSlice {T : Type} (l : list T) (seed : T)
    (accumulator : T -> T -> T) (resultSelector : list (option (T -> T))) :
  Iterator_Aggregate (FromSlice l) seed accumulator resultSelector
  = applyResultSelector resultSelector (fold_left accumulator l seed).
Proof.
  unfold Iterator_Aggregate.
  now rewrite (FromSlice_fold (fun item result => accumulator result item)).
Qed.

(** C8, as stated, fails: on an empty source with seed 100 and the halving
    result-transform, Aggregate returns 50, not the seed; and a nil
    result-transform makes it panic. *)
Lemma Aggregate_empty_seed_changed :
  Iterator_Aggregate (FromSlice []) 100 int_add [Some (fun total => int_quot total 2)]
  = Done 50
  /\ Iterator_Aggregate (FromSlice []) 100 int_add [Some (fun total => int_quot total 2)]
     <> Done 100
  /\ (forall r, Iterator_Aggregate (FromSlice []) 100 int_add [None] <> Done r).
Proof.
  split; [reflexivity|]. split; [discriminate|].
  intros r. discriminate.
Qed.

(** C8 (amended): on every finite source, Aggregate without a
    result-transform returns the left fold of the accumulator from the
    seed, hence the seed itself on an empty source; with a result-transform
    [f] that is not nil it returns [f] of that fold, hence [f seed] on an
    empty source.  Method and function agree.  Over 1..7 with seed 100 and
    addition the result is 128, and 64 with the halving transform. *)
Theorem Aggregate_fold :
  (forall (T A : Type) (l : list T) (seed : A) (accumulator : A -> T -> A),
      Aggregate (FromSlice l) seed accumulator [] = Done (fold_left accumulator l seed)
      /\ Aggregate (FromSlice []) seed accumulator [] = Done seed
      /\ forall f rest,
           Aggregate (FromSlice l) seed accumulator (Some f :: rest)
           = Done (f (fold_left accumulator l seed))
           /\ Aggregate (FromSlice []) seed accumulator (Some f :: rest) = Done (f seed))
  /\ (forall (T : Type) (l : list T) (seed : T) (accumulator : T -> T -> T),
      Iterator_Aggregate (FromSlice l) seed accumulator []
      = Done (fold_left accumulator l seed)
      /\ Iterator_Aggregate (FromSlice []) seed accumulator [] = Done seed
      /\ forall f rest,
           Iterator_Aggregate (FromSlice l) seed accumulator (Some f :: rest)
           = Done (f (fold_left accumulator l seed))
           /\ Iterator_Aggregate (FromSlice []) seed accumulator (Some f :: rest)
              = Done (f seed))
  /\ Iterator_Aggregate (FromSlice [1; 2; 3; 4; 5; 6; 7]) 100 int_add [] = Done 128
  /\ Iterator_Aggregate (FromSlice [1; 2; 3; 4; 5; 6; 7]) 100 int_add
       [Some (fun total => int_quot total 2)] = Done 64.
Proof.
  split; [|split; [|split; reflexivity]].
  - intros T A l seed accumulator.
    split; [now rewrite Aggregate_FromSlice|].
    split; [reflexivity|].
    intros f rest. split; [now rewrite Aggregate_FromSlice | reflexivity].
  - intros T l seed accumulator.
    split; [now rewrite Iterator_Aggregate_FromSlice|].
    split; [reflexivity|].
    intros f rest. split; [now rewrite Iterator_Aggregate_FromSlice | reflexivity].
Qed.

(* ================================================================== *)
(** ** Sum *)

(** C10: Sum of a finite sequence returns normally, with the left-to-right
    fold of [+] from the zero value of the element type; on an empty
    sequence that is the zero value.  Average, on an empty sequence,
    returns the empty-source error instead.  At [int] the fold wraps at 64
    bits, at [string] it concatenates. *)
Theorem Sum_fold :
  (forall (T : Type) (G : GoType T) (N : Number T) (l : list T),
      Sum (FromSlice l) = Done (fold_left plus l zero)
      /\ Sum (FromSlice (@nil T)) = Done zero)
  /\ (forall (T : Type) (G : GoType T) (N : Number T) (F : Type) (F0 : F)
        (conv : T -> F) (convInt : Z -> F) (div : F -> F -> F),
      Average F F0 conv convInt div (FromSlice (@nil T))
      = Done (F0, Some ErrSourceContainsNoElements))
  /\ Sum (FromSlice [1; 2; 3]) = Done 6
  /\ Sum (FromSlice [2 ^ 63 - 1; 1]) = Done (- 2 ^ 63)
  /\ Sum (FromSlice ["ab"%string; "c"%string]) = Done "abc"%string.
Proof.
  split; [|split; [|repeat split; reflexivity]].
  - intros T G N l. split; [|reflexivity].
    unfold Sum. now rewrite (FromSlice_fold (fun item result => plus result item)).
  - intros. reflexivity.
Qed.

(* ================================================================== *)
(** ** Single, First, Last *)

(** C6: Single without a predicate (none passed, or a nil one) returns the
    empty-source error on a source of no element, the element on a source
    of exactly one, and the source-has-more-than-one-element error on a
    source of two or more; the three shapes exhaust the finite sources and
    the three results differ, so each result occurs exactly on its shape.
    On [], [1,2] and [4]: empty source, more than one element, 4. *)
Theorem Single_without_predicate :
  (forall (T : Type) (G : GoType T) (predicate : list (option (T -> bool))),
      suppliedPredicate predicate = None ->
      Iterator_Single (FromSlice []) predicate
      = Done (zero, Some ErrSourceContainsNoElements)
      /\ (forall x, Iterator_Single (FromSlice [x]) predicate = Done (x, None))
      /\ (forall x y l,
             Iterator_Single (FromSlice (x :: y :: l)) predicate
             = Done (zero, Some ErrSourceHasMoreThanOneElement)))
  /\ Iterator_Single (FromSlice (@nil Z)) [] = Done (0, Some ErrSourceContainsNoElements)
  /\ Iterator_Single (FromSlice [1; 2]) [] = Done (0, Some ErrSourceHasMoreThanOneElement)
  /\ Iterator_Single (FromSlice [4]) [] = Done (4, None).
Proof.
  split; [|repeat split; reflexivity].
  intros T G predicate Hnone. unfold Iterator_Single. rewrite Hnone.
  repeat split; intros; reflexivity.
Qed.

Lemma Single_without_predicate_witness :
  suppliedPredicate (@nil (option (Z -> bool))) = None
  /\ Iterator_Single (FromSlice [7; 8; 9]) []
     = Done (0, Some ErrSourceHasMoreThanOneElement).
Proof.
  split; [reflexivity|].
  destruct Single_without_predicate as [general _].
  destruct (general Z _ (@nil (option (Z -> bool))) eq_refl) as (_ & _ & more).
  exact (more 7 8 [9]).
Defined.

Section FirstLast.
Context {T : Type} `{GoType T}.
Variable p : T -> bool.

(** The loop of First with a predicate, from any value of [any]. *)
Lemma First_loop (l : list T) (any : bool) :
  FromSlice l (bool * option T)%type
    (fun item '(any, ret) =>
       if p item then Done ((true, Some item), false)
       else Done ((true, ret), true))
    (any, None)
  = Done (match find p l with
          | Some x => (true, Some x)
          | None => (match l with [] => any | _ => true end, None)
          end).
Proof.
  revert any. induction l as [|x l IH]; intros any; simpl.
  - reflexivity.
  - destruct (p x); simpl; [reflexivity|].
    rewrite IH. destruct (find p l); [reflexivity|].
    now destruct l.
Qed.

Lemma Last_loop (l : list T) :
  fold_left (fun st item => Last_step p item st) l (false, false, zero)
  = match find p (rev l) with
    | Some x => (true, true, x)
    | None => (match l with [] => false | _ => true end, false, zero)
    end.
Proof.
  induction l as [|x l IH] using rev_ind.
  - reflexivity.
  - rewrite fold_left_app, IH, rev_app_distr. simpl.
    destruct (find p (rev l)); simpl.
    + destruct (p x); reflexivity.
    + destruct (p x); destruct l; reflexivity.
Qed.
End FirstLast.

(** C7: with a predicate passed, First of a finite source returns the
    first element that satisfies it ([find] from the front), Last the last
    one ([find] from the back); when no element satisfies it they return
    the empty-source error if the source has no element at all and the
    no-element-satisfies-the-condition error otherwise. *)
Theorem First_Last_with_predicate :
  forall (T : Type) (G : GoType T) (p : T -> bool) (more : list (option (T -> bool)))
         (l : list T),
    Iterator_First (FromSlice l) (Some p :: more)
    = Done (match find p l with
            | Some x => (x, None)
            | None =>
                match l with
                | [] => (zero, Some ErrSourceContainsNoElements)
                | _ :: _ => (zero, Some ErrNoElementSatisfiesTheConditionInPredicate)
                end
            end)
    /\ Iterator_Last (FromSlice l) (Some p :: more)
       = Done (match find p (rev l) with
               | Some x => (x, None)
               | None =>
                   match l with
                   | [] => (zero, Some ErrSourceContainsNoElements)
                   | _ :: _ => (zero, Some ErrNoElementSatisfiesTheConditionInPredicate)
                   end
               end).
Proof.
  intros T G p more l. split.
  - unfold Iterator_First. simpl suppliedPredicate. cbv iota.
    rewrite First_loop. simpl.
    destruct (find p l); [reflexivity|]. now destruct l.
  - unfold Iterator_Last. simpl suppliedPredicate. cbv iota.
    rewrite (FromSlice_ext _ (fun item st => Done (Last_step p item st, true))).
    2:{ intros item [[any found] result]. simpl. now destruct (p item). }
    rewrite FromSlice_fold, Last_loop. simpl.
    destruct (find p (rev l)); [reflexivity|]. now destruct l.
Qed.

(* ================================================================== *)
(** ** Min and Max with a comparer *)

(** C3 at [1, 2, 3] with [cmp.Compare] as the comparer: the comparer branch
    of Min replaces [min] when [compare(min, item) < 0], that is when the
    item is greater, and returns 3, although 1 and 2 compare less than 3;
    the comparer branch of Max replaces [max] when [compare(max, item) > 0]
    and returns 1, although 2 and 3 compare greater.  The fallback
    [minmax], reached without a comparer, returns 1 and 3.  The
    empty-source part of the claim holds. *)
Theorem Min_Max_comparer_inverted :
  Iterator_Min (FromSlice [1; 2; 3]) [Some cmp_Compare_int] = Done (3, None)
  /\ cmp_Compare_int 1 3 < 0
  /\ Iterator_Max (FromSlice [1; 2; 3]) [Some cmp_Compare_int] = Done (1, None)
  /\ cmp_Compare_int 3 1 > 0
  /\ Iterator_Min (FromSlice [1; 2; 3]) [] = Done (1, None)
  /\ Iterator_Max (FromSlice [1; 2; 3]) [] = Done (3, None)
  /\ (forall (T : Type) (G : GoType T) (c : T -> T -> Z) more,
         Iterator_Min (FromSlice []) (Some c :: more)
         = Done (zero, Some ErrSourceContainsNoElements)
         /\ Iterator_Max (FromSlice []) (Some c :: more)
            = Done (zero, Some ErrSourceContainsNoElements)).
Proof.
  repeat split; try reflexivity.
Qed.

(* ================================================================== *)
(** ** Reverse *)

Lemma Reverse_loop_out_of_range {T S : Type} (reverse : list T) (i : nat)
    (yield : Yield T S) (s : S) :
  nth_error reverse i = None ->
  Reverse_loop reverse i yield s = Panic "index out of range".
Proof.
  intros Hnone. destruct i; cbn -[nth_error]; now rewrite Hnone.
Qed.

(** C4 on the code: the second loop of Reverse starts at index
    [len(reverse)], one past the last element, so the first [reverse[i]]
    panics; on every finite source, the empty one included, traversing
    [Reverse()] panics before any element is yielded, whatever the
    consumer, and so does [Reverse().Reverse()]. *)
Theorem Reverse_panics :
  forall (T : Type) (l : list T),
    (forall (S : Type) (yield : Yield T S) (s : S),
        Iterator_Reverse (FromSlice l) S yield s = Panic "index out of range")
    /\ ToSlice (Iterator_Reverse (FromSlice l)) = Panic "index out of range"
    /\ ToSlice (Iterator_Reverse (Iterator_Reverse (FromSlice l)))
       = Panic "index out of range".
Proof.
  intros T l.
  assert (Hpanic : forall (S : Type) (yield : Yield T S) (s : S),
             Iterator_Reverse (FromSlice l) S yield s = Panic "index out of range").
  { intros S yield s. unfold Iterator_Reverse.
    rewrite collect_FromSlice. simpl.
    apply Reverse_loop_out_of_range. now apply nth_error_None. }
  split; [exact Hpanic|]. split.
  - apply Hpanic.
  - unfold ToSlice, Iterator_Reverse at 1. now rewrite Hpanic.
Qed.

(* ================================================================== *)
(** ** Except *)

(** C1 on the code: the nested loops of Except yield an element of the
    distinct left operand each time it EQUALS an element of the distinct
    right operand, so the documented example yields [1, 2], the
    intersection, where the documentation and the claim say [3]. *)
Theorem Except_yields_common_elements :
  ToSlice (Iterator_Except (FromSlice [1; 2; 3; 1; 2; 3]) (FromSlice [1; 2; 1; 1]) [])
  = Done [1; 2]
  /\ ToSlice (Iterator_Except (FromSlice [1; 2; 3; 1; 2; 3]) (FromSlice [1; 2; 1; 1])
                [Some Z.eqb])
     = Done [1; 2]
  /\ ToSlice (Iterator_Distinct (FromSlice [1; 2; 3; 1; 2; 3]) []) = Done [1; 2; 3]
  /\ ToSlice (Iterator_Distinct (FromSlice [1; 2; 1; 1]) []) = Done [1; 2].
Proof.
  repeat split; reflexivity.
Qed.

(* ================================================================== *)
(** ** TakeWhile and SkipWhile *)

Section StopCondition.
Context {T : Type}.
Variable p : T -> bool.

(** TakeWhile over a prefix on which [p] is false everywhere. *)
Lemma TakeWhile_prefix (l1 l : list T) (acc : list T) :
  (forall y, In y l1 -> p y = false) ->
  FromSlice (l1 ++ l) (list T)
    (fun item s => if p item then Done (s, false) else Done (s ++ [item], true)) acc
  = FromSlice l (list T)
      (fun item s => if p item then Done (s, false) else Done (s ++ [item], true)) (acc ++ l1).
Proof.
  revert acc. induction l1 as [|y l1 IH]; intros acc Hfalse; simpl.
  - now rewrite app_nil_r.
  - rewrite (Hfalse y) by now left. simpl.
    rewrite IH by (intros z Hz; apply Hfalse; now right).
    now rewrite <- app_assoc.
Qed.

(** The first loop of Concat under TakeWhile, over a prefix on which [p]
    is false everywhere. *)
Lemma Concat_TakeWhile_prefix (l1 l : list T) (acc : list T) (returned : bool) :
  (forall y, In y l1 -> p y = false) ->
  FromSlice (l1 ++ l) (list T * bool)%type
    (fun item '(s, _) =>
       '(s', continue) <-
          (if p item then Done (s, false) else Done (s ++ [item], true)) ;;
       Done ((s', negb continue), continue))
    (acc, returned)
  = FromSlice l (list T * bool)%type
      (fun item '(s, _) =>
         '(s', continue) <-
            (if p item then Done (s, false) else Done (s ++ [item], true)) ;;
         Done ((s', negb continue), continue))
      (acc ++ l1, match l1 with [] => returned | _ => false end).
Proof.
  revert acc returned. induction l1 as [|y l1 IH]; intros acc returned Hfalse; simpl.
  - now rewrite app_nil_r.
  - rewrite (Hfalse y) by now left. simpl.
    rewrite IH by (intros z Hz; apply Hfalse; now right).
    rewrite <- app_assoc. simpl. now destruct l1.
Qed.

(** SkipWhile once [skip] is false: every element is forwarded. *)
Lemma SkipWhile_forwarding (l acc : list T) :
  FromSlice l (bool * list T)%type
    (fun item '(skip, s) =>
       if skip && negb (p item) then Done ((skip, s), true)
       else '(s', continue) <- Done (s ++ [item], true) ;; Done ((false, s'), continue))
    (false, acc)
  = Done (false, acc ++ l).
Proof.
  revert acc. induction l as [|x l IH]; intros acc; simpl.
  - now rewrite app_nil_r.
  - rewrite IH, <- app_assoc. reflexivity.
Qed.

(** SkipWhile while [skip] is true, over a prefix on which [p] is false
    everywhere: nothing is forwarded. *)
Lemma SkipWhile_prefix (l1 l acc : list T) :
  (forall y, In y l1 -> p y = false) ->
  FromSlice (l1 ++ l) (bool * list T)%type
    (fun item '(skip, s) =>
       if skip && negb (p item) then Done ((skip, s), true)
       else '(s', continue) <- Done (s ++ [item], true) ;; Done ((false, s'), continue))
    (true, acc)
  = FromSlice l (bool * list T)%type
      (fun item '(skip, s) =>
         if skip && negb (p item) then Done ((skip, s), true)
         else '(s', continue) <- Done (s ++ [item], true) ;; Done ((false, s'), continue))
      (true, acc).
Proof.
  induction l1 as [|y l1 IH]; intros Hfalse; simpl.
  - reflexivity.
  - rewrite (Hfalse y) by now left. simpl.
    apply IH. intros z Hz. apply Hfalse. now right.
Qed.

(** SkipWhile at the first element on which [p] is true. *)
Lemma SkipWhile_first_match (x : T) (l acc : list T) :
  p x = true ->
  FromSlice (x :: l) (bool * list T)%type
    (fun item '(skip, s) =>
       if skip && negb (p item) then Done ((skip, s), true)
       else '(s', continue) <- Done (s ++ [item], true) ;; Done ((false, s'), continue))
    (true, acc)
  = Done (false, acc ++ x :: l).
Proof.
  intros Hx.
  replace (acc ++ x :: l) with ((acc ++ [x]) ++ l) by now rewrite <- app_assoc.
  rewrite <- (SkipWhile_forwarding l (acc ++ [x])).
  simpl. now rewrite Hx.
Qed.
End StopCondition.

(** SkipWhile at [p x := x % 3 == 0] on 1..7: the elements 1 and 2, on
    which [p] is false, are skipped and 3, the first on which [p] is true,
    is forwarded with everything after it.  Bypassing elements "as long as
    a specified condition is true", as the doc comment of SkipWhile has
    it, would forward all seven elements, [p] being false on the first. *)
Lemma SkipWhile_skips_while_false :
  ToSlice (Iterator_SkipWhile (FromSlice [1; 2; 3; 4; 5; 6; 7]) (fun x => x mod 3 =? 0))
  = Done [3; 4; 5; 6; 7]
  /\ ToSlice (Iterator_SkipWhile (FromSlice [1; 2; 3; 4; 5; 6; 7]) (fun x => x mod 3 =? 0))
     <> Done [1; 2; 3; 4; 5; 6; 7]
  /\ ToSlice (Iterator_SkipWhile (FromSlice [3; 6; 1]) (fun x => x mod 3 =? 0))
     = Done [3; 6; 1].
Proof.
  split; [reflexivity|]. split; [discriminate | reflexivity].
Qed.

(** C5 on the code: in both operators the predicate acts as a stop
    condition.  Let [p] be false on every element of [l1].
    - TakeWhile forwards all of [l1] when the source ends there; when the
      next element [x] satisfies [p], it forwards exactly [l1] and pulls
      nothing after [x]: whatever sequence [rest] is concatenated after
      [x], even one that panics when pulled, the result is [l1].
    - SkipWhile forwards nothing when the source ends after [l1]; when the
      next element [x] satisfies [p], it forwards [x] and every element
      after it, whatever [p] says about those.
    So SkipWhile skips while [p] is false ([skip && !predicate(item)]),
    where the claim and the doc comment of SkipWhile say it skips while
    [p] is true: on a source whose first element does not satisfy [p] the
    code skips it and the claim forwards everything. *)
Theorem TakeWhile_SkipWhile_stop_condition :
  forall (T : Type) (p : T -> bool) (l1 : list T),
    (forall y, In y l1 -> p y = false) ->
    ToSlice (Iterator_TakeWhile (FromSlice l1) p) = Done l1
    /\ ToSlice (Iterator_SkipWhile (FromSlice l1) p) = Done []
    /\ forall x, p x = true ->
         (forall rest : Iterator T,
             ToSlice (Iterator_TakeWhile
                        (Iterator_Concat (FromSlice (l1 ++ [x])) rest) p)
             = Done l1)
         /\ (forall l2,
               ToSlice (Iterator_TakeWhile (FromSlice (l1 ++ x :: l2)) p) = Done l1
               /\ ToSlice (Iterator_SkipWhile (FromSlice (l1 ++ x :: l2)) p)
                  = Done (x :: l2)).
Proof.
  intros T p l1 Hfalse.
  split; [|split].
  - pose proof (TakeWhile_prefix p l1 [] [] Hfalse) as Hloop.
    rewrite app_nil_r in Hloop. exact Hloop.
  - pose proof (SkipWhile_prefix p l1 [] [] Hfalse) as Hloop.
    rewrite app_nil_r in Hloop.
    unfold ToSlice, Iterator_SkipWhile. cbv beta.
    now rewrite Hloop.
  - intros x Hx. split.
    + intros rest. unfold ToSlice, Iterator_TakeWhile, Iterator_Concat.
      cbv beta.
      rewrite (Concat_TakeWhile_prefix p l1 [x] [] false Hfalse).
      simpl. now rewrite Hx.
    + intros l2. split.
      * unfold ToSlice, Iterator_TakeWhile. cbv beta.
        rewrite (TakeWhile_prefix p l1 (x :: l2) [] Hfalse).
        simpl. now rewrite Hx.
      * unfold ToSlice, Iterator_SkipWhile. cbv beta.
        rewrite (SkipWhile_prefix p l1 (x :: l2) [] Hfalse).
        now rewrite (SkipWhile_first_match p x l2 [] Hx).
Qed.

Lemma TakeWhile_SkipWhile_stop_condition_witness :
  (forall y, In y [1; 2] -> (fun x => x mod 3 =? 0) y = false)
  /\ ToSlice (Iterator_TakeWhile
                (Iterator_Concat (FromSlice ([1; 2] ++ [3]))
                   (Iterator_Reverse (FromSlice [4; 5; 6; 7])))
                (fun x => x mod 3 =? 0))
     = Done [1; 2]
  /\ ToSlice (Iterator_SkipWhile (FromSlice ([1; 2] ++ 3 :: [4; 5; 6; 7]))
                (fun x => x mod 3 =? 0))
     = Done [3; 4; 5; 6; 7].
Proof.
  assert (Hfalse : forall y, In y [1; 2] -> (fun x => x mod 3 =? 0) y = false).
  { intros y [<-|[<-|[]]]; reflexivity. }
  split; [exact Hfalse|].
  destruct (TakeWhile_SkipWhile_stop_condition Z (fun x => x mod 3 =? 0) [1; 2] Hfalse)
    as (_ & _ & Hstop).
  destruct (Hstop 3 eq_refl) as [Hrest Htail].
  split; [apply Hrest | apply Htail].
Defined.

(* ================================================================== *)
(** ** SequenceEqual *)

Section Pairwise.
Context {T : Type}.
Variable eq : T -> T -> bool.

(** The loop of [Pull_next] over a slice. *)
Lemma Pull_loop (b : list T) (n : nat) :
  FromSlice b (nat * option T)%type
    (fun item '(k, found) =>
       match k with
       | O => Done ((O, Some item), false)
       | Datatypes.S k' => Done ((k', found), true)
       end)
    (n, None)
  = Done (match nth_error b n with
          | Some x => (O, Some x)
          | None => ((n - List.length b)%nat, None)
          end).
Proof.
  revert n. induction b as [|y b IH]; intros n; simpl.
  - destruct n; reflexivity.
  - destruct n as [|n]; simpl; [reflexivity | apply IH].
Qed.

Lemma nth_error_skipn (b : list T) (n : nat) :
  nth_error b n = hd_error (skipn n b).
Proof.
  revert n. induction b as [|y b IH]; intros [|n]; simpl; auto.
Qed.

Lemma skipn_S_tail (b : list T) (n : nat) {y : T} {rest : list T} :
  skipn n b = y :: rest -> skipn (Datatypes.S n) b = rest.
Proof.
  revert n. induction b as [|z b IH]; intros [|n]; simpl; try discriminate.
  - now intros [= _ ->].
  - apply IH.
Qed.

Lemma compare_loop (a b : list T) (calls : nat) :
  '(calls', ret) <- FromSlice a (nat * option bool)%type (compare_step eq b) (calls, None) ;;
  match ret with
  | Some result => Done result
  | None =>
      match nth_error b calls' with
      | None => Done true
      | Some _ => Done false
      end
  end
  = Done (pairwiseEqual eq a (skipn calls b)).
Proof.
  revert calls. induction a as [|x a IH]; intros calls.
  - simpl. rewrite nth_error_skipn. now destruct (skipn calls b).
  - cbn [FromSlice compare_step]. rewrite nth_error_skipn.
    destruct (skipn calls b) as [|y rest] eqn:Hskip; simpl; [reflexivity|].
    destruct (eq x y); simpl; [|reflexivity].
    rewrite IH. now rewrite (skipn_S_tail b calls Hskip).
Qed.

Lemma pairwiseEqual_Forall2 (a b : list T) :
  pairwiseEqual eq a b = true <-> Forall2 (fun x y => eq x y = true) a b.
Proof.
  revert b. induction a as [|x a IH]; intros [|y b]; simpl.
  - split; [constructor | reflexivity].
  - split; [discriminate | inversion 1].
  - split; [discriminate | inversion 1].
  - rewrite andb_true_iff, IH. split.
    + intros [Hxy Hab]. now constructor.
    + inversion 1; subst. now split.
Qed.

Lemma pairwiseEqual_refl (s : list T) :
  (forall x, In x s -> eq x x = true) -> pairwiseEqual eq s s = true.
Proof.
  induction s as [|x s IH]; intros Hrefl; simpl; [reflexivity|].
  rewrite (Hrefl x) by now left. apply IH. intros y Hy. apply Hrefl. now right.
Qed.
End Pairwise.

Lemma Pull_next_FromSlice {T : Type} `{GoType T} (b : list T) (n : nat) :
  Pull_next (FromSlice b) n = Done (nth_error b n).
Proof.
  unfold Pull_next. rewrite Pull_loop. simpl. now destruct (nth_error b n).
Qed.

Lemma SequenceEqual_loop_FromSlice {T : Type} `{GoType T} (eq : T -> T -> bool)
    (a b : list T) :
  SequenceEqual_loop eq (FromSlice a) (FromSlice b) = Done (pairwiseEqual eq a b).
Proof.
  unfold SequenceEqual_loop.
  rewrite (FromSlice_ext _ (compare_step eq b)).
  2:{ intros item1 [calls ret]. rewrite Pull_next_FromSlice. reflexivity. }
  pose proof (compare_loop eq a b 0) as Hloop. simpl skipn in Hloop. rewrite <- Hloop.
  destruct (FromSlice a (nat * option bool)%type (compare_step eq b) (0%nat, None))
    as [[calls ret]|msg]; simpl; [|reflexivity].
  destruct ret; [reflexivity|].
  rewrite Pull_next_FromSlice. reflexivity.
Qed.

(** C9, as stated, fails for a sequence against itself: the elements are
    compared with the resolved equality and nothing else, so with a
    comparer under which an element is not equal to itself, here [x < y],
    SequenceEqual of [1, 2, 3] and [1, 2, 3] returns false at the first
    pair. *)
Lemma SequenceEqual_same_sequence_false :
  Iterator_SequenceEqual (FromSlice [1; 2; 3]) (FromSlice [1; 2; 3]) [Some Z.ltb]
  = Done false
  /\ Iterator_SequenceEqual (FromSlice [1; 2; 3]) (FromSlice [1; 2; 3]) [Some Z.ltb]
     <> Done true
  /\ resolvedEquality [Some Z.ltb] 1 1 = false.
Proof.
  split; [reflexivity|]. split; [discriminate | reflexivity].
Qed.

(** C9 (amended): on slices [a] and [b], SequenceEqual returns normally,
    and returns true exactly when [a] and [b] have the same length and are
    equal position by position under the resolved equality (the comparer
    when one that is not nil is passed, else the element type's [Equal]
    called on the element of [a], else [reflect.DeepEqual]).  So it is
    false whenever the lengths differ, and true on [s], [s] as soon as
    every element of [s] equals itself under the resolved equality, as is
    the case of every sequence of [int] or of [string] under the default
    equality. *)
Theorem SequenceEqual_pairwise :
  (forall (T : Type) (G : GoType T) (comparer : list (option (T -> T -> bool)))
          (a b : list T),
      Iterator_SequenceEqual (FromSlice a) (FromSlice b) comparer
      = Done (pairwiseEqual (resolvedEquality comparer) a b)
      /\ (Iterator_SequenceEqual (FromSlice a) (FromSlice b) comparer = Done true
          <-> Forall2 (fun x y => resolvedEquality comparer x y = true) a b)
      /\ (List.length a <> List.length b ->
          Iterator_SequenceEqual (FromSlice a) (FromSlice b) comparer = Done false)
      /\ ((forall x, In x a -> resolvedEquality comparer x x = true) ->
          Iterator_SequenceEqual (FromSlice a) (FromSlice a) comparer = Done true))
  /\ (forall s : list Z,
         Iterator_SequenceEqual (FromSlice s) (FromSlice s) [] = Done true)
  /\ (forall s : list string,
         Iterator_SequenceEqual (FromSlice s) (FromSlice s) [] = Done true).
Proof.
  assert (Heval : forall (T : Type) (G : GoType T) comparer (a b : list T),
             Iterator_SequenceEqual (FromSlice a) (FromSlice b) comparer
             = Done (pairwiseEqual (resolvedEquality comparer) a b)).
  { intros T G comparer a b. unfold Iterator_SequenceEqual, resolvedEquality.
    destruct comparer as [|[c|] more]; rewrite SequenceEqual_loop_FromSlice;
      try reflexivity; now destruct IEquatable. }
  split; [|split].
  - intros T G comparer a b.
    split; [apply Heval|]. split; [|split].
    + rewrite Heval. rewrite <- pairwiseEqual_Forall2.
      split; [now intros [= ->] | now intros ->].
    + intros Hlen. rewrite Heval. f_equal.
      destruct (pairwiseEqual (resolvedEquality comparer) a b) eqn:Hpair; [|reflexivity].
      apply pairwiseEqual_Forall2 in Hpair.
      exfalso. apply Hlen. eapply Forall2_length; eassumption.
    + intros Hrefl. rewrite Heval. f_equal. now apply pairwiseEqual_refl.
  - intros s. rewrite Heval. f_equal. apply pairwiseEqual_refl.
    intros x _. apply Z.eqb_refl.
  - intros s. rewrite Heval. f_equal. apply pairwiseEqual_refl.
    intros x _. apply String.eqb_refl.
Qed.

Lemma SequenceEqual_pairwise_witness :
  List.length [1; 2; 3] <> List.length [1; 2]
  /\ Iterator_SequenceEqual (FromSlice [1; 2; 3]) (FromSlice [1; 2]) [] = Done false
  /\ (forall x, In x [1; 2; 3] -> resolvedEquality [] x x = true)
  /\ Iterator_SequenceEqual (FromSlice [1; 2; 3]) (FromSlice [1; 2; 3]) [] = Done true.
Proof.
  assert (Hlen : List.length [1; 2; 3] <> List.length [1; 2]) by discriminate.
  assert (Hrefl : forall x, In x [1; 2; 3] -> resolvedEquality [] x x = true).
  { intros x [<-|[<-|[<-|[]]]]; reflexivity. }
  destruct SequenceEqual_pairwise as [Hgeneral _].
  destruct (Hgeneral Z _ [] [1; 2; 3] [1; 2]) as (_ & _ & Hdiffer & Hsame).
  split; [exact Hlen|]. split; [exact (Hdiffer Hlen)|].
  split; [exact Hrefl | exact (Hsame Hrefl)].
Defined.

(* ================================================================== *)
(** ** Order and OrderBy *)

Section Sorting.
Context {E : Type}.
Variable cmp : E -> E -> Z.
Hypothesis cmp_swo : StrictWeakOrdering cmp.

Lemma swo_asymmetric (x y : E) : cmp x y < 0 -> ~ cmp y x < 0.
Proof.
  intros Hxy Hyx.
  apply (swo_irreflexive cmp_swo x).
  exact (swo_transitive cmp_swo x y x Hxy Hyx).
Qed.

Lemma insertSorted_Permutation (x : E) (l : list E) :
  Permutation (x :: l) (insertSorted cmp x l).
Proof.
  induction l as [|y l IH]; simpl.
  - reflexivity.
  - destruct (cmp y x <? 0); [|reflexivity].
    rewrite perm_swap. now constructor.
Qed.

Lemma insertSorted_nonDecreasing (x : E) (l : list E) :
  nonDecreasing cmp l -> nonDecreasing cmp (insertSorted cmp x l).
Proof.
  unfold nonDecreasing.
  induction l as [|y l IH]; intros Hsorted; simpl.
  - constructor; constructor.
  - inversion Hsorted as [|? ? Htail Hhead]; subst.
    destruct (cmp y x <? 0) eqn:Hyx.
    + apply Z.ltb_lt in Hyx. constructor; [now apply IH|].
      apply Forall_forall. intros z Hz.
      apply (Permutation_in z (Permutation_sym (insertSorted_Permutation x l))) in Hz.
      destruct Hz as [<-|Hz].
      * now apply swo_asymmetric.
      * rewrite Forall_forall in Hhead. now apply Hhead.
    + apply Z.ltb_ge in Hyx. constructor; [assumption|].
      constructor; [lia|].
      apply Forall_forall. intros z Hz.
      rewrite Forall_forall in Hhead.
      apply (swo_negatively_transitive cmp_swo z y x); [now apply Hhead | lia].
Qed.

Lemma insertSortedLast_Permutation (x : E) (l : list E) :
  Permutation (x :: l) (insertSortedLast cmp x l).
Proof.
  induction l as [|y l IH]; simpl.
  - reflexivity.
  - destruct (cmp x y <? 0); [reflexivity|].
    rewrite perm_swap. now constructor.
Qed.

Lemma insertSortedLast_nonDecreasing (x : E) (l : list E) :
  nonDecreasing cmp l -> nonDecreasing cmp (insertSortedLast cmp x l).
Proof.
  unfold nonDecreasing.
  induction l as [|y l IH]; intros Hsorted; simpl.
  - constructor; constructor.
  - inversion Hsorted as [|? ? Htail Hhead]; subst.
    rewrite Forall_forall in Hhead.
    destruct (cmp x y <? 0) eqn:Hxy.
    + apply Z.ltb_lt in Hxy. constructor; [assumption|].
      constructor; [now apply swo_asymmetric|].
      apply Forall_forall. intros z Hz Hzx.
      apply (Hhead z Hz). exact (swo_transitive cmp_swo z x y Hzx Hxy).
    + apply Z.ltb_ge in Hxy. constructor; [now apply IH|].
      apply Forall_forall. intros z Hz.
      apply (Permutation_in z (Permutation_sym (insertSortedLast_Permutation x l))) in Hz.
      destruct Hz as [<-|Hz]; [lia | now apply Hhead].
Qed.

Lemma insertionSortLast_meets_contract (l : list E) :
  Permutation l (insertionSortLast E cmp l)
  /\ nonDecreasing cmp (insertionSortLast E cmp l).
Proof.
  induction l as [|x l [IHperm IHsorted]]; simpl.
  - split; [reflexivity | constructor].
  - split.
    + etransitivity; [|apply insertSortedLast_Permutation]. now constructor.
    + now apply insertSortedLast_nonDecreasing.
Qed.

Lemma insertionSort_meets_contract (l : list E) :
  Permutation l (insertionSort E cmp l) /\ nonDecreasing cmp (insertionSort E cmp l).
Proof.
  induction l as [|x l [IHperm IHsorted]]; simpl.
  - split; [reflexivity | constructor].
  - split.
    + etransitivity; [|apply insertSorted_Permutation]. now constructor.
    + now apply insertSorted_nonDecreasing.
Qed.
End Sorting.

Lemma insertionSort_contract : SortFunc_contract insertionSort.
Proof.
  intros E cmp x Hswo. now apply insertionSort_meets_contract.
Qed.

Lemma insertionSortLast_contract : SortFunc_contract insertionSortLast.
Proof.
  intros E cmp x Hswo. now apply insertionSortLast_meets_contract.
Qed.

Lemma cmp_Compare_int_swo : StrictWeakOrdering cmp_Compare_int.
Proof.
  split; unfold cmp_Compare_int.
  - intros x. rewrite Z.ltb_irrefl. lia.
  - intros x y z.
    destruct (x <? y) eqn:Hxy, (y <? z) eqn:Hyz, (x <? z) eqn:Hxz,
             (y <? x) eqn:Hx, (z <? y) eqn:Hy; lia.
  - intros x y z.
    destruct (x <? y) eqn:Hxy, (y <? z) eqn:Hyz, (x <? z) eqn:Hxz,
             (y <? x) eqn:Hx, (z <? y) eqn:Hy, (z <? x) eqn:Hz; lia.
Qed.

(** A strict weak ordering of the keys orders the pairs that carry them. *)
Lemma swo_on_keys {T V : Type} (key : T -> V) (c : V -> V -> Z) :
  StrictWeakOrdering c -> StrictWeakOrdering (fun x y => c (key x) (key y)).
Proof.
  intros [Hirr Htrans Hneg]. split.
  - intros x. apply Hirr.
  - intros x y z. apply Htrans.
  - intros x y z. apply Hneg.
Qed.

Lemma nonDecreasing_map {A B : Type} (f : A -> B) (c : B -> B -> Z) (l : list A) :
  nonDecreasing (fun x y => c (f x) (f y)) l -> nonDecreasing c (map f l).
Proof.
  unfold nonDecreasing. induction 1 as [|x l Htail IH Hhead]; simpl.
  - constructor.
  - constructor; [assumption|]. rewrite Forall_map. exact Hhead.
Qed.

(** The pairs OrderBy builds, and what is read back from them. *)
Lemma collect_pairs {T V : Type} (key : T -> V) (l : list T) :
  FromSlice l (list (ValuePair T V))
    (fun item result => Done (result ++ [mkValuePair item (key item)], true)) []
  = Done (map (fun item => mkValuePair item (key item)) l).
Proof.
  rewrite (FromSlice_fold (fun item result => result ++ [mkValuePair item (key item)])).
  assert (Hgen : forall acc,
             fold_left (fun result item => result ++ [mkValuePair item (key item)]) l acc
             = acc ++ map (fun item => mkValuePair item (key item)) l).
  { induction l as [|x l IH]; intros acc; simpl.
    - now rewrite app_nil_r.
    - rewrite IH, <- app_assoc. reflexivity. }
  now rewrite Hgen.
Qed.

(** Sorted by the carried key, the pairs are sorted by the key of the
    element they carry. *)
Lemma nonDecreasing_carried_keys {T V : Type} (key : T -> V) (c : V -> V -> Z)
    (pairs : list (ValuePair T V)) :
  (forall pair, In pair pairs -> Item2 pair = key (Item1 pair)) ->
  nonDecreasing (fun x y => c (Item2 x) (Item2 y)) pairs ->
  nonDecreasing (fun x y => c (key x) (key y)) (map Item1 pairs).
Proof.
  intros Hkeys Hsorted. apply nonDecreasing_map.
  unfold nonDecreasing in *.
  induction Hsorted as [|pair rest Htail IH Hhead]; [constructor|].
  constructor.
  - apply IH. intros p Hp. apply Hkeys. now right.
  - rewrite Forall_forall in *. intros p Hp.
    rewrite <- (Hkeys p) by now right.
    rewrite <- (Hkeys pair) by now left.
    now apply Hhead.
Qed.

(* ================================================================== *)
(** ** The runtime's sort only exchanges elements *)

Section PdqsortPermutation.
Variable xorshift_Next : Z -> Z.
Context {E : Type}.
Variable cmp : E -> E -> Z.

Lemma set_index_Permutation (l : list E) (j : nat) (d y : E) :
  nth_error l j = Some y -> Permutation (d :: l) (y :: set_index l j d).
Proof.
  revert j. induction l as [|z l IH]; intros [|j] Hy; simpl in *; try discriminate.
  - injection Hy as ->. apply perm_swap.
  - transitivity (z :: d :: l); [apply perm_swap|].
    transitivity (z :: y :: set_index l j d); [|apply perm_swap].
    constructor. now apply IH.
Qed.

Lemma swap_Permutation (data : list E) (i j : nat) :
  Permutation data (swap data i j).
Proof.
  unfold swap.
  destruct (nth_error data i) as [x|] eqn:Hx; [|reflexivity].
  destruct (nth_error data j) as [y|] eqn:Hy; [|reflexivity].
  revert i j Hx Hy. induction data as [|d rest IH]; intros [|i] [|j] Hx Hy;
    simpl in *; try discriminate.
  - injection Hx as ->. injection Hy as ->. reflexivity.
  - injection Hx as ->. now apply set_index_Permutation.
  - injection Hy as ->. now apply set_index_Permutation.
  - constructor. now apply IH.
Qed.

Lemma fold_left_Permutation {A : Type} (f : list E -> A -> list E) (l : list A)
    (data : list E) :
  (forall data a, Permutation data (f data a)) ->
  Permutation data (fold_left f l data).
Proof.
  intros Hf. revert data. induction l as [|a l IH]; intros data; simpl.
  - reflexivity.
  - etransitivity; [apply (Hf data a) | apply IH].
Qed.

Lemma insertionSort_shift_Permutation (data : list E) (a j : nat) :
  Permutation data (insertionSort_shift cmp data a j).
Proof.
  revert data. induction j as [|j IH]; intros data; simpl; [reflexivity|].
  destruct (_ && _); [|reflexivity].
  etransitivity; [apply swap_Permutation | apply IH].
Qed.

Lemma insertionSortCmpFunc_Permutation (data : list E) (a b : nat) :
  Permutation data (insertionSortCmpFunc cmp data a b).
Proof.
  unfold insertionSortCmpFunc. apply fold_left_Permutation.
  intros. apply insertionSort_shift_Permutation.
Qed.

Lemma siftDown_loop_Permutation (turns : nat) (data : list E) (root hi first : nat) :
  Permutation data (siftDown_loop cmp turns data root hi first).
Proof.
  revert data root. induction turns as [|turns IH]; intros data root; simpl;
    [reflexivity|].
  destruct (hi <=? _)%nat; [reflexivity|].
  destruct (negb _); [reflexivity|].
  etransitivity; [apply swap_Permutation | apply IH].
Qed.

Lemma heapSortCmpFunc_Permutation (data : list E) (a b : nat) :
  Permutation data (heapSortCmpFunc cmp data a b).
Proof.
  unfold heapSortCmpFunc, siftDownCmpFunc.
  etransitivity; [|apply fold_left_Permutation].
  - apply fold_left_Permutation. intros. apply siftDown_loop_Permutation.
  - intros d i.
    etransitivity; [apply swap_Permutation | apply siftDown_loop_Permutation].
Qed.

Lemma partition_loop_Permutation (turns : nat) (data : list E) (a i j : nat) :
  Permutation data (fst (partition_loop cmp turns data a i j)).
Proof.
  revert data i j. induction turns as [|turns IH]; intros data i j; simpl;
    [reflexivity|].
  destruct (_ <? _)%nat; [reflexivity|].
  etransitivity; [apply swap_Permutation | apply IH].
Qed.

Lemma partitionCmpFunc_Permutation (data : list E) (a b pivot : nat) :
  Permutation data (fst (fst (partitionCmpFunc cmp data a b pivot))).
Proof.
  unfold partitionCmpFunc.
  destruct (_ <? _)%nat; simpl.
  - etransitivity; apply swap_Permutation.
  - match goal with
    | |- context [partition_loop cmp ?t ?d ?a ?i ?j] =>
        pose proof (partition_loop_Permutation t d a i j) as Hloop;
        destruct (partition_loop cmp t d a i j) as [data' j']
    end.
    simpl in *.
    etransitivity; [apply swap_Permutation|].
    etransitivity; [apply swap_Permutation|].
    etransitivity; [exact Hloop | apply swap_Permutation].
Qed.

Lemma partitionEqual_loop_Permutation (turns : nat) (data : list E) (a i j : nat) :
  Permutation data (fst (partitionEqual_loop cmp turns data a i j)).
Proof.
  revert data i j. induction turns as [|turns IH]; intros data i j; simpl;
    [reflexivity|].
  destruct (_ <? _)%nat; [reflexivity|].
  etransitivity; [apply swap_Permutation | apply IH].
Qed.

Lemma partitionEqualCmpFunc_Permutation (data : list E) (a b pivot : nat) :
  Permutation data (fst (partitionEqualCmpFunc cmp data a b pivot)).
Proof.
  unfold partitionEqualCmpFunc.
  etransitivity; [apply swap_Permutation | apply partitionEqual_loop_Permutation].
Qed.

Lemma shift_left_Permutation (data : list E) (j : nat) :
  Permutation data (shift_left cmp data j).
Proof.
  revert data. induction j as [|j IH]; intros data; simpl; [reflexivity|].
  destruct (negb _); [reflexivity|].
  etransitivity; [apply swap_Permutation | apply IH].
Qed.

Lemma shift_right_Permutation (turns : nat) (data : list E) (j b : nat) :
  Permutation data (shift_right cmp turns data j b).
Proof.
  revert data j. induction turns as [|turns IH]; intros data j; simpl; [reflexivity|].
  destruct (_ <? _)%nat; [|reflexivity].
  destruct (negb _); [reflexivity|].
  etransitivity; [apply swap_Permutation | apply IH].
Qed.

Lemma partialInsertionSort_loop_Permutation (steps : nat) (data : list E) (a b i : nat) :
  Permutation data (fst (partialInsertionSort_loop cmp steps data a b i)).
Proof.
  revert data i. induction steps as [|steps IH]; intros data i; simpl; [reflexivity|].
  destruct (_ =? _)%nat; [reflexivity|].
  destruct (_ <? _)%nat; [reflexivity|].
  etransitivity; [|apply IH].
  repeat match goal with
         | |- context [if ?c then _ else _] => destruct c
         end;
    repeat first
      [ apply swap_Permutation
      | etransitivity; [|apply shift_right_Permutation]
      | etransitivity; [|apply shift_left_Permutation] ].
Qed.

Lemma breakPatterns_loop_Permutation (idx a length : nat) (modulus random : Z)
    (rounds : list nat) (data : list E) :
  Permutation data
    (breakPatterns_loop xorshift_Next idx a length modulus random rounds data).
Proof.
  revert random data. induction rounds as [|i rounds IH]; intros random data; simpl;
    [reflexivity|].
  etransitivity; [apply swap_Permutation | apply IH].
Qed.

Lemma breakPatternsCmpFunc_Permutation (data : list E) (a b : nat) :
  Permutation data (breakPatternsCmpFunc xorshift_Next data a b).
Proof.
  unfold breakPatternsCmpFunc.
  destruct (8 <=? _)%nat; [apply breakPatterns_loop_Permutation | reflexivity].
Qed.

Lemma reverseRange_loop_Permutation (turns : nat) (data : list E) (i j : nat) :
  Permutation data (reverseRange_loop turns data i j).
Proof.
  revert data i j. induction turns as [|turns IH]; intros data i j; simpl;
    [reflexivity|].
  destruct (_ <? _)%nat; [|reflexivity].
  etransitivity; [apply swap_Permutation | apply IH].
Qed.

Lemma reverseRangeCmpFunc_Permutation (data : list E) (a b : nat) :
  Permutation data (reverseRangeCmpFunc data a b).
Proof. apply reverseRange_loop_Permutation. Qed.

Lemma partialInsertionSortCmpFunc_Permutation (data : list E) (a b : nat) :
  Permutation data (fst (partialInsertionSortCmpFunc cmp data a b)).
Proof. apply partialInsertionSort_loop_Permutation. Qed.

(** One step through the body of [pdqsortCmpFunc]: split on the test or
    on the tuple at the head of the equation [H]. *)
Ltac pdqsort_step H :=
  lazymatch type of H with
  | Some _ = Some _ => injection H as <-
  | None = Some _ => discriminate H
  | (if ?c then _ else _) = _ => destruct c eqn:?
  | (match (if ?c then _ else _) with pair _ _ => _ end) = _ => destruct c eqn:?
  | (match ?e with pair _ _ => _ end) = _ => destruct e eqn:?
  | (match ?e with Some _ => _ | None => _ end) = _ => destruct e eqn:?
  end.

(** Turn the equations left by the steps into permutation facts. *)
Ltac pdqsort_facts IH :=
  repeat match goal with
         | H : partitionCmpFunc cmp ?d ?a ?b ?p = _ |- _ =>
             let P := fresh "Hperm" in
             pose proof (partitionCmpFunc_Permutation d a b p) as P;
             rewrite H in P; simpl in P; clear H
         | H : partitionEqualCmpFunc cmp ?d ?a ?b ?p = _ |- _ =>
             let P := fresh "Hperm" in
             pose proof (partitionEqualCmpFunc_Permutation d a b p) as P;
             rewrite H in P; simpl in P; clear H
         | H : partialInsertionSortCmpFunc cmp ?d ?a ?b = _ |- _ =>
             let P := fresh "Hperm" in
             pose proof (partialInsertionSortCmpFunc_Permutation d a b) as P;
             rewrite H in P; simpl in P; clear H
         | H : pdqsortCmpFunc _ _ _ _ _ _ _ _ _ = Some _ |- _ => apply IH in H
         end.

(** Chain the permutation facts back to the slice the call received. *)
Ltac pdqsort_chain :=
  repeat first
    [ reflexivity
    | apply insertionSortCmpFunc_Permutation
    | apply heapSortCmpFunc_Permutation
    | apply breakPatternsCmpFunc_Permutation
    | apply reverseRangeCmpFunc_Permutation
    | etransitivity; [|eassumption]
    | etransitivity; [|apply insertionSortCmpFunc_Permutation]
    | etransitivity; [|apply heapSortCmpFunc_Permutation]
    | etransitivity; [|apply reverseRangeCmpFunc_Permutation]
    | etransitivity; [|apply breakPatternsCmpFunc_Permutation] ].

Lemma pdqsortCmpFunc_Permutation (fuel : nat) :
  forall (data : list E) (a b limit : nat) (wasBalanced wasPartitioned : bool)
         (sorted : list E),
    pdqsortCmpFunc xorshift_Next cmp fuel data a b limit wasBalanced wasPartitioned
    = Some sorted ->
    Permutation data sorted.
Proof.
  induction fuel as [|fuel IH]; intros data a b limit wasBalanced wasPartitioned sorted H.
  - discriminate H.
  - cbn [pdqsortCmpFunc] in H.
    repeat pdqsort_step H; pdqsort_facts IH; pdqsort_chain.
Qed.

Lemma slices_SortFunc_Permutation (x : list E) :
  Permutation x (slices_SortFunc xorshift_Next cmp x).
Proof.
  unfold slices_SortFunc, slices_SortFunc_run.
  destruct (pdqsortCmpFunc _ _ _ _ _ _ _ _ _) as [sorted|] eqn:Hrun; [|reflexivity].
  eapply pdqsortCmpFunc_Permutation; eassumption.
Qed.

(** *** The fuel of the model suffices *)

Lemma scan_up_ge (turns : nat) (test : nat -> bool) (i j : nat) :
  (i <= scan_up turns test i j)%nat.
Proof.
  revert i. induction turns as [|turns IH]; intros i; simpl; [lia|].
  destruct (_ && _); [|lia].
  specialize (IH (i + 1)%nat). lia.
Qed.

Lemma scan_down_bounds (turns : nat) (test : nat -> bool) (i j a : nat) :
  (a < i)%nat -> (a <= j)%nat ->
  (a <= scan_down turns test i j <= j)%nat.
Proof.
  revert j. induction turns as [|turns IH]; intros j Hi Hj; simpl; [lia|].
  destruct (i <=? j)%nat eqn:Hij; simpl; [|lia].
  apply Nat.leb_le in Hij.
  destruct (test j); [|lia].
  specialize (IH (j - 1)%nat Hi). lia.
Qed.

Lemma partition_loop_bounds (turns : nat) (data : list E) (a i j : nat) :
  (a < i)%nat -> (a <= j)%nat ->
  (a <= snd (partition_loop cmp turns data a i j) <= j)%nat.
Proof.
  revert data i j. induction turns as [|turns IH]; intros data i j Hi Hj; simpl; [lia|].
  set (i1 := scan_up (j + 1 - i) (fun i0 => less cmp data i0 a) i j).
  set (j1 := scan_down (j + 1 - i1) (fun j0 => negb (less cmp data j0 a)) i1 j).
  assert (Hi1 : (a < i1)%nat).
  { pose proof (scan_up_ge (j + 1 - i) (fun i0 => less cmp data i0 a) i j).
    fold i1 in H. lia. }
  assert (Hj1 : (a <= j1 <= j)%nat) by now apply scan_down_bounds.
  destruct (j1 <? i1)%nat eqn:Hlt; simpl; [lia|].
  apply Nat.ltb_ge in Hlt.
  specialize (IH (swap data i1 j1) (i1 + 1)%nat (j1 - 1)%nat). lia.
Qed.

Lemma partitionCmpFunc_bounds (data : list E) (a b pivot : nat) :
  (a < b)%nat ->
  (a <= snd (fst (partitionCmpFunc cmp data a b pivot)) < b)%nat.
Proof.
  intros Hab. unfold partitionCmpFunc.
  set (d := swap data a pivot).
  set (i1 := scan_up (b - 1 + 1 - (a + 1)) (fun i0 => less cmp d i0 a) (a + 1) (b - 1)).
  set (j1 := scan_down (b - 1 + 1 - i1) (fun j0 => negb (less cmp d j0 a)) i1 (b - 1)).
  assert (Hi1 : (a < i1)%nat).
  { pose proof (scan_up_ge (b - 1 + 1 - (a + 1)) (fun i0 => less cmp d i0 a)
                  (a + 1) (b - 1)).
    fold i1 in H. lia. }
  assert (Hj1 : (a <= j1 <= b - 1)%nat) by (apply scan_down_bounds; lia).
  destruct (j1 <? i1)%nat eqn:Hlt; simpl; [lia|].
  apply Nat.ltb_ge in Hlt.
  pose proof (partition_loop_bounds (b - a) (swap d i1 j1) a (i1 + 1) (j1 - 1)) as Hloop.
  destruct (partition_loop cmp (b - a) (swap d i1 j1) a (i1 + 1) (j1 - 1)) as [d' j'].
  simpl in *. lia.
Qed.

Lemma partitionEqual_loop_ge (turns : nat) (data : list E) (a i j : nat) :
  (i <= snd (partitionEqual_loop cmp turns data a i j))%nat.
Proof.
  revert data i j. induction turns as [|turns IH]; intros data i j; simpl; [lia|].
  set (i1 := scan_up (j + 1 - i) (fun i0 => negb (less cmp data a i0)) i j).
  pose proof (scan_up_ge (j + 1 - i) (fun i0 => negb (less cmp data a i0)) i j) as Hi1.
  fold i1 in Hi1.
  destruct (_ <? i1)%nat; simpl; [lia|].
  match goal with
  | |- context [partitionEqual_loop cmp turns ?d a ?i' ?j'] =>
      specialize (IH d i' j')
  end.
  lia.
Qed.

Lemma partitionEqualCmpFunc_gt (data : list E) (a b pivot : nat) :
  (a < snd (partitionEqualCmpFunc cmp data a b pivot))%nat.
Proof.
  unfold partitionEqualCmpFunc.
  pose proof (partitionEqual_loop_ge (b - a) (swap data a pivot) a (a + 1) (b - 1)).
  lia.
Qed.

(** Every loop iteration and every recursive call of [pdqsortCmpFunc]
    works on a strictly shorter range: with more fuel than the length of
    the range the run ends. *)
Lemma pdqsortCmpFunc_terminates (fuel : nat) :
  forall (data : list E) (a b limit : nat) (wasBalanced wasPartitioned : bool),
    (b - a < fuel)%nat ->
    pdqsortCmpFunc xorshift_Next cmp fuel data a b limit wasBalanced wasPartitioned
    <> None.
Proof.
  induction fuel as [|fuel IH]; intros data a b limit wasBalanced wasPartitioned Hfuel H;
    [lia|].
  cbn [pdqsortCmpFunc] in H.
  destruct (b - a <=? 12)%nat eqn:Hlen; [discriminate H|].
  apply Nat.leb_gt in Hlen.
  repeat lazymatch type of H with
         | Some _ = None => discriminate H
         | (if ?c then _ else _) = _ => destruct c eqn:?
         | (match (if ?c then _ else _) with pair _ _ => _ end) = _ => destruct c eqn:?
         | (match ?e with pair _ _ => _ end) = _ => destruct e eqn:?
         | (match ?e with Some _ => _ | None => _ end) = _ => destruct e eqn:?
         end;
    repeat match goal with
           | Hp : partitionCmpFunc cmp ?d a b ?p = _ |- _ =>
               let B := fresh "Hbound" in
               pose proof (partitionCmpFunc_bounds d a b p ltac:(lia)) as B;
               rewrite Hp in B; simpl in B; clear Hp
           | Hp : partitionEqualCmpFunc cmp ?d a b ?p = _ |- _ =>
               let B := fresh "Hbound" in
               pose proof (partitionEqualCmpFunc_gt d a b p) as B;
               rewrite Hp in B; simpl in B; clear Hp
           end;
    match goal with
    | Hnone : pdqsortCmpFunc _ _ fuel _ _ _ _ _ _ = None |- _ =>
        revert Hnone; apply IH; lia
    end.
Qed.

Lemma slices_SortFunc_run_returns (x : list E) :
  slices_SortFunc_run xorshift_Next cmp x = Some (slices_SortFunc xorshift_Next cmp x).
Proof.
  unfold slices_SortFunc.
  destruct (slices_SortFunc_run xorshift_Next cmp x) as [sorted|] eqn:Hrun;
    [reflexivity|].
  exfalso. revert Hrun. unfold slices_SortFunc_run.
  apply pdqsortCmpFunc_terminates. lia.
Qed.
End PdqsortPermutation.

(** C2, as stated, fails: sorted with the sort of the Go runtime, OrderBy
    on thirteen elements (identity tag, key), twelve with key 1 followed by
    one with key 0, brings the elements with key 1 out as tags
    6, 2, 3, 4, 5, 0, 7, ..., 11, 1: the partition step moved the pivot and
    the element it was exchanged with.  The run does not reach
    [breakPatternsCmpFunc], so the generator plays no part, and it ends
    within its fuel.  The output is sorted by key and is a permutation of
    the input, but the elements with equal keys did not keep their input
    order.  Nor does stability follow from what the library documents: a
    sort that meets the contract may exchange two elements with equal
    keys. *)
Lemma OrderBy_reorders_equal_keys :
  (forall xorshift_Next : Z -> Z,
      ToSlice (OrderBy (fun E c => slices_SortFunc xorshift_Next c)
                 (FromSlice taggedInput) snd [])
      = Done taggedOutput)
  /\ (forall xorshift_Next : Z -> Z,
         slices_SortFunc_run xorshift_Next
           (fun x y => cmp_Compare_int (Item2 x) (Item2 y))
           (map (fun item => mkValuePair item (snd item)) taggedInput)
         = Some (map (fun item => mkValuePair item (snd item)) taggedOutput))
  /\ filter (fun x => cmp_Compare_int (snd x) 1 =? 0) taggedOutput
     <> filter (fun x => cmp_Compare_int (snd x) 1 =? 0) taggedInput
  /\ ~ sameOrderAmongEqual snd cmp_Compare_int taggedInput taggedOutput
  /\ SortFunc_contract insertionSortLast
  /\ ToSlice (OrderBy insertionSortLast (FromSlice [(0, 1); (1, 1)]) snd [])
     = Done [(1, 1); (0, 1)].
Proof.
  split; [intros xorshift_Next; vm_compute; reflexivity|].
  split; [intros xorshift_Next; vm_compute; reflexivity|].
  split; [vm_compute; discriminate|].
  split.
  - intros Hstable. specialize (Hstable 1). vm_compute in Hstable. discriminate.
  - split; [exact insertionSortLast_contract | reflexivity].
Qed.

(** C2 (amended): let [slices.SortFunc] be any function meeting the
    documented contract of the library.  For every finite sequence and
    every resolved comparison that is a strict weak ordering, Order
    returns normally and yields a permutation of the input that is
    non-decreasing under that comparison; OrderBy yields a permutation of
    the input whose projected keys are non-decreasing under the resolved
    key comparison.  Nothing is promised about the relative order of
    elements that compare equal.  With the sort of the Go runtime, run to
    its end, Order and OrderBy yield a permutation of the input whatever
    the comparison. *)
Theorem Order_sorted_permutation :
  (forall SortFunc : forall E : Type, (E -> E -> Z) -> list E -> list E,
      SortFunc_contract SortFunc ->
      (forall (T : Type) (G : GoType T) (compare : list (option (T -> T -> Z)))
              (c : T -> T -> Z) (l : list T),
          resolvedComparison compare = Some c ->
          StrictWeakOrdering c ->
          exists output,
            ToSlice (Iterator_Order SortFunc (FromSlice l) compare) = Done output
            /\ Permutation l output
            /\ nonDecreasing c output)
      /\ (forall (T V : Type) (C : Comparable V) (valueSelector : T -> V)
                 (compare : list (option (V -> V -> Z))) (c : V -> V -> Z) (l : list T),
             resolvedKeyComparison compare = Some c ->
             StrictWeakOrdering c ->
             exists output,
               ToSlice (OrderBy SortFunc (FromSlice l) valueSelector compare)
               = Done output
               /\ Permutation l output
               /\ nonDecreasing (fun x y => c (valueSelector x) (valueSelector y))
                    output))
  /\ (forall (xorshift_Next : Z -> Z) (E : Type) (cmp : E -> E -> Z) (x : list E),
         slices_SortFunc_run xorshift_Next cmp x
         = Some (slices_SortFunc xorshift_Next cmp x)
         /\ Permutation x (slices_SortFunc xorshift_Next cmp x))
  /\ (forall (xorshift_Next : Z -> Z) (T : Type) (G : GoType T)
             (compare : list (option (T -> T -> Z))) (c : T -> T -> Z) (l : list T),
         resolvedComparison compare = Some c ->
         exists output,
           ToSlice (Iterator_Order (fun E cmp => slices_SortFunc xorshift_Next cmp)
                      (FromSlice l) compare) = Done output
           /\ Permutation l output)
  /\ (forall (xorshift_Next : Z -> Z) (T V : Type) (C : Comparable V)
             (valueSelector : T -> V) (compare : list (option (V -> V -> Z)))
             (c : V -> V -> Z) (l : list T),
         resolvedKeyComparison compare = Some c ->
         exists output,
           ToSlice (OrderBy (fun E cmp => slices_SortFunc xorshift_Next cmp)
                      (FromSlice l) valueSelector compare) = Done output
           /\ Permutation l output).
Proof.
  assert (Horder : forall (SortFunc : forall E : Type, (E -> E -> Z) -> list E -> list E)
                          (T : Type) (G : GoType T) compare (c : T -> T -> Z) (l : list T),
             resolvedComparison compare = Some c ->
             ToSlice (Iterator_Order SortFunc (FromSlice l) compare)
             = Done (SortFunc T c l)).
  { intros SortFunc T G compare c l Hresolved.
    unfold ToSlice, Iterator_Order. rewrite collect_FromSlice. simpl bind.
    unfold resolvedComparison in Hresolved.
    destruct compare as [|[c0|] more].
    - destruct IComparable as [Compare|].
      + injection Hresolved as ->. simpl. apply collect_FromSlice.
      + rewrite Hresolved. simpl. apply collect_FromSlice.
    - injection Hresolved as ->. simpl. apply collect_FromSlice.
    - discriminate. }
  assert (Hby : forall (SortFunc : forall E : Type, (E -> E -> Z) -> list E -> list E)
                       (T V : Type) (C : Comparable V) (valueSelector : T -> V)
                       compare (c : V -> V -> Z) (l : list T),
             resolvedKeyComparison compare = Some c ->
             ToSlice (OrderBy SortFunc (FromSlice l) valueSelector compare)
             = Done (map Item1
                       (SortFunc _ (fun x y => c (Item2 x) (Item2 y))
                          (map (fun item => mkValuePair item (valueSelector item)) l)))).
  { intros SortFunc T V C valueSelector compare c l Hresolved.
    unfold ToSlice, OrderBy. rewrite collect_pairs. simpl bind.
    unfold resolvedKeyComparison in Hresolved.
    destruct compare as [|[c0|] more]; [| |discriminate];
      injection Hresolved as ->; simpl; apply collect_FromSlice. }
  assert (Hpairs : forall (T V : Type) (valueSelector : T -> V) (l : list T),
             map Item1 (map (fun item => mkValuePair item (valueSelector item)) l) = l).
  { intros T V valueSelector l. rewrite map_map. simpl. apply map_id. }
  split; [|split; [|split]].
  - intros SortFunc Hcontract. split.
    + intros T G compare c l Hresolved Hswo.
      destruct (Hcontract T c l Hswo) as [Hperm Hsorted].
      exists (SortFunc T c l). split; [now apply Horder | now split].
    + intros T V C valueSelector compare c l Hresolved Hswo.
      set (pairs := map (fun item => mkValuePair item (valueSelector item)) l).
      set (byKey := fun x y : ValuePair T V => c (Item2 x) (Item2 y)).
      destruct (Hcontract _ byKey pairs (swo_on_keys Item2 c Hswo)) as [Hperm Hsorted].
      assert (Hkeys : forall pair, In pair (SortFunc _ byKey pairs) ->
                                   Item2 pair = valueSelector (Item1 pair)).
      { intros pair Hin.
        apply (Permutation_in pair (Permutation_sym Hperm)) in Hin.
        apply in_map_iff in Hin. destruct Hin as (item & <- & _). reflexivity. }
      exists (map Item1 (SortFunc _ byKey pairs)).
      split; [now apply Hby|]. split.
      * rewrite <- (Hpairs T V valueSelector l) at 1. now apply Permutation_map.
      * now apply nonDecreasing_carried_keys.
  - intros xorshift_Next E cmp x. split.
    + apply slices_SortFunc_run_returns.
    + apply slices_SortFunc_Permutation.
  - intros xorshift_Next T G compare c l Hresolved.
    exists (slices_SortFunc xorshift_Next c l).
    split; [now apply (Horder (fun E cmp => slices_SortFunc xorshift_Next cmp))|].
    apply slices_SortFunc_Permutation.
  - intros xorshift_Next T V C valueSelector compare c l Hresolved.
    rewrite (Hby (fun E cmp => slices_SortFunc xorshift_Next cmp)
               T V C valueSelector compare c l Hresolved).
    eexists. split; [reflexivity|].
    rewrite <- (Hpairs T V valueSelector l) at 1.
    apply Permutation_map, slices_SortFunc_Permutation.
Qed.

Lemma Order_sorted_permutation_witness :
  SortFunc_contract insertionSort
  /\ resolvedComparison (T:=Z) [] = Some cmp_Compare_int
  /\ resolvedKeyComparison (V:=Z) [] = Some cmp_Compare_int
  /\ StrictWeakOrdering cmp_Compare_int
  /\ (exists output,
         ToSlice (Iterator_Order insertionSort (FromSlice [3; 1; 2; 1]) []) = Done output
         /\ Permutation [3; 1; 2; 1] output
         /\ nonDecreasing cmp_Compare_int output)
  /\ (exists output,
         ToSlice (OrderBy insertionSort (FromSlice [30; 11; 25; 12])
                    (fun x => Z.quot x 10) []) = Done output
         /\ Permutation [30; 11; 25; 12] output
         /\ nonDecreasing
              (fun x y => cmp_Compare_int (Z.quot x 10) (Z.quot y 10)) output).
Proof.
  destruct Order_sorted_permutation as [Hcontract _].
  destruct (Hcontract insertionSort insertionSort_contract) as [Horder Hby].
  split; [exact insertionSort_contract|].
  split; [reflexivity|]. split; [reflexivity|].
  split; [exact cmp_Compare_int_swo|].
  split.
  - exact (Horder Z _ [] cmp_Compare_int [3; 1; 2; 1] eq_refl cmp_Compare_int_swo).
  - exact (Hby Z Z _ (fun x => Z.quot x 10) [] cmp_Compare_int [30; 11; 25; 12]
             eq_refl cmp_Compare_int_swo).
Defined.

(* ================================================================== *)
(** * Properties of the further operators *)

(** ** Sequences that no consumer tells apart *)

Lemma sameSequence_refl {T : Type} (a : Iterator T) : sameSequence a a.
Proof. intros S yield s. reflexivity. Qed.

Lemma sameSequence_trans {T : Type} (a b c : Iterator T) :
  sameSequence a b -> sameSequence b c -> sameSequence a c.
Proof. intros Hab Hbc S yield s. now rewrite Hab. Qed.

Lemma sameSequence_ToSlice {T : Type} (a : Iterator T) (l : list T) :
  sameSequence a (FromSlice l) -> ToSlice a = Done l.
Proof. intros Hal. unfold ToSlice. rewrite Hal. apply collect_FromSlice. Qed.

Lemma isInt_wrap64 (z : Z) : isInt z -> wrap64 z = z.
Proof.
  unfold isInt, wrap64. intros Hz.
  rewrite Z.mod_small; lia.
Qed.

(** A loop over a slice that records whether its body returned, followed
    by a loop over a second slice unless it did, is the loop over the
    two slices joined. *)
Lemma FromSlice_app {T S : Type} (yield : Yield T S) (l1 l2 : list T) (s : S) :
  ('(s', returned) <- FromSlice l1 (S * bool)%type
       (fun item '(s, _) =>
          '(s', continue) <- yield item s ;;
          Done ((s', negb continue), continue))
       (s, false) ;;
   if returned : bool then Done s' else FromSlice l2 S yield s')
  = FromSlice (l1 ++ l2) S yield s.
Proof.
  revert s. induction l1 as [|x l1 IH]; intros s; simpl.
  - reflexivity.
  - destruct (yield x s) as [[s' [|]]|msg]; simpl; [apply IH | reflexivity | reflexivity].
Qed.

(* ------------------------------------------------------------------ *)
(** ** Where, Select, SelectMany *)

Lemma Where_FromSlice {T : Type} (p : T -> bool) (l : list T) :
  sameSequence (Iterator_Where (FromSlice l) p) (FromSlice (filter p l)).
Proof.
  intros S yield s. unfold Iterator_Where.
  revert s. induction l as [|x l IH]; intros s; simpl.
  - reflexivity.
  - destruct (p x); simpl.
    + destruct (yield x s) as [[s' [|]]|msg]; simpl; [apply IH | reflexivity | reflexivity].
    + apply IH.
Qed.

Lemma Select_FromSlice {T R : Type} (f : T -> R) (l : list T) :
  sameSequence (Select (FromSlice l) f) (FromSlice (map f l)).
Proof.
  intros S yield s. unfold Select.
  revert s. induction l as [|x l IH]; intros s; simpl.
  - reflexivity.
  - destruct (yield (f x) s) as [[s' [|]]|msg]; simpl; [apply IH | reflexivity | reflexivity].
Qed.

Lemma SelectMany_FromSlice {T R : Type} (f : T -> list R) (l : list T) :
  sameSequence (SelectMany (FromSlice l) f) (FromSlice (flat_map f l)).
Proof.
  intros S yield s. unfold SelectMany.
  revert s. induction l as [|x l IH]; intros s.
  - reflexivity.
  - cbn [FromSlice flat_map].
    rewrite <- FromSlice_app.
    destruct (FromSlice (f x) (S * bool)%type _ (s, false)) as [[s' [|]]|msg]; simpl;
      [reflexivity | apply IH | reflexivity].
Qed.

(** The operators hand their consumer to the source: sources that no
    consumer tells apart give results that no consumer tells apart. *)
Lemma Where_same {T : Type} (a b : Iterator T) (p : T -> bool) :
  sameSequence a b -> sameSequence (Iterator_Where a p) (Iterator_Where b p).
Proof. intros Hab S yield s. unfold Iterator_Where. apply Hab. Qed.

Lemma Select_same {T R : Type} (a b : Iterator T) (f : T -> R) :
  sameSequence a b -> sameSequence (Select a f) (Select b f).
Proof. intros Hab S yield s. unfold Select. apply Hab. Qed.

Lemma Take_same {T : Type} (a b : Iterator T) (count : Z) :
  sameSequence a b -> sameSequence (Iterator_Take a count) (Iterator_Take b count).
Proof. intros Hab S yield s. unfold Iterator_Take, Take_run. now rewrite Hab. Qed.

Lemma Skip_same {T : Type} (a b : Iterator T) (count : Z) :
  sameSequence a b -> sameSequence (Iterator_Skip a count) (Iterator_Skip b count).
Proof. intros Hab S yield s. unfold Iterator_Skip, Skip_run. now rewrite Hab. Qed.

(* ------------------------------------------------------------------ *)
(** ** Take and Skip *)

Lemma Take_run_FromSlice {T S : Type} (yield : Yield T S) (l : list T) :
  forall (count : Z) (s : S),
    count < 2 ^ 63 ->
    ('(_, s') <- Take_run (FromSlice l) count S yield s ;; Done s')
    = FromSlice (firstn (Z.to_nat count) l) S yield s.
Proof.
  unfold Take_run.
  induction l as [|x l IH]; intros count s Hcount.
  - now rewrite firstn_nil.
  - cbn [FromSlice]. cbv beta iota.
    destruct (count <=? 0) eqn:Hle; simpl.
    + apply Z.leb_le in Hle.
      replace (Z.to_nat count) with O by lia. reflexivity.
    + apply Z.leb_gt in Hle.
      replace (Z.to_nat count) with (Datatypes.S (Z.to_nat (count - 1))) by lia.
      cbn [firstn FromSlice].
      destruct (yield x s) as [[s' [|]]|msg]; simpl; [|reflexivity|reflexivity].
      unfold int_sub. rewrite isInt_wrap64 by (unfold isInt; lia).
      apply IH. lia.
Qed.

Lemma Skip_run_FromSlice {T S : Type} (yield : Yield T S) (l : list T) :
  forall (count : Z) (s : S),
    count < 2 ^ 63 ->
    ('(_, s') <- Skip_run (FromSlice l) count S yield s ;; Done s')
    = FromSlice (skipn (Z.to_nat count) l) S yield s.
Proof.
  unfold Skip_run.
  induction l as [|x l IH]; intros count s Hcount.
  - now rewrite skipn_nil.
  - cbn [FromSlice]. cbv beta iota.
    destruct (count >? 0) eqn:Hgt; simpl.
    + apply Z.gtb_lt in Hgt.
      replace (Z.to_nat count) with (Datatypes.S (Z.to_nat (count - 1))) by lia.
      cbn [skipn].
      unfold int_sub. rewrite isInt_wrap64 by (unfold isInt; lia).
      apply IH. lia.
    + assert (Hle : count <= 0) by (rewrite Z.gtb_ltb in Hgt; apply Z.ltb_ge in Hgt; lia).
      replace (Z.to_nat count) with O by lia. cbn [skipn FromSlice].
      destruct (yield x s) as [[s' [|]]|msg]; simpl; [|reflexivity|reflexivity].
      specialize (IH count s' Hcount).
      replace (Z.to_nat count) with O in IH by lia. 
      rewrite skipn_O in IH. exact IH.
Qed.

(** X1.  Where(p) over a slice is the sequence of the elements that satisfy
    [p], in their order: no consumer, whenever it stops, can tell it from
    [FromSlice] of the filtered slice; collected, it is the filtered
    slice. *)
Theorem Where_filter :
  forall (T : Type) (p : T -> bool) (l : list T),
    sameSequence (Iterator_Where (FromSlice l) p) (FromSlice (filter p l))
    /\ ToSlice (Iterator_Where (FromSlice l) p) = Done (filter p l).
Proof.
  intros T p l. split; [apply Where_FromSlice|].
  apply sameSequence_ToSlice, Where_FromSlice.
Qed.

(** X2.  Select(f) over a slice is the sequence of the images, SelectMany(f)
    the sequence of the elements of the slices [f] returns, joined in
    order; a consumer that stops inside an inner slice stops the whole
    traversal. *)
Theorem Select_SelectMany_map :
  forall (T R : Type) (l : list T),
    (forall f : T -> R,
        sameSequence (Select (FromSlice l) f) (FromSlice (map f l))
        /\ ToSlice (Select (FromSlice l) f) = Done (map f l))
    /\ (forall f : T -> list R,
           sameSequence (SelectMany (FromSlice l) f) (FromSlice (flat_map f l))
           /\ ToSlice (SelectMany (FromSlice l) f) = Done (flat_map f l)).
Proof.
  intros T R l. split; intros f.
  - split; [apply Select_FromSlice | apply sameSequence_ToSlice, Select_FromSlice].
  - split; [apply SelectMany_FromSlice | apply sameSequence_ToSlice, SelectMany_FromSlice].
Qed.

Lemma Take_FromSlice {T : Type} (l : list T) (count : Z) :
  count < 2 ^ 63 ->
  sameSequence (Iterator_Take (FromSlice l) count) (FromSlice (firstn (Z.to_nat count) l)).
Proof. intros Hcount S yield s. now apply Take_run_FromSlice. Qed.

Lemma Skip_FromSlice {T : Type} (l : list T) (count : Z) :
  count < 2 ^ 63 ->
  sameSequence (Iterator_Skip (FromSlice l) count) (FromSlice (skipn (Z.to_nat count) l)).
Proof. intros Hcount S yield s. now apply Skip_run_FromSlice. Qed.

(** X3.  For a count that is an [int], Take(count) over a slice is the
    sequence of its first [count] elements and Skip(count) the sequence of
    the others: together they give the slice back.  A count of zero or
    less takes nothing and skips nothing; a count of the length or more
    takes everything and leaves nothing. *)
Theorem Take_Skip_split :
  forall (T : Type) (l : list T) (count : Z),
    isInt count ->
    sameSequence (Iterator_Take (FromSlice l) count)
      (FromSlice (firstn (Z.to_nat count) l))
    /\ sameSequence (Iterator_Skip (FromSlice l) count)
         (FromSlice (skipn (Z.to_nat count) l))
    /\ (exists taken skipped,
           ToSlice (Iterator_Take (FromSlice l) count) = Done taken
           /\ ToSlice (Iterator_Skip (FromSlice l) count) = Done skipped
           /\ taken ++ skipped = l)
    /\ (count <= 0 ->
        ToSlice (Iterator_Take (FromSlice l) count) = Done []
        /\ ToSlice (Iterator_Skip (FromSlice l) count) = Done l)
    /\ (Z.of_nat (List.length l) <= count ->
        ToSlice (Iterator_Take (FromSlice l) count) = Done l
        /\ ToSlice (Iterator_Skip (FromSlice l) count) = Done []).
Proof.
  intros T l count [_ Hcount].
  pose proof (Take_FromSlice l count Hcount) as Htake.
  pose proof (Skip_FromSlice l count Hcount) as Hskip.
  pose proof (sameSequence_ToSlice _ _ Htake) as HtakeSlice.
  pose proof (sameSequence_ToSlice _ _ Hskip) as HskipSlice.
  split; [exact Htake|]. split; [exact Hskip|]. split; [|split].
  - exists (firstn (Z.to_nat count) l), (skipn (Z.to_nat count) l).
    split; [exact HtakeSlice|]. split; [exact HskipSlice | apply firstn_skipn].
  - intros Hle. rewrite HtakeSlice, HskipSlice.
    replace (Z.to_nat count) with O by lia. split; reflexivity.
  - intros Hge. rewrite HtakeSlice, HskipSlice.
    rewrite firstn_all2, skipn_all2 by lia. split; reflexivity.
Qed.

Lemma Take_Skip_split_witness :
  isInt 4
  /\ ToSlice (Iterator_Take (FromSlice [1; 2; 3; 4; 5; 6; 7]) 4) = Done [1; 2; 3; 4]
  /\ ToSlice (Iterator_Skip (FromSlice [1; 2; 3; 4; 5; 6; 7]) 4) = Done [5; 6; 7]
  /\ ToSlice (Iterator_Take (FromSlice [1; 2; 3]) (-1)) = Done []
  /\ ToSlice (Iterator_Skip (FromSlice [1; 2; 3]) 3) = Done [].
Proof.
  assert (Hint : forall z, - 2 ^ 63 <= z < 2 ^ 63 -> isInt z) by (intros z Hz; exact Hz).
  split; [apply Hint; lia|].
  destruct (Take_Skip_split Z [1; 2; 3; 4; 5; 6; 7] 4 ltac:(apply Hint; lia))
    as (Htake & Hskip & _).
  destruct (Take_Skip_split Z [1; 2; 3] (-1) ltac:(apply Hint; lia))
    as (_ & _ & _ & Hneg & _).
  destruct (Take_Skip_split Z [1; 2; 3] 3 ltac:(apply Hint; lia))
    as (_ & _ & _ & _ & Hall).
  split; [exact (sameSequence_ToSlice _ _ Htake)|].
  split; [exact (sameSequence_ToSlice _ _ Hskip)|].
  split; [apply Hneg; lia | apply Hall; simpl; lia].
Defined.

(** X4.  Operators compose: filtering, projecting, skipping and taking
    over a slice, in one chain traversed once, is the sequence obtained by
    applying filter, map, skipn and firstn to the slice, for every
    consumer. *)
Theorem pipeline_composes :
  forall (T R : Type) (p : T -> bool) (f : T -> R) (skip take : Z) (l : list T),
    isInt skip -> isInt take ->
    sameSequence
      (Iterator_Take (Iterator_Skip (Select (Iterator_Where (FromSlice l) p) f) skip) take)
      (FromSlice (firstn (Z.to_nat take) (skipn (Z.to_nat skip) (map f (filter p l)))))
    /\ ToSlice
         (Iterator_Take (Iterator_Skip (Select (Iterator_Where (FromSlice l) p) f) skip) take)
       = Done (firstn (Z.to_nat take) (skipn (Z.to_nat skip) (map f (filter p l)))).
Proof.
  intros T R p f skip take l [_ Hskip] [_ Htake].
  assert (Hsame : sameSequence
            (Iterator_Take (Iterator_Skip (Select (Iterator_Where (FromSlice l) p) f) skip)
               take)
            (FromSlice (firstn (Z.to_nat take)
                          (skipn (Z.to_nat skip) (map f (filter p l)))))).
  { eapply sameSequence_trans; [|apply Take_FromSlice; exact Htake].
    apply Take_same.
    eapply sameSequence_trans; [|apply Skip_FromSlice; exact Hskip].
    apply Skip_same.
    eapply sameSequence_trans; [|apply Select_FromSlice].
    apply Select_same, Where_FromSlice. }
  split; [exact Hsame | now apply sameSequence_ToSlice].
Qed.

Lemma pipeline_composes_witness :
  isInt 1 /\ isInt 2
  /\ ToSlice
       (Iterator_Take
          (Iterator_Skip
             (Select (Iterator_Where (FromSlice [1; 2; 3; 4; 5; 6; 7; 8])
                        (fun x => x mod 2 =? 0))
                (fun x => x * 10)) 1) 2)
     = Done [40; 60].
Proof.
  assert (H1 : isInt 1) by (unfold isInt; lia).
  assert (H2 : isInt 2) by (unfold isInt; lia).
  split; [exact H1|]. split; [exact H2|].
  exact (proj2 (pipeline_composes Z Z (fun x => x mod 2 =? 0) (fun x => x * 10) 1 2
                  [1; 2; 3; 4; 5; 6; 7; 8] H1 H2)).
Defined.

(* ------------------------------------------------------------------ *)
(** ** The captured counter of Take and Skip *)

Lemma Take_run_collect {T : Type} (l : list T) :
  forall (count : Z) (acc : list T),
    count < 2 ^ 63 ->
    Take_run (FromSlice l) count (list T)
      (fun item result => Done (result ++ [item], true)) acc
    = Done (if count <=? 0 then count
            else count - Z.of_nat (Nat.min (Z.to_nat count) (List.length l)),
            acc ++ firstn (Z.to_nat count) l).
Proof.
  unfold Take_run.
  induction l as [|x l IH]; intros count acc Hcount.
  - rewrite firstn_nil, app_nil_r. simpl.
    destruct (count <=? 0); [reflexivity|]. f_equal. f_equal. lia.
  - cbn [FromSlice]. cbv beta iota.
    destruct (count <=? 0) eqn:Hle; simpl.
    + apply Z.leb_le in Hle. replace (Z.to_nat count) with O by lia.
      simpl. now rewrite app_nil_r.
    + apply Z.leb_gt in Hle.
      unfold int_sub. rewrite isInt_wrap64 by (unfold isInt; lia).
      rewrite IH by lia.
      replace (Z.to_nat count) with (Datatypes.S (Z.to_nat (count - 1))) by lia.
      cbn [firstn]. rewrite <- app_assoc. simpl.
      f_equal. f_equal.
      destruct (count - 1 <=? 0) eqn:Hone.
      * apply Z.leb_le in Hone. replace (Z.to_nat (count - 1)) with O by lia. simpl. lia.
      * apply Z.leb_gt in Hone. lia.
Qed.

Lemma Skip_run_collect {T : Type} (l : list T) :
  forall (count : Z) (acc : list T),
    count < 2 ^ 63 ->
    Skip_run (FromSlice l) count (list T)
      (fun item result => Done (result ++ [item], true)) acc
    = Done (if count <=? 0 then count
            else count - Z.of_nat (Nat.min (Z.to_nat count) (List.length l)),
            acc ++ skipn (Z.to_nat count) l).
Proof.
  unfold Skip_run.
  induction l as [|x l IH]; intros count acc Hcount.
  - rewrite skipn_nil, app_nil_r. simpl.
    destruct (count <=? 0); [reflexivity|]. f_equal. f_equal. lia.
  - cbn [FromSlice]. cbv beta iota.
    destruct (count >? 0) eqn:Hgt; simpl.
    + apply Z.gtb_lt in Hgt.
      unfold int_sub. rewrite isInt_wrap64 by (unfold isInt; lia).
      rewrite IH by lia.
      replace (Z.to_nat count) with (Datatypes.S (Z.to_nat (count - 1))) by lia.
      cbn [skipn].
      destruct (count <=? 0) eqn:Hle; [apply Z.leb_le in Hle; lia|].
      f_equal. f_equal.
      destruct (count - 1 <=? 0) eqn:Hone.
      * apply Z.leb_le in Hone. replace (Z.to_nat (count - 1)) with O by lia. simpl. lia.
      * apply Z.leb_gt in Hone. lia.
    + assert (Hle : count <= 0) by (rewrite Z.gtb_ltb in Hgt; apply Z.ltb_ge in Hgt; lia).
      rewrite IH by lia.
      replace (Z.to_nat count) with O by lia. cbn [skipn].
      rewrite <- app_assoc. simpl.
      destruct (count <=? 0) eqn:Hle'; [reflexivity|apply Z.leb_gt in Hle'; lia].
Qed.

(** X5.  The iterators returned by Take and Skip are good for one
    traversal: the closure decrements the [count] it captured, and a second
    traversal of the same iterator value starts from what is left.  After
    Take(count) has been collected from a slice of at least [count]
    elements, collecting it again gives nothing; after Skip(count) has been
    collected, collecting it again skips nothing and gives the whole
    slice.  In general the second traversal behaves as the first would
    with [count] reduced by the length of the slice. *)
Theorem Take_Skip_second_traversal :
  forall (T : Type) (l : list T) (count : Z),
    isInt count ->
    ToSlice_twice (Take_run (FromSlice l)) count
    = Done (firstn (Z.to_nat count) l,
            firstn (Z.to_nat count - List.length l) l)
    /\ ToSlice_twice (Skip_run (FromSlice l)) count
       = Done (skipn (Z.to_nat count) l,
               skipn (Z.to_nat count - List.length l) l)
    /\ (0 <= count <= Z.of_nat (List.length l) ->
        ToSlice_twice (Take_run (FromSlice l)) count
        = Done (firstn (Z.to_nat count) l, [])
        /\ ToSlice_twice (Skip_run (FromSlice l)) count
           = Done (skipn (Z.to_nat count) l, l)).
Proof.
  intros T l count [_ Hcount].
  assert (Hleft : forall c, c < 2 ^ 63 ->
            (if c <=? 0 then c else c - Z.of_nat (Nat.min (Z.to_nat c) (List.length l)))
            < 2 ^ 63
            /\ Z.to_nat (if c <=? 0 then c
                         else c - Z.of_nat (Nat.min (Z.to_nat c) (List.length l)))
               = (Z.to_nat c - List.length l)%nat).
  { intros c Hc. destruct (c <=? 0) eqn:Hle.
    - apply Z.leb_le in Hle. lia.
    - apply Z.leb_gt in Hle. lia. }
  destruct (Hleft count Hcount) as [Hbound Hnat].
  assert (Htake : ToSlice_twice (Take_run (FromSlice l)) count
                  = Done (firstn (Z.to_nat count) l,
                          firstn (Z.to_nat count - List.length l) l)).
  { unfold ToSlice_twice. rewrite Take_run_collect by exact Hcount. simpl bind.
    rewrite Take_run_collect by exact Hbound. simpl. now rewrite Hnat. }
  assert (Hskip : ToSlice_twice (Skip_run (FromSlice l)) count
                  = Done (skipn (Z.to_nat count) l,
                          skipn (Z.to_nat count - List.length l) l)).
  { unfold ToSlice_twice. rewrite Skip_run_collect by exact Hcount. simpl bind.
    rewrite Skip_run_collect by exact Hbound. simpl. now rewrite Hnat. }
  split; [exact Htake|]. split; [exact Hskip|].
  intros Hwithin. rewrite Htake, Hskip.
  replace (Z.to_nat count - List.length l)%nat with O by lia.
  split; reflexivity.
Qed.

Lemma Take_Skip_second_traversal_witness :
  isInt 2
  /\ 0 <= 2 <= Z.of_nat (List.length [1; 2; 3])
  /\ ToSlice_twice (Take_run (FromSlice [1; 2; 3])) 2 = Done ([1; 2], [])
  /\ ToSlice_twice (Skip_run (FromSlice [1; 2; 3])) 2 = Done ([3], [1; 2; 3]).
Proof.
  assert (Hint : isInt 2) by (unfold isInt; lia).
  assert (Hwithin : 0 <= 2 <= Z.of_nat (List.length [1; 2; 3])) by (simpl; lia).
  split; [exact Hint|]. split; [exact Hwithin|].
  destruct (Take_Skip_second_traversal Z [1; 2; 3] 2 Hint) as (_ & _ & Hsecond).
  exact (Hsecond Hwithin).
Defined.

(** Take over a source that continues after a slice: while the slice
    has more than [count] elements, what follows it is never reached. *)
Lemma Take_Concat_prefix {T S : Type} (yield : Yield T S) (rest : Iterator T)
    (l : list T) :
  forall (count : Z) (s : S),
    0 <= count < Z.of_nat (List.length l) ->
    count < 2 ^ 63 ->
    Iterator_Take (Iterator_Concat (FromSlice l) rest) count S yield s
    = FromSlice (firstn (Z.to_nat count) l) S yield s.
Proof.
  unfold Iterator_Take, Take_run, Iterator_Concat.
  induction l as [|x l IH]; intros count s Hlen Hcount.
  - simpl in Hlen. lia.
  - cbn [FromSlice]. cbv beta iota.
    destruct (count <=? 0) eqn:Hle; simpl.
    + apply Z.leb_le in Hle. replace (Z.to_nat count) with O by lia. reflexivity.
    + apply Z.leb_gt in Hle.
      replace (Z.to_nat count) with (Datatypes.S (Z.to_nat (count - 1))) by lia.
      cbn [firstn FromSlice].
      destruct (yield x s) as [[s' [|]]|msg]; simpl; [|reflexivity|reflexivity].
      unfold int_sub. rewrite isInt_wrap64 by (unfold isInt; lia).
      apply IH; [|lia]. cbn [List.length] in Hlen. lia.
Qed.

(** X6.  Take(count) stops its source only when the element after the
    last one it yields arrives.  Over a sequence that starts with a slice
    of more than [count] elements it never reaches what follows the slice,
    whatever that is.  When the slice has exactly [count] elements, Take
    pulls on: with a continuation that panics, Take(2) after two elements
    panics although both were already yielded, where Take(1) returns. *)
Theorem Take_pulls_one_more :
  (forall (T : Type) (l : list T) (rest : Iterator T) (count : Z),
      0 <= count < Z.of_nat (List.length l) ->
      isInt count ->
      sameSequence (Iterator_Take (Iterator_Concat (FromSlice l) rest) count)
        (FromSlice (firstn (Z.to_nat count) l)))
  /\ ToSlice (Iterator_Take
                (Iterator_Concat (FromSlice [1; 2]) (Iterator_Reverse (FromSlice [])))
                1)
     = Done [1]
  /\ ToSlice (Iterator_Take
                (Iterator_Concat (FromSlice [1; 2]) (Iterator_Reverse (FromSlice [])))
                2)
     = Panic "index out of range".
Proof.
  split; [|split; reflexivity].
  intros T l rest count Hlen [_ Hcount] S yield s.
  now apply Take_Concat_prefix.
Qed.

Lemma Take_pulls_one_more_witness :
  0 <= 2 < Z.of_nat (List.length [1; 2; 3])
  /\ isInt 2
  /\ ToSlice (Iterator_Take
                (Iterator_Concat (FromSlice [1; 2; 3]) (Iterator_Reverse (FromSlice [4])))
                2)
     = Done [1; 2].
Proof.
  assert (Hlen : 0 <= 2 < Z.of_nat (List.length [1; 2; 3])) by (simpl; lia).
  assert (Hint : isInt 2) by (unfold isInt; lia).
  split; [exact Hlen|]. split; [exact Hint|].
  destruct Take_pulls_one_more as [Hgeneral _].
  exact (sameSequence_ToSlice _ _
           (Hgeneral Z [1; 2; 3] (Iterator_Reverse (FromSlice [4])) 2 Hlen Hint)).
Defined.

(* ------------------------------------------------------------------ *)
(** ** Concat, Append, Prepend *)

(** X7.  Concat, Append and Prepend over slices are the sequences of the
    joined slices, for every consumer: order is kept, a consumer that
    stops in the first part never starts the second, and the number of
    elements is the sum of the two. *)
Theorem Concat_Append_Prepend_app :
  forall (T : Type) (a b : list T),
    sameSequence (Iterator_Concat (FromSlice a) (FromSlice b)) (FromSlice (a ++ b))
    /\ sameSequence (Iterator_Append (FromSlice a) b) (FromSlice (a ++ b))
    /\ sameSequence (Iterator_Prepend (FromSlice b) a) (FromSlice (a ++ b))
    /\ (exists joined,
           ToSlice (Iterator_Concat (FromSlice a) (FromSlice b)) = Done joined
           /\ ToSlice (Iterator_Append (FromSlice a) b) = Done joined
           /\ ToSlice (Iterator_Prepend (FromSlice b) a) = Done joined
           /\ List.length joined = (List.length a + List.length b)%nat).
Proof.
  intros T a b.
  assert (Hconcat : sameSequence (Iterator_Concat (FromSlice a) (FromSlice b))
                      (FromSlice (a ++ b))).
  { intros S yield s. unfold Iterator_Concat. apply FromSlice_app. }
  assert (Happend : sameSequence (Iterator_Append (FromSlice a) b) (FromSlice (a ++ b))).
  { intros S yield s. unfold Iterator_Append. apply FromSlice_app. }
  assert (Hprepend : sameSequence (Iterator_Prepend (FromSlice b) a) (FromSlice (a ++ b))).
  { intros S yield s. unfold Iterator_Prepend. apply FromSlice_app. }
  split; [exact Hconcat|]. split; [exact Happend|]. split; [exact Hprepend|].
  exists (a ++ b).
  split; [now apply sameSequence_ToSlice|].
  split; [now apply sameSequence_ToSlice|].
  split; [now apply sameSequence_ToSlice | apply length_app].
Qed.

(* ------------------------------------------------------------------ *)
(** ** Count, All, Any *)

Lemma count_fold {T : Type} (test : T -> bool) (l : list T) :
  forall acc : Z,
    0 <= acc ->
    acc + Z.of_nat (List.length l) < 2 ^ 63 ->
    fold_left (fun result item => if test item then int_add result 1 else result) l acc
    = acc + Z.of_nat (List.length (filter test l)).
Proof.
  induction l as [|x l IH]; intros acc Hacc Hbound; simpl.
  - lia.
  - cbn [List.length] in Hbound.
    destruct (test x); simpl.
    + unfold int_add at 2. rewrite isInt_wrap64 by (unfold isInt; lia).
      rewrite IH by lia. lia.
    + rewrite IH by lia. lia.
Qed.

Lemma Count_predicate_FromSlice {T : Type} (p : T -> bool) (l : list T)
    (more : list (option (T -> bool))) :
  Z.of_nat (List.length l) < 2 ^ 63 ->
  Iterator_Count (FromSlice l) (Some p :: more)
  = Done (Z.of_nat (List.length (filter p l))).
Proof.
  intros Hlen. unfold Iterator_Count.
  rewrite (FromSlice_ext _
             (fun item result => Done (if p item then int_add result 1 else result, true))).
  2:{ intros item result. now destruct (p item). }
  rewrite (FromSlice_fold (fun item result => if p item then int_add result 1 else result)).
  rewrite count_fold by lia. reflexivity.
Qed.

Lemma Count_FromSlice {T : Type} (l : list T)
    (predicate : list (option (generic_Predicate T))) :
  suppliedPredicate predicate = None ->
  Z.of_nat (List.length l) < 2 ^ 63 ->
  Iterator_Count (FromSlice l) predicate = Done (Z.of_nat (List.length l)).
Proof.
  intros Hnone Hlen.
  assert (Hloop : FromSlice l Z (fun _ result => Done (int_add result 1, true)) 0
                  = Done (Z.of_nat (List.length l))).
  { rewrite (FromSlice_fold (fun _ result => int_add result 1)).
    pose proof (count_fold (fun _ : T => true) l 0 ltac:(lia) ltac:(lia)) as Hfold.
    simpl in Hfold. rewrite Hfold.
    f_equal. f_equal. f_equal.
    clear. induction l as [|x l IH]; simpl; congruence. }
  unfold Iterator_Count.
  destruct predicate as [|[p|] more]; [exact Hloop | discriminate | exact Hloop].
Qed.

(** X8.  On a slice (a Go slice has fewer than 2^63 elements), Count
    without a predicate, or with a nil one, is the length; Count(p) is the
    number of elements that satisfy [p], the same as counting Where(p). *)
Theorem Count_length :
  forall (T : Type) (l : list T),
    Z.of_nat (List.length l) < 2 ^ 63 ->
    Iterator_Count (FromSlice l) [] = Done (Z.of_nat (List.length l))
    /\ Iterator_Count (FromSlice l) [None] = Done (Z.of_nat (List.length l))
    /\ forall p : T -> bool,
         Iterator_Count (FromSlice l) [Some p]
         = Done (Z.of_nat (List.length (filter p l)))
         /\ Iterator_Count (FromSlice l) [Some p]
            = Iterator_Count (Iterator_Where (FromSlice l) p) [].
Proof.
  intros T l Hlen.
  split; [now apply Count_FromSlice|]. split; [now apply Count_FromSlice|].
  intros p.
  assert (Hfilter : Z.of_nat (List.length (filter p l)) < 2 ^ 63).
  { pose proof (filter_length_le p l). lia. }
  split; [now apply Count_predicate_FromSlice|].
  rewrite Count_predicate_FromSlice by exact Hlen.
  unfold Iterator_Count at 1. rewrite (Where_FromSlice p l).
  symmetry. exact (Count_FromSlice (filter p l) [] eq_refl Hfilter).
Qed.

Lemma Count_length_witness :
  Z.of_nat (List.length [1; 2; 3; 4; 5; 6; 7]) < 2 ^ 63
  /\ Iterator_Count (FromSlice [1; 2; 3; 4; 5; 6; 7]) [] = Done 7
  /\ Iterator_Count (FromSlice [1; 2; 3; 4; 5; 6; 7]) [Some (fun x => x mod 3 =? 0)]
     = Done 2.
Proof.
  assert (Hlen : Z.of_nat (List.length [1; 2; 3; 4; 5; 6; 7]) < 2 ^ 63) by (simpl; lia).
  destruct (Count_length Z [1; 2; 3; 4; 5; 6; 7] Hlen) as (Hall & _ & Hp).
  split; [exact Hlen|]. split; [exact Hall|].
  exact (proj1 (Hp (fun x => x mod 3 =? 0))).
Defined.

Lemma All_loop {T : Type} (p : T -> bool) (rest : Iterator T) (l : list T) :
  Iterator_All (Iterator_Concat (FromSlice l) rest) p
  = if forallb p l then Iterator_All rest p else Done false.
Proof.
  unfold Iterator_All, Iterator_Concat.
  assert (Hgen : forall returned,
            ('(s', returned') <- FromSlice l (bool * bool)%type
                 (fun item '(s, _) =>
                    '(s', continue) <-
                       (if negb (p item) then Done (false, false) else Done (s, true)) ;;
                    Done ((s', negb continue), continue))
                 (true, returned) ;;
             if returned' : bool then Done s'
             else rest bool
                    (fun item result =>
                       if negb (p item) then Done (false, false) else Done (result, true))
                    s')
            = if forallb p l
              then (if returned : bool then
                      match l with
                      | [] => Done true
                      | _ => rest bool
                               (fun item result =>
                                  if negb (p item) then Done (false, false)
                                  else Done (result, true)) true
                      end
                    else rest bool
                           (fun item result =>
                              if negb (p item) then Done (false, false)
                              else Done (result, true)) true)
              else Done false).
  { induction l as [|x l IH]; intros returned; simpl.
    - now destruct returned.
    - destruct (p x); simpl; [|reflexivity].
      rewrite IH. destruct (forallb p l); [|reflexivity].
      destruct returned; now destruct l. }
  apply Hgen.
Qed.

Lemma Any_loop {T : Type} (p : T -> bool) (rest : Iterator T) (l : list T)
    (more : list (option (T -> bool))) :
  Iterator_Any (Iterator_Concat (FromSlice l) rest) (Some p :: more)
  = if existsb p l then Done true else Iterator_Any rest (Some p :: more).
Proof.
  unfold Iterator_Any, Iterator_Concat.
  induction l as [|x l IH]; simpl.
  - reflexivity.
  - destruct (p x); simpl; [reflexivity|]. exact IH.
Qed.

Lemma All_FromSlice {T : Type} (p : T -> bool) (l : list T) :
  Iterator_All (FromSlice l) p = Done (forallb p l).
Proof.
  unfold Iterator_All. induction l as [|x l IH]; simpl; [reflexivity|].
  destruct (p x); simpl; [exact IH | reflexivity].
Qed.

Lemma Any_FromSlice {T : Type} (p : T -> bool) (l : list T)
    (more : list (option (T -> bool))) :
  Iterator_Any (FromSlice l) (Some p :: more) = Done (existsb p l).
Proof.
  unfold Iterator_Any. induction l as [|x l IH]; simpl; [reflexivity|].
  destruct (p x); simpl; [reflexivity | exact IH].
Qed.

(** X9.  On a slice, All(p) is true exactly when every element satisfies
    [p] (true on the empty slice), Any(p) exactly when some element does,
    and Any() exactly when the slice is not empty; All(p) is the negation
    of Any(not p).  Both stop at the element that decides: what follows a
    slice holding a failing (for All) or a matching (for Any) element is
    never traversed. *)
Theorem All_Any_quantifiers :
  forall (T : Type) (p : T -> bool) (l : list T),
    Iterator_All (FromSlice l) p = Done (forallb p l)
    /\ Iterator_Any (FromSlice l) [Some p] = Done (existsb p l)
    /\ Iterator_Any (FromSlice l) [] = Done (negb (Nat.eqb (List.length l) 0))
    /\ Iterator_All (FromSlice l) p
       = (found <- Iterator_Any (FromSlice l) [Some (fun x => negb (p x))] ;;
          Done (negb found))
    /\ (forall rest : Iterator T,
           forallb p l = false ->
           Iterator_All (Iterator_Concat (FromSlice l) rest) p = Done false)
    /\ (forall rest : Iterator T,
           existsb p l = true ->
           Iterator_Any (Iterator_Concat (FromSlice l) rest) [Some p] = Done true).
Proof.
  intros T p l.
  split; [apply All_FromSlice|]. split; [apply Any_FromSlice|]. split; [|split; [|split]].
  - now destruct l.
  - rewrite All_FromSlice, Any_FromSlice. simpl. f_equal.
    induction l as [|x l IH]; simpl; [reflexivity|].
    rewrite IH. now destruct (p x).
  - intros rest Hfalse. rewrite All_loop. now rewrite Hfalse.
  - intros rest Htrue. rewrite Any_loop. now rewrite Htrue.
Qed.

Lemma All_Any_quantifiers_witness :
  forallb (fun x => x <? 3) [1; 2; 3] = false
  /\ existsb (fun x => x <? 3) [1; 2; 3] = true
  /\ Iterator_All (Iterator_Concat (FromSlice [1; 2; 3]) (Iterator_Reverse (FromSlice [])))
       (fun x => x <? 3) = Done false
  /\ Iterator_Any (Iterator_Concat (FromSlice [1; 2; 3]) (Iterator_Reverse (FromSlice [])))
       [Some (fun x => x <? 3)] = Done true.
Proof.
  destruct (All_Any_quantifiers Z (fun x => x <? 3) [1; 2; 3])
    as (_ & _ & _ & _ & Hall & Hany).
  split; [reflexivity|]. split; [reflexivity|].
  split; [exact (Hall _ eq_refl) | exact (Hany _ eq_refl)].
Defined.

(* ------------------------------------------------------------------ *)
(** ** SkipLast and TakeLast *)

(** X10.  On a slice of length [n], for a count such that [n - count] is
    an [int], SkipLast(count) is the sequence of the first [n - count]
    elements and TakeLast(count) the sequence of the others: together they
    give the slice back; a count of zero or less skips nothing and takes
    nothing, a count of [n] or more skips everything and takes
    everything.  The subtraction is Go's: with the least [int] as count,
    [n - count] wraps to a negative number and SkipLast yields nothing
    while TakeLast yields everything. *)
Theorem SkipLast_TakeLast_split :
  (forall (T : Type) (l : list T) (count : Z),
      Z.of_nat (List.length l) < 2 ^ 63 ->
      isInt (Z.of_nat (List.length l) - count) ->
      sameSequence (Iterator_SkipLast (FromSlice l) count)
        (FromSlice (firstn (Z.to_nat (Z.of_nat (List.length l) - count)) l))
      /\ sameSequence (Iterator_TakeLast (FromSlice l) count)
           (FromSlice (skipn (Z.to_nat (Z.of_nat (List.length l) - count)) l))
      /\ (exists kept dropped,
             ToSlice (Iterator_SkipLast (FromSlice l) count) = Done kept
             /\ ToSlice (Iterator_TakeLast (FromSlice l) count) = Done dropped
             /\ kept ++ dropped = l)
      /\ (count <= 0 ->
          ToSlice (Iterator_SkipLast (FromSlice l) count) = Done l
          /\ ToSlice (Iterator_TakeLast (FromSlice l) count) = Done [])
      /\ (Z.of_nat (List.length l) <= count ->
          ToSlice (Iterator_SkipLast (FromSlice l) count) = Done []
          /\ ToSlice (Iterator_TakeLast (FromSlice l) count) = Done l))
  /\ ToSlice (Iterator_SkipLast (FromSlice [1; 2; 3]) (- 2 ^ 63)) = Done []
  /\ ToSlice (Iterator_TakeLast (FromSlice [1; 2; 3]) (- 2 ^ 63)) = Done [1; 2; 3].
Proof.
  split; [|split; reflexivity].
  intros T l count Hlen Hdiff.
  assert (Hskip : sameSequence (Iterator_SkipLast (FromSlice l) count)
                    (FromSlice (firstn (Z.to_nat (Z.of_nat (List.length l) - count)) l))).
  { intros S yield s. unfold Iterator_SkipLast, SkipLast_run.
    rewrite (Count_FromSlice l [] eq_refl Hlen). simpl bind.
    unfold int_sub. rewrite isInt_wrap64 by exact Hdiff.
    apply Take_run_FromSlice. apply Hdiff. }
  assert (Htake : sameSequence (Iterator_TakeLast (FromSlice l) count)
                    (FromSlice (skipn (Z.to_nat (Z.of_nat (List.length l) - count)) l))).
  { intros S yield s. unfold Iterator_TakeLast, TakeLast_run.
    rewrite (Count_FromSlice l [] eq_refl Hlen). simpl bind.
    unfold int_sub. rewrite isInt_wrap64 by exact Hdiff.
    apply Skip_run_FromSlice. apply Hdiff. }
  pose proof (sameSequence_ToSlice _ _ Hskip) as HskipSlice.
  pose proof (sameSequence_ToSlice _ _ Htake) as HtakeSlice.
  split; [exact Hskip|]. split; [exact Htake|]. split; [|split].
  - exists (firstn (Z.to_nat (Z.of_nat (List.length l) - count)) l),
           (skipn (Z.to_nat (Z.of_nat (List.length l) - count)) l).
    split; [exact HskipSlice|]. split; [exact HtakeSlice | apply firstn_skipn].
  - intros Hle. rewrite HskipSlice, HtakeSlice.
    rewrite firstn_all2, skipn_all2 by lia. split; reflexivity.
  - intros Hge. rewrite HskipSlice, HtakeSlice.
    replace (Z.to_nat (Z.of_nat (List.length l) - count)) with O by lia. split; reflexivity.
Qed.

Lemma SkipLast_TakeLast_split_witness :
  Z.of_nat (List.length [1; 2; 3; 4; 5; 6; 7]) < 2 ^ 63
  /\ isInt (Z.of_nat (List.length [1; 2; 3; 4; 5; 6; 7]) - 4)
  /\ ToSlice (Iterator_SkipLast (FromSlice [1; 2; 3; 4; 5; 6; 7]) 4) = Done [1; 2; 3]
  /\ ToSlice (Iterator_TakeLast (FromSlice [1; 2; 3; 4; 5; 6; 7]) 4) = Done [4; 5; 6; 7].
Proof.
  assert (Hlen : Z.of_nat (List.length [1; 2; 3; 4; 5; 6; 7]) < 2 ^ 63) by (simpl; lia).
  assert (Hdiff : isInt (Z.of_nat (List.length [1; 2; 3; 4; 5; 6; 7]) - 4))
    by (unfold isInt; simpl; lia).
  split; [exact Hlen|]. split; [exact Hdiff|].
  destruct SkipLast_TakeLast_split as [Hgeneral _].
  destruct (Hgeneral Z [1; 2; 3; 4; 5; 6; 7] 4 Hlen Hdiff) as (Hskip & Htake & _).
  split; [exact (sameSequence_ToSlice _ _ Hskip) | exact (sameSequence_ToSlice _ _ Htake)].
Defined.

(* ------------------------------------------------------------------ *)
(** ** ElementAt *)

Lemma ElementAt_loop_FromSlice {T : Type} (l : list T) :
  forall index : Z,
    0 <= index < 2 ^ 63 ->
    ('(_, ret) <- ElementAt_loop (FromSlice l) index ;; Done ret)
    = Done (nth_error l (Z.to_nat index)).
Proof.
  unfold ElementAt_loop.
  induction l as [|x l IH]; intros index Hindex.
  - simpl. now destruct (Z.to_nat index).
  - cbn [FromSlice]. cbv beta iota.
    destruct (index =? 0) eqn:Hzero; simpl.
    + apply Z.eqb_eq in Hzero. subst index. reflexivity.
    + apply Z.eqb_neq in Hzero.
      unfold int_sub. rewrite isInt_wrap64 by (unfold isInt; lia).
      rewrite IH by lia.
      replace (Z.to_nat index) with (Datatypes.S (Z.to_nat (index - 1))) by lia.
      reflexivity.
Qed.

(** X11.  ElementAt on a slice: a negative index, or one at or beyond the
    length, gives the index-out-of-range error; otherwise it gives the
    element at that index and no error.  ElementAtOrFallback returns the
    same element when there is one and the fallback otherwise;
    ElementAtOrDefault is ElementAtOrFallback with the zero value. *)
Theorem ElementAt_index :
  forall (T : Type) (G : GoType T) (l : list T) (index : Z),
    isInt index ->
    Iterator_ElementAt (FromSlice l) index
    = Done (if index <? 0 then (zero, Some ErrIndexOutOfRange)
            else match nth_error l (Z.to_nat index) with
                 | Some item => (item, None)
                 | None => (zero, Some ErrIndexOutOfRange)
                 end)
    /\ (forall fallback,
           Iterator_ElementAtOrFallback (FromSlice l) index fallback
           = Done (if index <? 0 then fallback
                   else match nth_error l (Z.to_nat index) with
                        | Some item => item
                        | None => fallback
                        end))
    /\ Iterator_ElementAtOrDefault (FromSlice l) index
       = Iterator_ElementAtOrFallback (FromSlice l) index zero
    /\ ((index < 0 \/ Z.of_nat (List.length l) <= index) ->
        Iterator_ElementAt (FromSlice l) index = Done (zero, Some ErrIndexOutOfRange)).
Proof.
  intros T G l index [_ Hindex].
  assert (Hat : Iterator_ElementAt (FromSlice l) index
                = Done (if index <? 0 then (zero, Some ErrIndexOutOfRange)
                        else match nth_error l (Z.to_nat index) with
                             | Some item => (item, None)
                             | None => (zero, Some ErrIndexOutOfRange)
                             end)).
  { unfold Iterator_ElementAt. destruct (index <? 0) eqn:Hneg; [reflexivity|].
    apply Z.ltb_ge in Hneg.
    pose proof (ElementAt_loop_FromSlice l index ltac:(lia)) as Hret.
    destruct (ElementAt_loop (FromSlice l) index) as [[index' ret]|msg];
      simpl in *; [|discriminate].
    injection Hret as ->. now destruct (nth_error l (Z.to_nat index)). }
  split; [exact Hat|]. split; [|split].
  - intros fallback. unfold Iterator_ElementAtOrFallback.
    destruct (index <? 0) eqn:Hneg; [reflexivity|].
    apply Z.ltb_ge in Hneg.
    pose proof (ElementAt_loop_FromSlice l index ltac:(lia)) as Hret.
    destruct (ElementAt_loop (FromSlice l) index) as [[index' ret]|msg];
      simpl in *; [|discriminate].
    injection Hret as ->. now destruct (nth_error l (Z.to_nat index)).
  - reflexivity.
  - intros Hout. rewrite Hat.
    destruct (index <? 0) eqn:Hneg; [reflexivity|].
    apply Z.ltb_ge in Hneg.
    assert (Hnone : nth_error l (Z.to_nat index) = None) by (apply nth_error_None; lia).
    now rewrite Hnone.
Qed.

Lemma ElementAt_index_witness :
  isInt 1 /\ isInt 5
  /\ (5 < 0 \/ Z.of_nat (List.length [10; 20; 30]) <= 5)
  /\ Iterator_ElementAt (FromSlice [10; 20; 30]) 1 = Done (20, None)
  /\ Iterator_ElementAt (FromSlice [10; 20; 30]) 5 = Done (0, Some ErrIndexOutOfRange).
Proof.
  assert (H1 : isInt 1) by (unfold isInt; lia).
  assert (H5 : isInt 5) by (unfold isInt; lia).
  assert (Hout : 5 < 0 \/ Z.of_nat (List.length [10; 20; 30]) <= 5) by (right; simpl; lia).
  split; [exact H1|]. split; [exact H5|]. split; [exact Hout|].
  split.
  - exact (proj1 (ElementAt_index Z _ [10; 20; 30] 1 H1)).
  - destruct (ElementAt_index Z _ [10; 20; 30] 5 H5) as (_ & _ & _ & Herr).
    exact (Herr Hout).
Defined.

(* ------------------------------------------------------------------ *)
(** ** The variants with a default or a fallback *)

(** Two loop bodies that keep a relation between their states and agree
    on whether to go on leave the loops over one slice in related
    states. *)
Lemma FromSlice_related {T S1 S2 : Type} (R : S1 -> S2 -> Prop)
    (f : Yield T S1) (g : Yield T S2) :
  (forall x s1 s2, R s1 s2 ->
     related (fun r1 r2 => snd r1 = snd r2 /\ R (fst r1) (fst r2)) (f x s1) (g x s2)) ->
  forall (l : list T) (s1 : S1) (s2 : S2),
    R s1 s2 -> related R (FromSlice l S1 f s1) (FromSlice l S2 g s2).
Proof.
  intros Hstep l. induction l as [|x l IH]; intros s1 s2 HR; simpl.
  - exact HR.
  - specialize (Hstep x s1 s2 HR).
    destruct (f x s1) as [[s1' c1]|m1], (g x s2) as [[s2' c2]|m2]; simpl in *;
      try contradiction; [|exact Hstep].
    destruct Hstep as [<- HR'].
    destruct c1; simpl; [now apply IH | exact HR'].
Qed.

(** A loop whose body never panics does not panic. *)
Lemma FromSlice_returns {T S : Type} (f : Yield T S) :
  (forall x s, exists r, f x s = Done r) ->
  forall (l : list T) (s : S), exists s', FromSlice l S f s = Done s'.
Proof.
  intros Hf l. induction l as [|x l IH]; intros s; simpl.
  - now exists s.
  - destruct (Hf x s) as [[s' c] ->]. simpl.
    destruct c; [apply IH | now exists s'].
Qed.

Section StrictAndFallback.
Context {T : Type} `{GoType T}.
Variable l : list T.
Variable predicate : list (option (generic_Predicate T)).
Variable fallback : T.

Lemma First_or_strict (otherwise : T) :
  First_or otherwise (FromSlice l) predicate
  = orElse otherwise (Iterator_First (FromSlice l) predicate).
Proof.
  unfold First_or, Iterator_First, orElse.
  destruct (suppliedPredicate predicate) as [p|].
  - pose proof (FromSlice_related
                  (fun (s1 : bool * option T) (s2 : option T) => snd s1 = s2)
                  (fun item '(any, ret) =>
                     if p item then Done ((true, Some item), false)
                     else Done ((true, ret), true))
                  (fun item ret =>
                     if p item then Done (Some item, false) else Done (ret, true))) as Hsim.
    specialize (Hsim ltac:(intros x [any ret] s2 <-; simpl; destruct (p x); simpl; auto)
                       l (false, None) None eq_refl).
    destruct (FromSlice l (bool * option T)%type _ (false, None)) as [[any ret]|m1],
             (FromSlice l (option T) _ None) as [ret'|m2];
      simpl in *; try contradiction; [|now subst].
    subst ret'. destruct ret; [reflexivity|]. now destruct (negb any).
  - destruct (FromSlice l (option T) (fun item _ => Done (Some item, false)) None)
      as [[item|]|m]; reflexivity.
Qed.

Lemma Last_or_strict (otherwise : T) :
  Last_or otherwise (FromSlice l) predicate
  = orElse otherwise (Iterator_Last (FromSlice l) predicate).
Proof.
  unfold Last_or, Iterator_Last, orElse.
  destruct (suppliedPredicate predicate) as [p|].
  - pose proof (FromSlice_related
                  (fun (s1 : bool * bool * T) (s2 : bool * T) =>
                     snd (fst s1) = fst s2 /\ snd s1 = snd s2)
                  (fun item '(any, found, result) =>
                     if p item then Done ((true, true, item), true)
                     else Done ((true, found, result), true))
                  (fun item '(found, result) =>
                     if p item then Done ((true, item), true)
                     else Done ((found, result), true))) as Hsim.
    specialize (Hsim ltac:(intros x [[any found] result] [found' result'] [Hf Hr];
                           simpl in *; subst; destruct (p x); simpl; auto)
                       l (false, false, zero) (false, zero) ltac:(split; reflexivity)).
    destruct (FromSlice l (bool * bool * T)%type _ (false, false, zero))
      as [[[any found] result]|m1],
             (FromSlice l (bool * T)%type _ (false, zero)) as [[found' result']|m2];
      simpl in *; try contradiction; [|now subst].
    destruct Hsim as [<- <-].
    destruct found; [reflexivity|]. now destruct (negb any).
  - pose proof (FromSlice_related
                  (fun (s1 s2 : bool * T) => s1 = s2)
                  (fun item '(found, result) => Done ((true, item), true))
                  (fun item (_ : bool * T) => Done ((true, item), true))) as Hsim.
    specialize (Hsim ltac:(intros x [found result] s2 <-; simpl; auto)
                       l (false, zero) (false, zero) eq_refl).
    destruct (FromSlice l (bool * T)%type
                (fun item '(found, result) => Done ((true, item), true)) (false, zero))
      as [[found result]|m1],
             (FromSlice l (bool * T)%type
                (fun item (_ : bool * T) => Done ((true, item), true)) (false, zero))
      as [[found' result']|m2];
      simpl in *; try contradiction; [|now subst].
    injection Hsim as <- <-. now destruct found.
Qed.

Lemma Single_loops_strict :
  match Single_loops (FromSlice l) predicate with
  | Done (found, result, returned) =>
      Iterator_Single (FromSlice l) predicate
      = Done (if returned : bool then
                (zero, Some (match suppliedPredicate predicate with
                             | Some _ => ErrMoreThanOneElementSatisfiesTheConditionInPredicate
                             | None => ErrSourceHasMoreThanOneElement
                             end))
              else if found : bool then (result, None)
              else (zero, Some (match suppliedPredicate predicate with
                                | Some _ =>
                                    match l with
                                    | [] => ErrSourceContainsNoElements
                                    | _ => ErrNoElementSatisfiesTheConditionInPredicate
                                    end
                                | None => ErrSourceContainsNoElements
                                end)))
      /\ (found = false -> result = zero)
  | Panic _ => False
  end.
Proof.
  unfold Single_loops, Iterator_Single.
  destruct (suppliedPredicate predicate) as [p|].
  - pose proof (FromSlice_related
                  (fun (s1 : bool * bool * T * option error) (s2 : bool * T * bool) =>
                     Single_step (snd (fst (fst s1)), snd (fst s1), snd s1) s2)
                  (fun item '(any, found, result, ret) =>
                     if p item then
                       if found : bool then
                         Done ((true, found, result,
                                Some ErrMoreThanOneElementSatisfiesTheConditionInPredicate),
                               false)
                       else Done ((true, true, item, ret), true)
                     else Done ((true, found, result, ret), true))
                  (fun item '(found, result, returned) =>
                     if p item then
                       if found : bool then Done ((found, result, true), false)
                       else Done ((true, item, returned), true)
                     else Done ((found, result, returned), true))) as Hsim.
    specialize (Hsim ltac:(intros x [[[any found] result] ret] [[found' result'] returned']
                                  (Hf & Hr & Hret & Hz);
                           simpl in *; subst;
                           destruct (p x); [destruct found'|]; simpl;
                           unfold Single_step; simpl; intuition congruence)).
    assert (Hany : forall (l0 : list T) any0,
              match FromSlice l0 (bool * bool * T * option error)%type
                      (fun item '(any, found, result, ret) =>
                         if p item then
                           if found : bool then
                             Done ((true, found, result,
                                    Some ErrMoreThanOneElementSatisfiesTheConditionInPredicate),
                                   false)
                           else Done ((true, true, item, ret), true)
                         else Done ((true, found, result, ret), true))
                      (any0, false, zero, None) with
              | Done (any, found, result, ret) =>
                  (found = false -> any = match l0 with [] => any0 | _ => true end)
                  /\ (forall err, ret = Some err ->
                      err = ErrMoreThanOneElementSatisfiesTheConditionInPredicate)
              | Panic _ => False
              end).
    { assert (Hfrom : forall (l0 : list T) any0 found0 result0,
                match FromSlice l0 (bool * bool * T * option error)%type
                        (fun item '(any, found, result, ret) =>
                           if p item then
                             if found : bool then
                               Done ((true, found, result,
                                      Some ErrMoreThanOneElementSatisfiesTheConditionInPredicate),
                                     false)
                             else Done ((true, true, item, ret), true)
                           else Done ((true, found, result, ret), true))
                        (any0, found0, result0, None) with
                | Done (any, found, result, ret) =>
                    (found = false -> found0 = false
                                      /\ any = match l0 with [] => any0 | _ => true end)
                    /\ (forall err, ret = Some err ->
                        err = ErrMoreThanOneElementSatisfiesTheConditionInPredicate)
                | Panic _ => False
                end).
      { induction l0 as [|x l0 IH]; intros any0 found0 result0; simpl.
        - split; [intros ->; now split | discriminate].
        - destruct (p x); simpl.
          + destruct found0; simpl.
            * split; [discriminate | now intros err [= <-]].
            * specialize (IH true true x).
              destruct (FromSlice l0 _ _ (true, true, x, None)) as [[[[a f] r] e]|m];
                [|contradiction].
              destruct IH as [IHf IHe]. split; [|exact IHe].
              intros ->. destruct (IHf eq_refl) as [Hcontra _]. discriminate.
          + specialize (IH true found0 result0).
            destruct (FromSlice l0 _ _ (true, found0, result0, None)) as [[[[a f] r] e]|m];
              [|contradiction].
            destruct IH as [IHf IHe]. split; [|exact IHe].
            intros ->. destruct (IHf eq_refl) as [-> ->]. split; [reflexivity|].
            now destruct l0. }
      intros l0 any0. specialize (Hfrom l0 any0 false zero).
      destruct (FromSlice l0 _ _ (any0, false, zero, None)) as [[[[a f] r] e]|m];
        [|contradiction].
      destruct Hfrom as [Hf He]. split; [|exact He].
      intros ->. now destruct (Hf eq_refl). }
    specialize (Hsim l (false, false, zero, None) (false, zero, false)
                  ltac:(unfold Single_step; simpl; intuition)).
    specialize (Hany l false).
    destruct (FromSlice l (bool * bool * T * option error)%type _ (false, false, zero, None))
      as [[[[any found] result] ret]|m1]; [|contradiction].
    destruct (FromSlice l (bool * T * bool)%type _ (false, zero, false))
      as [[[found' result'] returned']|m2]; simpl in Hsim; [|contradiction].
    destruct Hsim as (Hf & Hr & Hret & Hz). simpl in *. subst found' result'.
    destruct Hany as [Hanyf Herr].
    split; [|exact Hz].
    destruct ret as [err|]; subst returned'; simpl.
    + now rewrite (Herr err eq_refl).
    + destruct found; [reflexivity|].
      rewrite (Hanyf eq_refl). now destruct l.
  - pose proof (FromSlice_related
                  (fun (s1 : bool * T * option error) (s2 : bool * T * bool) =>
                     Single_step s1 s2
                     /\ (forall err, snd s1 = Some err ->
                         err = ErrSourceHasMoreThanOneElement))
                  (fun item '(found, result, ret) =>
                     if found : bool then
                       Done ((found, result, Some ErrSourceHasMoreThanOneElement), false)
                     else Done ((true, item, ret), true))
                  (fun item '(found, result, returned) =>
                     if found : bool then Done ((found, result, true), false)
                     else Done ((true, item, returned), true))) as Hsim.
    specialize (Hsim ltac:(intros x [[found result] ret] [[found' result'] returned']
                                  [(Hf & Hr & Hret & Hz) Herr];
                           simpl in *; subst;
                           destruct found'; simpl; unfold Single_step; simpl;
                           intuition congruence)
                       l (false, zero, None) (false, zero, false)
                       ltac:(unfold Single_step; simpl; intuition congruence)).
    destruct (FromSlice_returns
                (fun item '(found, result, ret) =>
                   if found : bool then
                     Done ((found, result, Some ErrSourceHasMoreThanOneElement), false)
                   else Done ((true, item, ret), true))
                ltac:(intros x [[found result] ret]; destruct found; eauto)
                l (false, zero, None)) as [[[found result] ret] Hrun].
    rewrite Hrun in *.
    destruct (FromSlice l (bool * T * bool)%type _ (false, zero, false))
      as [[[found' result'] returned']|m2];
      simpl in Hsim; [|contradiction].
    destruct Hsim as [(Hf & Hr & Hret & Hz) Herr]. simpl in *. subst found' result'.
    split; [|exact Hz].
    destruct ret as [err|]; subst returned'; simpl.
    + now rewrite (Herr err eq_refl).
    + now destruct found.
Qed.
End StrictAndFallback.

(** X12.  The variants with a fallback agree with the strict operators:
    on every slice and with every predicate argument, FirstOrFallback,
    LastOrFallback and SingleOrFallback return the element the strict
    operator returns when it returns one, and the fallback exactly when
    the strict operator returns an error (also when Single finds more
    than one match).  The OrDefault variants do the same with the zero
    value of the element type. *)
Theorem fallback_variants_follow_strict :
  forall (T : Type) (G : GoType T) (l : list T)
         (predicate : list (option (generic_Predicate T))) (fallback : T),
    Iterator_FirstOrFallback (FromSlice l) fallback predicate
    = orElse fallback (Iterator_First (FromSlice l) predicate)
    /\ Iterator_FirstOrDefault (FromSlice l) predicate
       = orElse zero (Iterator_First (FromSlice l) predicate)
    /\ Iterator_LastOrFallback (FromSlice l) fallback predicate
       = orElse fallback (Iterator_Last (FromSlice l) predicate)
    /\ Iterator_LastOrDefault (FromSlice l) predicate
       = orElse zero (Iterator_Last (FromSlice l) predicate)
    /\ Iterator_SingleOrFallback (FromSlice l) fallback predicate
       = orElse fallback (Iterator_Single (FromSlice l) predicate)
    /\ Iterator_SingleOrDefault (FromSlice l) predicate
       = orElse zero (Iterator_Single (FromSlice l) predicate).
Proof.
  intros T G l predicate fallback.
  split; [apply First_or_strict|]. split; [apply First_or_strict|].
  split; [apply Last_or_strict|]. split; [apply Last_or_strict|].
  pose proof (Single_loops_strict l predicate) as Hloops.
  unfold Iterator_SingleOrFallback, Iterator_SingleOrDefault, orElse.
  destruct (Single_loops (FromSlice l) predicate) as [[[found result] returned]|m];
    [|contradiction].
  destruct Hloops as [-> Hzero]. simpl.
  destruct returned; [split; reflexivity|].
  destruct found; [split; reflexivity|].
  rewrite (Hzero eq_refl). split; reflexivity.
Qed.

(* ------------------------------------------------------------------ *)
(** ** Contains, ContainsAny, ContainsAll *)

#[export] Instance LawfulEquality_int : LawfulEquality Z.
Proof.
  split.
  - intros Equal Hnone. discriminate.
  - intros x y _. apply Z.eqb_eq.
  - intros x y. apply Z.eqb_eq.
Qed.

#[export] Instance LawfulEquality_string : LawfulEquality string.
Proof.
  split.
  - intros Equal Hnone. discriminate.
  - intros x y _. apply String.eqb_eq.
  - intros x y. apply String.eqb_eq.
Qed.

Lemma Contains_loop_FromSlice {T : Type} (test : T -> bool) (l : list T) :
  Contains_loop test (FromSlice l) = Done (existsb test l).
Proof.
  unfold Contains_loop. induction l as [|x l IH]; simpl; [reflexivity|].
  destruct (test x); simpl; [reflexivity | exact IH].
Qed.

Lemma Contains_FromSlice {T : Type} `{GoType T}
    (comparer : list (option (generic_Equality T))) (l : list T) (value : T) :
  Iterator_Contains (FromSlice l) value comparer
  = Done (existsb (containsTest comparer value) l).
Proof.
  unfold Iterator_Contains, containsTest.
  destruct comparer as [|[c|] more]; try apply Contains_loop_FromSlice;
    destruct IEquatable; try apply Contains_loop_FromSlice;
    destruct (reflectComparable value); apply Contains_loop_FromSlice.
Qed.

Lemma containsTest_decides {T : Type} `{GoType T}
    (comparer : list (option (generic_Equality T))) :
  decidingEquality comparer ->
  forall value item, containsTest comparer value item = true <-> value = item.
Proof.
  unfold decidingEquality, containsTest. intros Hdec value item.
  assert (Hdefault : LawfulEquality T ->
            match IEquatable with
            | Some Equal => Equal value item
            | None => if reflectComparable value then reflectValueEqual value item
                      else DeepEqual item value
            end = true <-> value = item).
  { intros Hlaw. destruct IEquatable as [Equal|] eqn:Heq.
    - now apply (IEquatable_eq Equal).
    - destruct (reflectComparable value) eqn:Hcmp.
      + now apply reflectValueEqual_eq.
      + rewrite DeepEqual_eq. split; congruence. }
  destruct comparer as [|[c|] more]; [now apply Hdefault | | now apply Hdefault].
  rewrite (Hdec item value). split; congruence.
Qed.

Lemma existsb_decides {T : Type} (test : T -> T -> bool) (value : T) (l : list T) :
  (forall item, test value item = true <-> value = item) ->
  existsb (test value) l = true <-> In value l.
Proof.
  intros Htest. rewrite existsb_exists. split.
  - intros (item & Hin & Heq). apply Htest in Heq. now subst.
  - intros Hin. exists value. split; [exact Hin | now apply Htest].
Qed.

Lemma ContainsAny_FromSlice {T : Type} `{GoType T}
    (comparer : list (option (generic_Equality T))) (l values : list T) :
  Iterator_ContainsAny (FromSlice l) values comparer
  = Done (existsb (fun value => existsb (containsTest comparer value) l) values).
Proof.
  induction values as [|v values IH]; simpl; [reflexivity|].
  rewrite Contains_FromSlice. simpl.
  destruct (existsb (containsTest comparer v) l); [reflexivity | exact IH].
Qed.

Lemma ContainsAll_FromSlice {T : Type} `{GoType T}
    (comparer : list (option (generic_Equality T))) (l values : list T) :
  Iterator_ContainsAll (FromSlice l) values comparer
  = Done (forallb (fun value => existsb (containsTest comparer value) l) values).
Proof.
  induction values as [|v values IH]; simpl; [reflexivity|].
  rewrite Contains_FromSlice. simpl.
  destruct (existsb (containsTest comparer v) l); [exact IH | reflexivity].
Qed.

(** X13.  When the equality of the call decides equality (a comparer that
    does, or a type all of whose default tiers do), Contains on a slice
    returns true exactly when the value is an element of the slice,
    ContainsAny exactly when some of the values is, and ContainsAll exactly
    when all of them are; ContainsAny of no value is false and ContainsAll
    of no value is true. *)
Theorem Contains_membership :
  forall (T : Type) (G : GoType T) (comparer : list (option (generic_Equality T)))
         (l : list T),
    decidingEquality comparer ->
    (forall value,
        exists found,
          Iterator_Contains (FromSlice l) value comparer = Done found
          /\ (found = true <-> In value l))
    /\ (forall values,
           exists found,
             Iterator_ContainsAny (FromSlice l) values comparer = Done found
             /\ (found = true <-> exists value, In value values /\ In value l))
    /\ (forall values,
           exists found,
             Iterator_ContainsAll (FromSlice l) values comparer = Done found
             /\ (found = true <-> forall value, In value values -> In value l))
    /\ Iterator_ContainsAny (FromSlice l) [] comparer = Done false
    /\ Iterator_ContainsAll (FromSlice l) [] comparer = Done true.
Proof.
  intros T G comparer l Hdec.
  pose proof (containsTest_decides comparer Hdec) as Htest.
  split; [|split; [|split; [|split; reflexivity]]].
  - intros value. eexists. split; [apply Contains_FromSlice|].
    now apply existsb_decides.
  - intros values. eexists. split; [apply ContainsAny_FromSlice|].
    rewrite existsb_exists. split.
    + intros (value & Hin & Hfound). exists value. split; [exact Hin|].
      now apply (existsb_decides (containsTest comparer)) in Hfound.
    + intros (value & Hin & Hmem). exists value. split; [exact Hin|].
      now apply (existsb_decides (containsTest comparer)).
  - intros values. eexists. split; [apply ContainsAll_FromSlice|].
    rewrite forallb_forall. split.
    + intros Hall value Hin.
      now apply (existsb_decides (containsTest comparer)), Hall.
    + intros Hall value Hin.
      now apply (existsb_decides (containsTest comparer)), Hall.
Qed.

Lemma Contains_membership_witness :
  decidingEquality (T:=Z) []
  /\ Iterator_Contains (FromSlice [1; 2; 3]) 2 [] = Done true
  /\ Iterator_Contains (FromSlice [1; 2; 3]) 5 [] = Done false
  /\ Iterator_ContainsAll (FromSlice [1; 2; 3]) [3; 1] [] = Done true
  /\ Iterator_ContainsAny (FromSlice [1; 2; 3]) [7; 8] [] = Done false.
Proof.
  assert (Hdec : decidingEquality (T:=Z) []) by exact LawfulEquality_int.
  split; [exact Hdec|].
  destruct (Contains_membership Z _ [] [1; 2; 3] Hdec) as (Hone & Hany & Hall & _).
  repeat split; reflexivity.
Defined.

(* ------------------------------------------------------------------ *)
(** ** Distinct *)

Lemma firstOccurrences_fold {T : Type} (seen : T -> T -> bool) (l kept : list T) :
  firstOccurrences seen kept l
  = fold_left (fun kept x => if existsb (fun y => seen y x) kept then kept else kept ++ [x])
      l kept.
Proof.
  revert kept. induction l as [|x l IH]; intros kept; simpl; [reflexivity | apply IH].
Qed.

Lemma firstOccurrences_snoc {T : Type} (seen : T -> T -> bool) (l kept : list T) (x : T) :
  firstOccurrences seen kept (l ++ [x])
  = if existsb (fun y => seen y x) (firstOccurrences seen kept l)
    then firstOccurrences seen kept l
    else firstOccurrences seen kept l ++ [x].
Proof.
  rewrite !firstOccurrences_fold, fold_left_app. reflexivity.
Qed.

Lemma Distinct_collect {T : Type} `{GoType T}
    (comparer : list (option (generic_Equality T))) (l : list T) :
  FromSlice l (list T)
    (fun item result =>
       seen <- Iterator_Contains (FromSlice result) item comparer ;;
       Done (if seen : bool then result else result ++ [item], true))
    []
  = Done (firstOccurrences (fun y x => containsTest comparer x y) [] l).
Proof.
  rewrite (FromSlice_ext _
             (fun item result =>
                Done (if existsb (containsTest comparer item) result
                      then result else result ++ [item], true))).
  2:{ intros item result. now rewrite Contains_FromSlice. }
  rewrite (FromSlice_fold
             (fun item result =>
                if existsb (containsTest comparer item) result
                then result else result ++ [item])).
  now rewrite firstOccurrences_fold.
Qed.

Lemma Distinct_FromSlice {T : Type} `{GoType T}
    (comparer : list (option (generic_Equality T))) (l : list T) :
  sameSequence (Iterator_Distinct (FromSlice l) comparer)
    (FromSlice (firstOccurrences (fun y x => containsTest comparer x y) [] l)).
Proof.
  intros S yield s. unfold Iterator_Distinct.
  now rewrite Distinct_collect.
Qed.

Lemma Distinct_same {T : Type} `{GoType T}
    (comparer : list (option (generic_Equality T))) (a b : Iterator T) :
  sameSequence a b ->
  sameSequence (Iterator_Distinct a comparer) (Iterator_Distinct b comparer).
Proof. intros Hab S yield s. unfold Iterator_Distinct. now rewrite Hab. Qed.

Section FirstOccurrences.
Context {T : Type}.
Variable seen : T -> T -> bool.

Lemma noneSeenEarlier_snoc (kept : list T) (x : T) :
  noneSeenEarlier seen kept ->
  existsb (fun y => seen y x) kept = false ->
  noneSeenEarlier seen (kept ++ [x]).
Proof.
  unfold noneSeenEarlier. intros Hsorted Hnew.
  induction Hsorted as [|y kept Htail IH Hhead]; simpl in *.
  - constructor; constructor.
  - apply orb_false_iff in Hnew. destruct Hnew as [Hy Hkept].
    constructor; [now apply IH|].
    apply Forall_app. split; [exact Hhead | now constructor].
Qed.

Lemma firstOccurrences_facts (l : list T) :
  forall kept,
    noneSeenEarlier seen kept ->
    noneSeenEarlier seen (firstOccurrences seen kept l)
    /\ (forall x, In x (firstOccurrences seen kept l) -> In x kept \/ In x l)
    /\ (forall x, In x kept -> In x (firstOccurrences seen kept l))
    /\ (forall x, In x l ->
          In x (firstOccurrences seen kept l)
          \/ exists y, In y (firstOccurrences seen kept l) /\ seen y x = true).
Proof.
  induction l as [|x l IH]; intros kept Hkept; simpl.
  - split; [exact Hkept|]. split; [now left|]. split; [trivial | contradiction].
  - destruct (existsb (fun y => seen y x) kept) eqn:Hseen.
    + destruct (IH kept Hkept) as (Hsorted & Hsub & Hmono & Hcover).
      split; [exact Hsorted|]. split; [|split; [exact Hmono|]].
      * intros z Hz. destruct (Hsub z Hz); [now left | right; now right].
      * intros z [<-|Hz]; [|now apply Hcover].
        right. apply existsb_exists in Hseen. destruct Hseen as (y & Hy & Hyx).
        exists y. split; [now apply Hmono | exact Hyx].
    + destruct (IH (kept ++ [x]) (noneSeenEarlier_snoc kept x Hkept Hseen))
        as (Hsorted & Hsub & Hmono & Hcover).
      split; [exact Hsorted|]. split; [|split].
      * intros z Hz. destruct (Hsub z Hz) as [Hin|Hin]; [|right; now right].
        apply in_app_iff in Hin. destruct Hin as [Hin|[<-|[]]]; [now left|right; now left].
      * intros z Hz. apply Hmono, in_app_iff. now left.
      * intros z [<-|Hz]; [|now apply Hcover].
        left. apply Hmono, in_app_iff. right. now left.
Qed.

Lemma firstOccurrences_fixed (l : list T) :
  forall kept,
    noneSeenEarlier seen (kept ++ l) ->
    firstOccurrences seen kept l = kept ++ l.
Proof.
  induction l as [|x l IH]; intros kept Hsorted; simpl.
  - now rewrite app_nil_r.
  - assert (Hnew : existsb (fun y => seen y x) kept = false).
    { apply not_true_is_false. intros Hseen.
      apply existsb_exists in Hseen. destruct Hseen as (y & Hy & Hyx).
      unfold noneSeenEarlier in Hsorted.
      clear IH. induction kept as [|k kept IHk]; [contradiction|].
      simpl in Hsorted. inversion Hsorted as [|? ? Htail Hhead]; subst.
      destruct Hy as [->|Hy]; [|now apply IHk].
      rewrite Forall_forall in Hhead.
      specialize (Hhead x ltac:(apply in_app_iff; right; now left)). congruence. }
    rewrite Hnew.
    replace (kept ++ x :: l) with ((kept ++ [x]) ++ l) by now rewrite <- app_assoc.
    apply IH. now rewrite <- app_assoc.
Qed.
End FirstOccurrences.

(** X14.  Distinct, with any comparer or none, keeps from a slice each
    element that the equality test of the call does not match against an
    element kept before it: what it yields are elements of the slice, no
    yielded element is matched by one yielded earlier, and every element
    of the slice is yielded or matched by a yielded one.
    Applying Distinct twice is the same as applying it once, whatever the
    comparer. *)
Theorem Distinct_first_occurrences :
  forall (T : Type) (G : GoType T) (comparer : list (option (generic_Equality T)))
         (l : list T),
    exists kept,
      sameSequence (Iterator_Distinct (FromSlice l) comparer) (FromSlice kept)
      /\ ToSlice (Iterator_Distinct (FromSlice l) comparer) = Done kept
      /\ noneSeenEarlier (fun y x => containsTest comparer x y) kept
      /\ (forall x, In x kept -> In x l)
      /\ (forall x, In x l ->
            In x kept \/ exists y, In y kept /\ containsTest comparer x y = true)
      /\ sameSequence
           (Iterator_Distinct (Iterator_Distinct (FromSlice l) comparer) comparer)
           (Iterator_Distinct (FromSlice l) comparer).
Proof.
  intros T G comparer l.
  set (seen := fun y x => containsTest comparer x y).
  exists (firstOccurrences seen [] l).
  pose proof (Distinct_FromSlice comparer l) as Hsame. fold seen in Hsame.
  destruct (firstOccurrences_facts seen l [] ltac:(constructor))
    as (Hsorted & Hsub & _ & Hcover).
  split; [exact Hsame|]. split; [now apply sameSequence_ToSlice|].
  split; [exact Hsorted|]. split; [|split; [exact Hcover|]].
  - intros x Hx. destruct (Hsub x Hx) as [[]|Hin]. exact Hin.
  - eapply sameSequence_trans; [apply Distinct_same; exact Hsame|].
    eapply sameSequence_trans; [apply Distinct_FromSlice|].
    fold seen. rewrite (firstOccurrences_fixed seen _ [] Hsorted). simpl.
    intros S yield s. symmetry. apply Hsame.
Qed.

Lemma firstOccurrences_nodup {T : Type} (seen : T -> T -> bool)
    (dec : forall x y : T, {x = y} + {x <> y}) (l : list T) :
  (forall y x, seen y x = true <-> x = y) ->
  firstOccurrences seen [] l = rev (nodup dec (rev l)).
Proof.
  intros Hseen.
  induction l as [|x l IH] using rev_ind; [reflexivity|].
  rewrite firstOccurrences_snoc, IH, rev_app_distr. simpl.
  assert (Hmem : existsb (fun y => seen y x) (rev (nodup dec (rev l))) = true
                 <-> In x (rev l)).
  { rewrite existsb_exists. split.
    - intros (y & Hy & Hyx). apply Hseen in Hyx. subst y.
      apply in_rev in Hy. now apply nodup_In in Hy.
    - intros Hin. exists x. split; [|now apply Hseen].
      apply in_rev. rewrite rev_involutive. now apply nodup_In. }
  destruct (in_dec dec x (rev l)) as [Hin|Hout].
  - apply Hmem in Hin. now rewrite Hin.
  - destruct (existsb (fun y => seen y x) (rev (nodup dec (rev l)))) eqn:Hex.
    + exfalso. apply Hout. now apply Hmem.
    + reflexivity.
Qed.

(** X15.  When the equality of the call decides equality, Distinct on a
    slice yields every element of the slice exactly once, at the place of
    its first occurrence: the result has no repetition, has the same
    elements as the slice, and is the slice with every later repetition
    removed. *)
Theorem Distinct_no_repetition :
  forall (T : Type) (G : GoType T) (comparer : list (option (generic_Equality T)))
         (dec : forall x y : T, {x = y} + {x <> y}) (l : list T),
    decidingEquality comparer ->
    ToSlice (Iterator_Distinct (FromSlice l) comparer) = Done (rev (nodup dec (rev l)))
    /\ NoDup (rev (nodup dec (rev l)))
    /\ (forall x, In x (rev (nodup dec (rev l))) <-> In x l)
    /\ sameSequence (Iterator_Distinct (FromSlice l) comparer)
         (FromSlice (rev (nodup dec (rev l)))).
Proof.
  intros T G comparer dec l Hdec.
  pose proof (containsTest_decides comparer Hdec) as Htest.
  assert (Hrewrite : firstOccurrences (fun y x => containsTest comparer x y) [] l
                     = rev (nodup dec (rev l))).
  { apply firstOccurrences_nodup. intros y x. apply Htest. }
  pose proof (Distinct_FromSlice comparer l) as Hsame. rewrite Hrewrite in Hsame.
  split; [now apply sameSequence_ToSlice|]. split; [|split; [|exact Hsame]].
  - apply NoDup_rev, NoDup_nodup.
  - intros x. rewrite <- in_rev, nodup_In, <- in_rev. reflexivity.
Qed.

Lemma Distinct_no_repetition_witness :
  decidingEquality (T:=Z) []
  /\ ToSlice (Iterator_Distinct (FromSlice [1; 2; 3; 1; 2; 3; 4]) []) = Done [1; 2; 3; 4].
Proof.
  assert (Hdec : decidingEquality (T:=Z) []) by exact LawfulEquality_int.
  split; [exact Hdec|].
  exact (proj1 (Distinct_no_repetition Z _ [] Z.eq_dec [1; 2; 3; 1; 2; 3; 4] Hdec)).
Defined.

(* ------------------------------------------------------------------ *)
(** ** Intersect, Except, Union *)

(** The inner loop of the nested loops: over a slice, it yields [item]
    once for every element the test matches. *)
Lemma Except_inner {T S : Type} (eq : T -> T -> bool) (yield : Yield T S) (item : T)
    (lb : list T) :
  forall s : S,
    FromSlice lb (S * bool)%type
      (fun other '(s, _) =>
         equal <- Done (eq item other) ;;
         if equal : bool then
           '(s', continue) <- yield item s ;;
           Done ((s', negb continue), continue)
         else Done ((s, false), true))
      (s, false)
    = FromSlice (map (fun _ => item) (filter (eq item) lb)) (S * bool)%type
        (fun item '(s, _) =>
           '(s', continue) <- yield item s ;;
           Done ((s', negb continue), continue))
        (s, false).
Proof.
  induction lb as [|x lb IH]; intros s; simpl; [reflexivity|].
  destruct (eq item x); simpl; [|apply IH].
  destruct (yield item s) as [[s' [|]]|msg]; simpl; [apply IH | reflexivity | reflexivity].
Qed.

Lemma Except_loops_FromSlice {T : Type} `{GoType T} (eq : T -> T -> bool)
    (a b : Iterator T) (la lb : list T) :
  sameSequence a (FromSlice la) ->
  sameSequence b (FromSlice lb) ->
  sameSequence (Except_loops (fun item other => Done (eq item other)) a b)
    (FromSlice (flat_map (fun item => map (fun _ => item) (filter (eq item) lb)) la)).
Proof.
  intros Ha Hb S yield s. unfold Except_loops. rewrite Ha.
  rewrite (FromSlice_ext _
             (fun item '(s, _) =>
                '(s', returned) <-
                   FromSlice (map (fun _ => item) (filter (eq item) lb)) (S * bool)%type
                     (fun item '(s, _) =>
                        '(s', continue) <- yield item s ;;
                        Done ((s', negb continue), continue))
                     (s, false) ;;
                Done ((s', returned), negb returned))).
  2:{ intros item [s0 flag]. rewrite Hb. now rewrite Except_inner. }
  clear Ha. revert s. induction la as [|x la IH]; intros s; [reflexivity|].
  cbn [FromSlice flat_map]. cbv beta iota.
  rewrite <- FromSlice_app.
  destruct (FromSlice (map (fun _ => x) (filter (eq x) lb)) (S * bool)%type _ (s, false))
    as [[s' [|]]|msg]; simpl; [reflexivity | apply IH | reflexivity].
Qed.

Lemma filter_decides_NoDup {T : Type} (eq : T -> T -> bool)
    (dec : forall x y : T, {x = y} + {x <> y}) (item : T) (lb : list T) :
  decides eq -> NoDup lb ->
  map (fun _ => item) (filter (eq item) lb)
  = if in_dec dec item lb then [item] else [].
Proof.
  intros Hdec Hnodup. induction Hnodup as [|x lb Hout Hnodup IH]; [reflexivity|].
  simpl. destruct (eq item x) eqn:Heq.
  - apply Hdec in Heq. subst x. simpl.
    destruct (dec item item) as [_|Hne]; [|contradiction].
    rewrite IH. destruct (in_dec dec item lb); [contradiction | reflexivity].
  - rewrite IH.
    destruct (dec x item) as [->|Hne].
    + assert (Hrefl : eq item item = true) by now apply Hdec. congruence.
    + destruct (in_dec dec item lb); reflexivity.
Qed.

Lemma flat_map_filter {T : Type} (keep : T -> bool) (la : list T) :
  flat_map (fun item => if keep item then [item] else []) la = filter keep la.
Proof.
  induction la as [|x la IH]; simpl; [reflexivity|].
  rewrite IH. now destruct (keep x).
Qed.

Section SetOperators.
Context {T : Type} `{GoType T}.
Variable dec : forall x y : T, {x = y} + {x <> y}.
Variable comparer : list (option (generic_Equality T)).
Hypothesis comparer_decides : decidingEquality comparer.

Lemma Distinct_withoutRepetition (l : list T) :
  sameSequence (Iterator_Distinct (FromSlice l) comparer) (FromSlice (rev (nodup dec (rev l)))).
Proof.
  pose proof (Distinct_FromSlice comparer l) as Hsame.
  rewrite (firstOccurrences_nodup _ dec) in Hsame; [exact Hsame|].
  intros y x. now apply containsTest_decides.
Qed.

Lemma in_withoutRepetition (x : T) (l : list T) :
  In x (rev (nodup dec (rev l))) <-> In x l.
Proof. rewrite <- in_rev, nodup_In, <- in_rev. reflexivity. Qed.

Lemma common_elements (eq : T -> T -> bool) (l r : list T) :
  decides eq ->
  flat_map (fun item => map (fun _ => item) (filter (eq item) (rev (nodup dec (rev r))))) (rev (nodup dec (rev l)))
  = filter (fun x => if in_dec dec x r then true else false) (rev (nodup dec (rev l))).
Proof.
  intros Heq.
  rewrite <- flat_map_filter. apply flat_map_ext. intros item.
  rewrite (filter_decides_NoDup eq dec) by (auto; apply NoDup_rev, NoDup_nodup).
  destruct (in_dec dec item (rev (nodup dec (rev r)))) as [Hin|Hout], (in_dec dec item r) as [Hin'|Hout'];
    try reflexivity; exfalso.
  - apply Hout'. now apply in_withoutRepetition.
  - apply Hout. now apply in_withoutRepetition.
Qed.

Lemma Intersect_common (l r : list T) :
  (forall more, comparer <> None :: more) ->
  sameSequence (Iterator_Intersect (FromSlice l) (FromSlice r) comparer)
    (FromSlice (filter (fun x => if in_dec dec x r then true else false) (rev (nodup dec (rev l)))))
  /\ sameSequence (Iterator_Except (FromSlice l) (FromSlice r) comparer)
       (FromSlice (filter (fun x => if in_dec dec x r then true else false) (rev (nodup dec (rev l))))).
Proof.
  intros Hnotnil.
  assert (Hloops : forall eq : T -> T -> bool,
            decides eq ->
            forall a b,
              sameSequence a (FromSlice (rev (nodup dec (rev l)))) ->
              sameSequence b (FromSlice (rev (nodup dec (rev r)))) ->
              sameSequence (Except_loops (fun item other => Done (eq item other)) a b)
                (FromSlice (filter (fun x => if in_dec dec x r then true else false)
                              (rev (nodup dec (rev l)))))).
  { intros eq Heq a b Ha Hb.
    rewrite <- (common_elements eq l r Heq).
    now apply Except_loops_FromSlice. }
  unfold Iterator_Intersect, Iterator_Except.
  destruct comparer as [|[c|] more] eqn:Hcomparer.
  - assert (Hlaw : LawfulEquality T) by exact comparer_decides.
    assert (Hdistinct : forall l0, sameSequence (Iterator_Distinct (FromSlice l0) [])
                                     (FromSlice (rev (nodup dec (rev l0))))).
    { intros l0. pose proof (Distinct_FromSlice [] l0) as Hsame.
      rewrite (firstOccurrences_nodup _ dec) in Hsame; [exact Hsame|].
      intros y x. now apply (containsTest_decides []). }
    destruct IEquatable as [Equal|] eqn:Heq.
    + split; apply (Hloops Equal); auto; intros x y; now apply (IEquatable_eq Equal).
    + split; apply (Hloops DeepEqual); auto; intros x y; apply DeepEqual_eq.
  - assert (Hc : decides c) by exact comparer_decides.
    assert (Hdistinct : forall l0, sameSequence (Iterator_Distinct (FromSlice l0) [Some c])
                                     (FromSlice (rev (nodup dec (rev l0))))).
    { intros l0. pose proof (Distinct_FromSlice [Some c] l0) as Hsame.
      rewrite (firstOccurrences_nodup _ dec) in Hsame; [exact Hsame|].
      intros y x. now apply (containsTest_decides [Some c]). }
    split; apply (Hloops c); auto.
  - exfalso. now apply (Hnotnil more).
Qed.

Lemma Union_joined (l r : list T) :
  sameSequence (Iterator_Union (FromSlice l) (FromSlice r) comparer)
    (FromSlice (rev (nodup dec (rev l))
                ++ filter (fun x => if in_dec dec x l then false else true) (rev (nodup dec (rev r))))).
Proof.
  intros S yield s. unfold Iterator_Union.
  rewrite (Distinct_withoutRepetition l).
  rewrite <- FromSlice_app.
  destruct (FromSlice (rev (nodup dec (rev l))) (S * bool)%type _ (s, false)) as [[s' [|]]|msg];
    simpl; [reflexivity | | reflexivity].
  rewrite (Distinct_withoutRepetition r).
  rewrite (FromSlice_ext _
             (fun item s =>
                if (if in_dec dec item l then false else true) then yield item s
                else Done (s, true))).
  2:{ intros item s0. rewrite Contains_FromSlice. simpl.
      pose proof (existsb_decides (containsTest comparer) item l
                    (containsTest_decides comparer comparer_decides item)) as Hmem.
      destruct (in_dec dec item l) as [Hin|Hout].
      - apply Hmem in Hin. now rewrite Hin.
      - destruct (existsb (containsTest comparer item) l) eqn:Hex; [|reflexivity].
        exfalso. apply Hout. now apply Hmem. }
  apply (Where_FromSlice (fun x => if in_dec dec x l then false else true) (rev (nodup dec (rev r)))).
Qed.
End SetOperators.

(** X16.  When the equality of the call decides equality (and the
    comparer argument is not an explicit nil), Intersect on two slices
    yields, once each and in the order of their first occurrence in the
    left slice, exactly the elements of the left slice that are also in
    the right slice.  Except has the same body and yields the same
    sequence: every element it yields is an element of the right slice. *)
Theorem Intersect_Except_common_elements :
  forall (T : Type) (G : GoType T) (dec : forall x y : T, {x = y} + {x <> y})
         (comparer : list (option (generic_Equality T))) (l r : list T),
    decidingEquality comparer ->
    (forall more, comparer <> None :: more) ->
    exists common,
      sameSequence (Iterator_Intersect (FromSlice l) (FromSlice r) comparer)
        (FromSlice common)
      /\ sameSequence (Iterator_Except (FromSlice l) (FromSlice r) comparer)
           (FromSlice common)
      /\ ToSlice (Iterator_Intersect (FromSlice l) (FromSlice r) comparer) = Done common
      /\ ToSlice (Iterator_Except (FromSlice l) (FromSlice r) comparer) = Done common
      /\ common = filter (fun x => if in_dec dec x r then true else false)
                    (rev (nodup dec (rev l)))
      /\ NoDup common
      /\ (forall x, In x common <-> In x l /\ In x r).
Proof.
  intros T G dec comparer l r Hdec Hnotnil.
  destruct (Intersect_common dec comparer Hdec l r Hnotnil) as [Hinter Hexcept].
  eexists. split; [exact Hinter|]. split; [exact Hexcept|].
  split; [now apply sameSequence_ToSlice|]. split; [now apply sameSequence_ToSlice|].
  split; [reflexivity|]. split.
  - apply NoDup_filter, NoDup_rev, NoDup_nodup.
  - intros x. rewrite filter_In, (in_withoutRepetition dec).
    destruct (in_dec dec x r); intuition congruence.
Qed.

Lemma Intersect_Except_common_elements_witness :
  decidingEquality (T:=Z) []
  /\ (forall more, @nil (option (generic_Equality Z)) <> None :: more)
  /\ ToSlice (Iterator_Intersect (FromSlice [1; 2; 3; 1; 2; 3]) (FromSlice [1; 2; 1; 1]) [])
     = Done [1; 2].
Proof.
  assert (Hdec : decidingEquality (T:=Z) []) by exact LawfulEquality_int.
  assert (Hnotnil : forall more, @nil (option (generic_Equality Z)) <> None :: more)
    by discriminate.
  split; [exact Hdec|]. split; [exact Hnotnil|].
  destruct (Intersect_Except_common_elements Z _ Z.eq_dec []
              [1; 2; 3; 1; 2; 3] [1; 2; 1; 1] Hdec Hnotnil)
    as (common & _ & _ & Hslice & _ & -> & _).
  exact Hslice.
Defined.

(** X17.  When the equality of the call decides equality, Union on two
    slices yields the elements of the left slice without repetition, then
    the elements of the right slice that are not in the left one, without
    repetition: the result has no repetition and holds exactly the
    elements of either slice. *)
Theorem Union_all_elements :
  forall (T : Type) (G : GoType T) (dec : forall x y : T, {x = y} + {x <> y})
         (comparer : list (option (generic_Equality T))) (l r : list T),
    decidingEquality comparer ->
    exists union,
      sameSequence (Iterator_Union (FromSlice l) (FromSlice r) comparer) (FromSlice union)
      /\ ToSlice (Iterator_Union (FromSlice l) (FromSlice r) comparer) = Done union
      /\ union = rev (nodup dec (rev l))
                 ++ filter (fun x => if in_dec dec x l then false else true)
                      (rev (nodup dec (rev r)))
      /\ NoDup union
      /\ (forall x, In x union <-> In x l \/ In x r).
Proof.
  intros T G dec comparer l r Hdec.
  pose proof (Union_joined dec comparer Hdec l r) as Hunion.
  eexists. split; [exact Hunion|]. split; [now apply sameSequence_ToSlice|].
  split; [reflexivity|]. split.
  - apply NoDup_app.
    + apply NoDup_rev, NoDup_nodup.
    + apply NoDup_filter, NoDup_rev, NoDup_nodup.
    + intros x Hleft Hright. apply filter_In in Hright. destruct Hright as [_ Hout].
      apply (in_withoutRepetition dec x l) in Hleft.
      destruct (in_dec dec x l) as [Hin|Hnotin]; [discriminate Hout | now apply Hnotin].
  - intros x. rewrite in_app_iff, filter_In, !(in_withoutRepetition dec).
    destruct (in_dec dec x l); intuition congruence.
Qed.

Lemma Union_all_elements_witness :
  decidingEquality (T:=Z) []
  /\ ToSlice (Iterator_Union (FromSlice [1; 2; 1; 3]) (FromSlice [3; 4; 4; 1; 5]) [])
     = Done [1; 2; 3; 4; 5].
Proof.
  assert (Hdec : decidingEquality (T:=Z) []) by exact LawfulEquality_int.
  split; [exact Hdec|].
  destruct (Union_all_elements Z _ Z.eq_dec [] [1; 2; 1; 3] [3; 4; 4; 1; 5] Hdec)
    as (union & _ & Hslice & -> & _).
  exact Hslice.
Defined.

(* ------------------------------------------------------------------ *)
(** ** Zip and Join *)

Lemma Zip_loop {A B S : Type} (yield : Yield (ValuePair A B) S) (b : list B) (a : list A) :
  forall (calls : nat) (s : S),
    ('(_, s') <- FromSlice a (nat * S)%type
         (fun item1 '(calls, s) =>
            next <- Done (nth_error b calls) ;;
            match next with
            | None => Done ((Datatypes.S calls, s), false)
            | Some item2 =>
                '(s', continue) <- yield (mkValuePair item1 item2) s ;;
                Done ((Datatypes.S calls, s'), continue)
            end)
         (calls, s) ;;
     Done s')
    = FromSlice (map (fun p => mkValuePair (fst p) (snd p)) (combine a (skipn calls b)))
        S yield s.
Proof.
  induction a as [|x a IH]; intros calls s; [reflexivity|].
  cbn [FromSlice]. cbv beta iota. rewrite bind_Done.
  rewrite (nth_error_skipn b calls).
  destruct (skipn calls b) as [|y rest] eqn:Hskip; [reflexivity|].
  cbn [hd_error combine map FromSlice fst snd].
  destruct (yield (mkValuePair x y) s) as [[s' [|]]|msg]; simpl; [|reflexivity|reflexivity].
  rewrite IH. now rewrite (skipn_S_tail b calls Hskip).
Qed.

(** X18.  Zip on two slices yields the pairs of the elements at the same
    positions, in order, and ends with the shorter slice: the result has
    the length of the shorter one, its first components are a prefix of
    the first slice and its second components a prefix of the second. *)
Theorem Zip_pairs_by_position :
  forall (A B : Type) (G : GoType B) (a : list A) (b : list B),
    let pairs := map (fun p => mkValuePair (fst p) (snd p)) (combine a b) in
    sameSequence (Zip (FromSlice a) (FromSlice b)) (FromSlice pairs)
    /\ ToSlice (Zip (FromSlice a) (FromSlice b)) = Done pairs
    /\ List.length pairs = Nat.min (List.length a) (List.length b)
    /\ map Item1 pairs = firstn (List.length pairs) a
    /\ map Item2 pairs = firstn (List.length pairs) b.
Proof.
  intros A B G a b pairs.
  assert (Hsame : sameSequence (Zip (FromSlice a) (FromSlice b)) (FromSlice pairs)).
  { intros S yield s. unfold Zip.
    rewrite (FromSlice_ext _
               (fun item1 '(calls, s) =>
                  next <- Done (nth_error b calls) ;;
                  match next with
                  | None => Done ((Datatypes.S calls, s), false)
                  | Some item2 =>
                      '(s', continue) <- yield (mkValuePair item1 item2) s ;;
                      Done ((Datatypes.S calls, s'), continue)
                  end)).
    2:{ intros item1 [calls s0]. now rewrite Pull_next_FromSlice. }
    apply (Zip_loop yield b a O s). }
  split; [exact Hsame|]. split; [now apply sameSequence_ToSlice|].
  subst pairs. rewrite length_map, length_combine. split; [reflexivity|].
  rewrite !map_map. cbn [Item1 Item2 fst snd].
  split.
  - clear. revert b. induction a as [|x a IH]; intros [|y b]; simpl; try reflexivity.
    f_equal. apply IH.
  - clear. revert b. induction a as [|x a IH]; intros [|y b]; simpl; try reflexivity.
    f_equal. apply IH.
Qed.

Lemma join_inner {TOuter TInner TKey TResult S : Type} (eq : TKey -> TKey -> bool)
    (innerKeySelector : TInner -> TKey) (resultSelector : TOuter -> TInner -> TResult)
    (yield : Yield TResult S) (outerItem : TOuter) (outerKey : TKey) (lb : list TInner) :
  forall s : S,
    FromSlice lb (S * bool)%type
      (fun innerItem '(s, _) =>
         if eq outerKey (innerKeySelector innerItem) then
           '(s', continue) <- yield (resultSelector outerItem innerItem) s ;;
           Done ((s', negb continue), continue)
         else Done ((s, false), true))
      (s, false)
    = FromSlice
        (map (resultSelector outerItem)
           (filter (fun innerItem => eq outerKey (innerKeySelector innerItem)) lb))
        (S * bool)%type
        (fun item '(s, _) =>
           '(s', continue) <- yield item s ;;
           Done ((s', negb continue), continue))
        (s, false).
Proof.
  induction lb as [|x lb IH]; intros s; simpl; [reflexivity|].
  destruct (eq outerKey (innerKeySelector x)); simpl; [|apply IH].
  destruct (yield (resultSelector outerItem x) s) as [[s' [|]]|msg]; simpl;
    [apply IH | reflexivity | reflexivity].
Qed.

Lemma join_loops_FromSlice {TOuter TInner TKey TResult : Type} `{GoType TKey}
    (eq : TKey -> TKey -> bool) (la : list TOuter) (lb : list TInner)
    (outerKeySelector : TOuter -> TKey) (innerKeySelector : TInner -> TKey)
    (resultSelector : TOuter -> TInner -> TResult) :
  sameSequence
    (join_loops eq (FromSlice la) (FromSlice lb) outerKeySelector innerKeySelector
       resultSelector)
    (FromSlice
       (flat_map
          (fun outerItem =>
             map (resultSelector outerItem)
               (filter (fun innerItem =>
                          eq (outerKeySelector outerItem) (innerKeySelector innerItem)) lb))
          la)).
Proof.
  intros S yield s. unfold join_loops.
  revert s. induction la as [|x la IH]; intros s; [reflexivity|].
  cbn [FromSlice flat_map]. cbv beta iota zeta.
  rewrite <- FromSlice_app.
  rewrite (join_inner eq innerKeySelector resultSelector yield x (outerKeySelector x) lb s).
  destruct (FromSlice _ (S * bool)%type _ (s, false)) as [[s' [|]]|msg]; simpl;
    [reflexivity | apply IH | reflexivity].
Qed.

(** X19.  Join on two slices yields, for every outer element in order and
    then every inner element in order, the result of the result selector
    on the two when their keys are equal.  The keys are compared with the
    first comparer when it is not nil; with no comparer, or a nil one,
    with the key type's Equal when it has one, and with deep equality
    otherwise. *)
Theorem Join_matching_pairs :
  forall (TOuter TInner TKey TResult : Type) (G : GoType TKey)
         (outer : list TOuter) (inner : list TInner)
         (outerKeySelector : TOuter -> TKey) (innerKeySelector : TInner -> TKey)
         (resultSelector : TOuter -> TInner -> TResult)
         (comparer : list (option (generic_Equality TKey))),
    let joined :=
      flat_map
        (fun outerItem =>
           map (resultSelector outerItem)
             (filter (fun innerItem =>
                        resolvedEquality comparer (outerKeySelector outerItem)
                          (innerKeySelector innerItem)) inner))
        outer in
    sameSequence
      (Join (FromSlice outer) (FromSlice inner) outerKeySelector innerKeySelector
         resultSelector comparer)
      (FromSlice joined)
    /\ ToSlice (Join (FromSlice outer) (FromSlice inner) outerKeySelector innerKeySelector
                  resultSelector comparer) = Done joined
    /\ (forall more : list (option (generic_Equality TKey)),
          sameSequence
            (Join (FromSlice outer) (FromSlice inner) outerKeySelector innerKeySelector
               resultSelector (None :: more))
            (Join (FromSlice outer) (FromSlice inner) outerKeySelector innerKeySelector
               resultSelector [])).
Proof.
  intros TOuter TInner TKey TResult G outer inner oks iks rs comparer joined.
  assert (Hsame : sameSequence
                    (Join (FromSlice outer) (FromSlice inner) oks iks rs comparer)
                    (FromSlice joined)).
  { subst joined. unfold Join, resolvedEquality.
    destruct comparer as [|[c|] more]; [| apply join_loops_FromSlice |];
      destruct IEquatable; apply join_loops_FromSlice. }
  split; [exact Hsame|]. split; [now apply sameSequence_ToSlice|].
  intros more S yield s. reflexivity.
Qed.

(* ------------------------------------------------------------------ *)
(** ** Min, Max, MinMax *)

Section Survivor.
Context {T : Type}.
Variable better : T -> T -> bool.

Lemma select_loop (l : list T) :
  forall (found : bool) (m : T),
    FromSlice l (bool * T)%type
      (fun item '(found, held) =>
         if negb found then Done ((true, item), true)
         else Done ((found, if better item held then item else held), true))
      (found, m)
    = Done (match l with
            | [] => (found, m)
            | first :: rest =>
                (true, if found then survivor better l m else survivor better rest first)
            end).
Proof.
  induction l as [|x l IH]; intros found m; [reflexivity|].
  cbn [FromSlice]. cbv beta iota.
  destruct found; cbn [negb bind]; rewrite IH; destruct l; reflexivity.
Qed.

Hypothesis better_irreflexive : forall x, better x x = false.
Hypothesis better_transitive :
  forall x y z, better x y = true -> better y z = true -> better x z = true.
Hypothesis better_negatively_transitive :
  forall x y z, better x y = false -> better y z = false -> better x z = false.

Lemma survivor_best (l : list T) :
  forall m,
    In (survivor better l m) (m :: l)
    /\ forall y, In y (m :: l) -> better y (survivor better l m) = false.
Proof.
  induction l as [|x l IH]; intros m; cbn [survivor fold_left].
  - split; [now left|]. intros y [<-|[]]. apply better_irreflexive.
  - fold (survivor better l (if better x m then x else m)).
    destruct (IH (if better x m then x else m)) as [Hin Hbest].
    set (m' := survivor better l (if better x m then x else m)) in *.
    assert (Hheld : better (if better x m then x else m) m' = false)
      by (apply Hbest; now left).
    split.
    + destruct Hin as [Hin|Hin]; [|now right; right].
      rewrite <- Hin. destruct (better x m); [right; now left | now left].
    + intros y [<-|[<-|Hy]].
      * destruct (better x m) eqn:Hxm.
        -- destruct (better m m') eqn:Hmm'; [|reflexivity].
           rewrite (better_transitive x m m' Hxm Hmm') in Hheld. discriminate.
        -- exact Hheld.
      * destruct (better x m) eqn:Hxm.
        -- exact Hheld.
        -- exact (better_negatively_transitive x m m' Hxm Hheld).
      * apply Hbest. now right.
Qed.
End Survivor.

Lemma pair_loop {T : Type} (lt gt : T -> T -> bool) :
  (forall x y, gt x y = lt y x) ->
  (forall x y z, lt x y = true -> lt y z = true -> lt x z = true) ->
  forall (l : list T) (min max : T),
    lt max min = false ->
    FromSlice l (bool * T * T)%type
      (fun item '(found, min, max) =>
         if negb found then Done ((true, item, item), true)
         else if lt item min then Done ((found, item, max), true)
         else if gt item max then Done ((found, min, item), true)
         else Done ((found, min, max), true))
      (true, min, max)
    = Done (true, survivor lt l min, survivor gt l max).
Proof.
  intros Hgt Htrans. induction l as [|x l IH]; intros min max Hordered; [reflexivity|].
  cbn [FromSlice survivor fold_left]. cbv beta iota. cbn [negb].
  fold (survivor lt l (if lt x min then x else min)).
  fold (survivor gt l (if gt x max then x else max)).
  destruct (lt x min) eqn:Hlt.
  - assert (Hmax : lt max x = false).
    { destruct (lt max x) eqn:Hmx; [|reflexivity].
      rewrite (Htrans max x min Hmx Hlt) in Hordered. discriminate. }
    rewrite (Hgt x max), Hmax. cbn [bind]. now apply IH.
  - destruct (gt x max) eqn:Hgtx; cbn [bind]; now apply IH.
Qed.

Lemma StrictWeakOrdering_flip {T : Type} (c : T -> T -> Z) :
  StrictWeakOrdering c -> StrictWeakOrdering (fun x y => c y x).
Proof.
  intros [Hirr Htrans Hneg]. split.
  - intros x. apply Hirr.
  - intros x y z Hxy Hyz. exact (Htrans z y x Hyz Hxy).
  - intros x y z Hxy Hyz. exact (Hneg z y x Hyz Hxy).
Qed.

(** A boolean test that reflects "less" of a strict weak ordering lets
    the loop end on an element that nothing is better than. *)
Lemma survivor_of_ordering {T : Type} (better : T -> T -> bool) (c : T -> T -> Z) :
  (forall x y, better x y = true <-> c x y < 0) ->
  StrictWeakOrdering c ->
  forall (l : list T) (m : T),
    In (survivor better l m) (m :: l)
    /\ forall y, In y (m :: l) -> ~ c y (survivor better l m) < 0.
Proof.
  intros Hreflects [Hirr Htrans Hneg] l m.
  assert (Hfalse : forall x y, better x y = false <-> ~ c x y < 0).
  { intros x y. rewrite <- Hreflects. now destruct (better x y). }
  destruct (survivor_best better) with (l := l) (m := m) as [Hin Hbest].
  - intros x. apply Hfalse, Hirr.
  - intros x y z Hxy Hyz. apply Hreflects. apply (Htrans x y z); now apply Hreflects.
  - intros x y z Hxy Hyz. apply Hfalse. apply (Hneg x y z); now apply Hfalse.
  - split; [exact Hin|]. intros y Hy. now apply Hfalse, Hbest.
Qed.

Lemma ltb_reflects {T : Type} (c : T -> T -> Z) (x y : T) :
  (c x y <? 0) = true <-> c x y < 0.
Proof. apply Z.ltb_lt. Qed.

Lemma gtb_reflects {T : Type} (c : T -> T -> Z) :
  LawfulComparison c -> forall x y, (c x y >? 0) = true <-> c y x < 0.
Proof.
  intros Hlaw x y. rewrite Z.gtb_ltb, Z.ltb_lt, <- (lawful_greater Hlaw). lia.
Qed.

Section ExtremaOfSlices.
Context {T : Type} `{GoType T}.
Variable c : T -> T -> Z.
Hypothesis c_lawful : LawfulComparison c.

(** The loop that keeps the item the held one is less than ends on a
    greatest element. *)
Lemma survivor_inverted_greatest (first : T) (rest : list T) :
  greatest c (survivor (fun item held => c held item <? 0) rest first) (first :: rest).
Proof.
  apply (survivor_of_ordering _ (fun x y => c y x));
    [intros; apply ltb_reflects | apply StrictWeakOrdering_flip, c_lawful].
Qed.

(** The loop that keeps the item the held one is greater than ends on a
    least element. *)
Lemma survivor_inverted_least (first : T) (rest : list T) :
  least c (survivor (fun item held => c held item >? 0) rest first) (first :: rest).
Proof.
  apply (survivor_of_ordering _ c); [intros; now apply gtb_reflects | apply c_lawful].
Qed.

End ExtremaOfSlices.

Section ExtremaUnderLess.
Context {T : Type} `{GoType T}.
Variable lessThan : T -> T -> bool.
Hypothesis lessThan_strict : StrictWeakLess lessThan.

(** The loop that keeps the item that is [<] than the held one ends on an
    element that nothing is [<] than. *)
Lemma survivor_leastUnder (first : T) (rest : list T) :
  leastUnder lessThan (survivor (fun item held => lessThan item held) rest first)
    (first :: rest).
Proof.
  apply (survivor_best (fun item held => lessThan item held)).
  - apply (less_irreflexive lessThan_strict).
  - apply (less_transitive lessThan_strict).
  - apply (less_negatively_transitive lessThan_strict).
Qed.

(** The loop that keeps the item that the held one is [<] than ends on an
    element that is [<] than nothing. *)
Lemma survivor_greatestUnder (first : T) (rest : list T) :
  greatestUnder lessThan (survivor (fun item held => lessThan held item) rest first)
    (first :: rest).
Proof.
  apply (survivor_best (fun item held => lessThan held item)).
  - apply (less_irreflexive lessThan_strict).
  - intros x y z Hxy Hyz. exact (less_transitive lessThan_strict z y x Hyz Hxy).
  - intros x y z Hxy Hyz.
    exact (less_negatively_transitive lessThan_strict z y x Hyz Hxy).
Qed.

Lemma minmax_FromSlice (l : list T) :
  minmax lessThan (FromSlice l)
  = Done (match l with
          | [] => (zero, zero, Some ErrSourceContainsNoElements)
          | first :: rest =>
              (survivor (fun item held => lessThan item held) rest first,
               survivor (fun item held => lessThan held item) rest first, None)
          end).
Proof.
  unfold minmax. destruct l as [|first rest]; [reflexivity|].
  cbn [FromSlice]. cbv beta iota. cbn [negb bind].
  rewrite (pair_loop (fun item held => lessThan item held)
             (fun item held => lessThan held item)).
  - reflexivity.
  - reflexivity.
  - apply (less_transitive lessThan_strict).
  - apply (less_irreflexive lessThan_strict).
Qed.
End ExtremaUnderLess.

Lemma Z_ltb_strict : StrictWeakLess Z.ltb.
Proof.
  split.
  - apply Z.ltb_irrefl.
  - intros x y z Hxy Hyz. apply Z.ltb_lt in Hxy, Hyz. apply Z.ltb_lt. lia.
  - intros x y z Hxy Hyz. apply Z.ltb_ge in Hxy, Hyz. apply Z.ltb_ge. lia.
Qed.

Lemma Min_loop_FromSlice {T : Type} `{GoType T} (better : T -> T -> bool) (l : list T) :
  Min_loop (fun held item => Done (better item held)) (FromSlice l)
  = Done (match l with
          | [] => (zero, Some ErrSourceContainsNoElements)
          | first :: rest => (survivor better rest first, None)
          end).
Proof.
  unfold Min_loop.
  rewrite (FromSlice_ext _
             (fun item '(found, held) =>
                if negb found then Done ((true, item), true)
                else Done ((found, if better item held then item else held), true))).
  2:{ intros item [[|] held]; reflexivity. }
  rewrite select_loop. now destruct l.
Qed.

Lemma Max_loop_FromSlice {T : Type} `{GoType T} (better : T -> T -> bool) (l : list T) :
  Max_loop (fun held item => Done (better item held)) (FromSlice l)
  = Done (match l with
          | [] => (zero, Some ErrSourceContainsNoElements)
          | first :: rest => (survivor better rest first, None)
          end).
Proof.
  unfold Max_loop.
  rewrite (FromSlice_ext _
             (fun item '(found, held) =>
                if negb found then Done ((true, item), true)
                else Done ((found, if better item held then item else held), true))).
  2:{ intros item [[|] held]; reflexivity. }
  rewrite select_loop. now destruct l.
Qed.

Lemma cmp_Compare_int_lawful : LawfulComparison cmp_Compare_int.
Proof.
  split; [apply cmp_Compare_int_swo|].
  intros x y. unfold cmp_Compare_int.
  destruct (x <? y) eqn:Hxy, (y <? x) eqn:Hyx;
    try apply Z.ltb_lt in Hxy; try apply Z.ltb_lt in Hyx; lia.
Qed.

(** X20.  At an ordered type whose operator [<] is a strict weak
    ordering (the integer kinds and string; not the float kinds, where
    NaN is neither less nor greater than a number), the functions Min,
    Max and MinMax on a slice that is not empty return an element of the
    slice that no element is [<] than, respectively that is [<] than no
    element, and MinMax returns the pair that Min and Max return; the
    error is nil.  On the empty slice each returns the zero value with
    ErrSourceContainsNoElements, whatever the operator. *)
Theorem Min_Max_MinMax_functions :
  forall (T : Type) (G : GoType T) (C : Comparable T) (l : list T),
    StrictWeakLess (cmp_Less (T:=T)) ->
    match l with
    | [] =>
        Min (FromSlice l) = Done (zero, Some ErrSourceContainsNoElements)
        /\ Max (FromSlice l) = Done (zero, Some ErrSourceContainsNoElements)
        /\ MinMax (FromSlice l) = Done (zero, zero, Some ErrSourceContainsNoElements)
    | _ :: _ =>
        exists min max,
          Min (FromSlice l) = Done (min, None)
          /\ Max (FromSlice l) = Done (max, None)
          /\ MinMax (FromSlice l) = Done (min, max, None)
          /\ leastUnder cmp_Less min l
          /\ greatestUnder cmp_Less max l
    end.
Proof.
  intros T G C l Hstrict. destruct l as [|first rest]; [repeat split|].
  exists (survivor (fun item held => cmp_Less item held) rest first),
         (survivor (fun item held => cmp_Less held item) rest first).
  split; [|split; [|split; [|split]]].
  - unfold Min.
    rewrite (FromSlice_ext _
               (fun item '(found, held) =>
                  if negb found then Done ((true, item), true)
                  else Done ((found, if cmp_Less item held then item else held), true))).
    2:{ intros item [[|] held]; cbn [negb]; [|reflexivity].
        now destruct (cmp_Less item held). }
    now rewrite (select_loop (fun item held => cmp_Less item held)).
  - unfold Max.
    rewrite (FromSlice_ext _
               (fun item '(found, held) =>
                  if negb found then Done ((true, item), true)
                  else Done ((found, if cmp_Less held item then item else held), true))).
    2:{ intros item [[|] held]; cbn [negb]; [|reflexivity].
        now destruct (cmp_Less held item). }
    now rewrite (select_loop (fun item held => cmp_Less held item)).
  - pose proof (minmax_FromSlice cmp_Less Hstrict (first :: rest)) as Hminmax.
    unfold minmax in Hminmax. unfold MinMax.
    destruct (FromSlice (first :: rest) (bool * T * T)%type _ (false, zero, zero))
      as [[[[|] min] max]|msg]; cbn in Hminmax |- *; congruence.
  - now apply survivor_leastUnder.
  - now apply survivor_greatestUnder.
Qed.

Lemma Min_Max_MinMax_functions_witness :
  StrictWeakLess (cmp_Less (T:=Z))
  /\ exists min max,
       Min (FromSlice [3; 1; 2; 1; 3]) = Done (min, None)
       /\ Max (FromSlice [3; 1; 2; 1; 3]) = Done (max, None)
       /\ MinMax (FromSlice [3; 1; 2; 1; 3]) = Done (min, max, None)
       /\ leastUnder cmp_Less min [3; 1; 2; 1; 3]
       /\ greatestUnder cmp_Less max [3; 1; 2; 1; 3].
Proof.
  split; [exact Z_ltb_strict|].
  exact (Min_Max_MinMax_functions Z _ _ [3; 1; 2; 1; 3] Z_ltb_strict).
Defined.

(** X21.  Without a comparer, at a primitive kind (no Compare method, one
    of the kinds of the type switch) whose operator [<] is a strict weak
    ordering (the integer kinds and string; not the float kinds, because
    of NaN), the methods Min, Max and MinMax on a slice that is not empty
    return, through [minmax], an element that no element is [<] than,
    respectively that is [<] than no element, with a nil error; on the
    empty slice they return the zero value with
    ErrSourceContainsNoElements, whatever the operator. *)
Theorem Min_Max_MinMax_primitive :
  forall (T : Type) (G : GoType T) (c : T -> T -> Z) (l : list T),
    IComparable = None ->
    primitive = Some c ->
    StrictWeakLess (primitiveLess (T:=T)) ->
    match l with
    | [] =>
        Iterator_Min (FromSlice l) [] = Done (zero, Some ErrSourceContainsNoElements)
        /\ Iterator_Max (FromSlice l) [] = Done (zero, Some ErrSourceContainsNoElements)
        /\ Iterator_MinMax (FromSlice l) []
           = Done (zero, zero, Some ErrSourceContainsNoElements)
    | _ :: _ =>
        exists min max,
          Iterator_Min (FromSlice l) [] = Done (min, None)
          /\ Iterator_Max (FromSlice l) [] = Done (max, None)
          /\ Iterator_MinMax (FromSlice l) [] = Done (min, max, None)
          /\ leastUnder primitiveLess min l
          /\ greatestUnder primitiveLess max l
    end.
Proof.
  intros T G c l Hnone Hprimitive Hstrict.
  unfold Iterator_Min, Iterator_Max, Iterator_MinMax.
  rewrite Hnone, Hprimitive, (minmax_FromSlice primitiveLess Hstrict l).
  destruct l as [|first rest]; [repeat split|].
  eexists _, _. repeat split; try reflexivity.
  - now apply survivor_leastUnder.
  - now apply survivor_leastUnder.
  - now apply survivor_greatestUnder.
  - now apply survivor_greatestUnder.
Qed.

Lemma Min_Max_MinMax_primitive_witness :
  IComparable (T:=Z) = None
  /\ primitive = Some cmp_Compare_int
  /\ StrictWeakLess (primitiveLess (T:=Z))
  /\ exists min max,
       Iterator_Min (FromSlice [3; 1; 2; 1; 3]) [] = Done (min, None)
       /\ Iterator_Max (FromSlice [3; 1; 2; 1; 3]) [] = Done (max, None)
       /\ Iterator_MinMax (FromSlice [3; 1; 2; 1; 3]) [] = Done (min, max, None)
       /\ leastUnder primitiveLess min [3; 1; 2; 1; 3]
       /\ greatestUnder primitiveLess max [3; 1; 2; 1; 3].
Proof.
  split; [reflexivity|]. split; [reflexivity|]. split; [exact Z_ltb_strict|].
  exact (Min_Max_MinMax_primitive Z _ cmp_Compare_int [3; 1; 2; 1; 3]
           eq_refl eq_refl Z_ltb_strict).
Defined.

(** X22.  With a comparer that is a lawful comparison, the methods apply
    it with the held element first: on a slice that is not empty Min
    returns an element that no element is greater than, Max one that no
    element is less than, and MinMax returns the two in that order, the
    greatest as [min] and the least as [max]. *)
Theorem Min_Max_MinMax_comparer_exchanged :
  forall (T : Type) (G : GoType T) (c : T -> T -> Z)
         (more : list (option (generic_Comparison T))) (first : T) (rest : list T),
    LawfulComparison c ->
    exists high low,
      Iterator_Min (FromSlice (first :: rest)) (Some c :: more) = Done (high, None)
      /\ Iterator_Max (FromSlice (first :: rest)) (Some c :: more) = Done (low, None)
      /\ Iterator_MinMax (FromSlice (first :: rest)) (Some c :: more)
         = Done (high, low, None)
      /\ greatest c high (first :: rest)
      /\ least c low (first :: rest).
Proof.
  intros T G c more first rest Hlaw.
  exists (survivor (fun item held => c held item <? 0) rest first),
         (survivor (fun item held => c held item >? 0) rest first).
  split; [|split; [|split; [|split]]].
  - unfold Iterator_Min.
    now rewrite (Min_loop_FromSlice (fun item held => c held item <? 0)).
  - unfold Iterator_Max.
    now rewrite (Max_loop_FromSlice (fun item held => c held item >? 0)).
  - unfold Iterator_MinMax. cbn [FromSlice]. cbv beta iota. cbn [negb bind].
    rewrite (pair_loop (fun item held => c held item <? 0)
               (fun item held => c held item >? 0)).
    + reflexivity.
    + intros x y. destruct (c y x >? 0) eqn:Hgt.
      * symmetry. apply Z.ltb_lt. now apply (gtb_reflects c Hlaw).
      * destruct (c x y <? 0) eqn:Hlt; [|reflexivity].
        apply Z.ltb_lt, (gtb_reflects c Hlaw) in Hlt. congruence.
    + intros x y z Hxy Hyz. apply Z.ltb_lt in Hxy, Hyz. apply Z.ltb_lt.
      exact (swo_transitive (lawful_less Hlaw) z y x Hyz Hxy).
    + apply Z.ltb_ge. pose proof (swo_irreflexive (lawful_less Hlaw) first). lia.
  - now apply survivor_inverted_greatest.
  - now apply survivor_inverted_least.
Qed.

Lemma Min_Max_MinMax_comparer_exchanged_witness :
  LawfulComparison cmp_Compare_int
  /\ exists high low,
       Iterator_Min (FromSlice [2; 1; 3; 2]) [Some cmp_Compare_int] = Done (high, None)
       /\ Iterator_Max (FromSlice [2; 1; 3; 2]) [Some cmp_Compare_int] = Done (low, None)
       /\ Iterator_MinMax (FromSlice [2; 1; 3; 2]) [Some cmp_Compare_int]
          = Done (high, low, None)
       /\ greatest cmp_Compare_int high [2; 1; 3; 2]
       /\ least cmp_Compare_int low [2; 1; 3; 2].
Proof.
  split; [exact cmp_Compare_int_lawful|].
  exact (Min_Max_MinMax_comparer_exchanged Z _ cmp_Compare_int [] 2 [1; 3; 2]
           cmp_Compare_int_lawful).
Defined.

Lemma last_cons {T : Type} (x d : T) (l : list T) : last (x :: l) d = last l x.
Proof.
  revert x d. induction l as [|y l IH]; intros x d; [reflexivity|].
  change (last (x :: y :: l) d) with (last (y :: l) d). now rewrite !IH.
Qed.

Lemma survivor_last {T : Type} (test : T -> bool) (l : list T) :
  forall m, survivor (fun item _ => test item) l m = last (filter test l) m.
Proof.
  induction l as [|x l IH]; intros m; [reflexivity|].
  cbn [survivor fold_left filter].
  fold (survivor (fun item _ => test item) l (if test x then x else m)).
  rewrite IH. destruct (test x); [now rewrite last_cons | reflexivity].
Qed.

Lemma receiver_pair_loop {T : Type} (lt gt : T -> bool) (l : list T) :
  forall min max : T,
    FromSlice l (bool * T * T)%type
      (fun item '(found, min, max) =>
         if negb found then Done ((true, item, item), true)
         else Done ((found, (if lt item then item else min),
                     (if gt item then item else max)), true))
      (true, min, max)
    = Done (true, last (filter lt l) min, last (filter gt l) max).
Proof.
  induction l as [|x l IH]; intros min max; [reflexivity|].
  cbn [FromSlice filter]. cbv beta iota. cbn [negb bind]. rewrite IH.
  destruct (lt x), (gt x); now rewrite ?last_cons.
Qed.

(** X23.  Without a comparer, at a type with a Compare method, the
    receiver of Compare is the zero value bound before the loop and not
    the element held: on a slice that is not empty Max returns the last
    element after the first that the zero value compares greater than,
    Min the last one that the zero value compares less than, each the
    first element when there is no such element, and MinMax returns the
    two. *)
Theorem Min_Max_MinMax_zero_receiver :
  forall (T : Type) (G : GoType T) (Compare : T -> T -> Z) (first : T) (rest : list T),
    IComparable = Some Compare ->
    let min := last (filter (fun item => Compare zero item <? 0) rest) first in
    let max := last (filter (fun item => Compare zero item >? 0) rest) first in
    Iterator_Min (FromSlice (first :: rest)) [] = Done (min, None)
    /\ Iterator_Max (FromSlice (first :: rest)) [] = Done (max, None)
    /\ Iterator_MinMax (FromSlice (first :: rest)) [] = Done (min, max, None).
Proof.
  intros T G Compare first rest Hcompare min max. subst min max.
  unfold Iterator_Min, Iterator_Max, Iterator_MinMax. rewrite Hcompare.
  split; [|split].
  - rewrite (Min_loop_FromSlice (fun item _ => Compare zero item <? 0)).
    now rewrite survivor_last.
  - rewrite (Max_loop_FromSlice (fun item _ => Compare zero item >? 0)).
    now rewrite survivor_last.
  - cbn [FromSlice]. cbv beta iota. cbn [negb bind].
    now rewrite (receiver_pair_loop (fun item => Compare zero item <? 0)
                   (fun item => Compare zero item >? 0)).
Qed.

Lemma Min_Max_MinMax_zero_receiver_witness :
  @IComparable Z GoType_orderedInt = Some cmp_Compare_int
  /\ @Iterator_Min Z GoType_orderedInt (FromSlice [5; -1; 7; -3; 2]) [] = Done (2, None)
  /\ @Iterator_Max Z GoType_orderedInt (FromSlice [5; -1; 7; -3; 2]) [] = Done (-3, None)
  /\ @Iterator_MinMax Z GoType_orderedInt (FromSlice [5; -1; 7; -3; 2]) []
     = Done (2, -3, None).
Proof.
  split; [reflexivity|].
  exact (Min_Max_MinMax_zero_receiver Z GoType_orderedInt cmp_Compare_int 5 [-1; 7; -3; 2]
           eq_refl).
Defined.

(* ------------------------------------------------------------------ *)
(** ** The descending orders and the function Order *)

(** X24.  Let [slices.SortFunc] be any function meeting its documented
    contract.  For every slice and every resolved comparison that is a
    strict weak ordering, the method OrderDescending and the function
    OrderDescending yield a permutation of the input in which no element
    is less than a later one, OrderByDescending one in which no key is
    less than a later key, and the function Order with a comparer one in
    which no element is less than an earlier one.  With a nil comparer
    and at least two elements the descending orders panic. *)
Theorem descending_orders_sorted_permutation :
  forall SortFunc : forall E : Type, (E -> E -> Z) -> list E -> list E,
    SortFunc_contract SortFunc ->
    (forall (T : Type) (G : GoType T) (compare : list (option (T -> T -> Z)))
            (c : T -> T -> Z) (l : list T),
        resolvedComparison compare = Some c ->
        StrictWeakOrdering c ->
        exists output,
          ToSlice (Iterator_OrderDescending SortFunc (FromSlice l) compare) = Done output
          /\ Permutation l output
          /\ nonIncreasing c output)
    /\ (forall (T : Type) (C : Comparable T) (compare : list (option (T -> T -> Z)))
               (c : T -> T -> Z) (l : list T),
           resolvedKeyComparison compare = Some c ->
           StrictWeakOrdering c ->
           exists output,
             ToSlice (OrderDescending SortFunc (FromSlice l) compare) = Done output
             /\ Permutation l output
             /\ nonIncreasing c output)
    /\ (forall (T V : Type) (C : Comparable V) (valueSelector : T -> V)
               (compare : list (option (V -> V -> Z))) (c : V -> V -> Z) (l : list T),
           resolvedKeyComparison compare = Some c ->
           StrictWeakOrdering c ->
           exists output,
             ToSlice (OrderByDescending SortFunc (FromSlice l) valueSelector compare)
             = Done output
             /\ Permutation l output
             /\ nonIncreasing (fun x y => c (valueSelector x) (valueSelector y)) output)
    /\ (forall (Sort : forall E : Type, Comparable E -> list E -> list E)
               (T : Type) (C : Comparable T) (c : T -> T -> Z)
               (more : list (option (T -> T -> Z))) (l : list T),
           StrictWeakOrdering c ->
           exists output,
             ToSlice (Order SortFunc Sort (FromSlice l) (Some c :: more)) = Done output
             /\ Permutation l output
             /\ nonDecreasing c output)
    /\ (forall (T : Type) (G : GoType T) (C : Comparable T)
               (more : list (option (T -> T -> Z))) (x y : T) (l : list T),
           ToSlice (Iterator_OrderDescending SortFunc (FromSlice (x :: y :: l))
                      (None :: more))
           = Panic "invalid memory address or nil pointer dereference"
           /\ ToSlice (OrderDescending SortFunc (FromSlice (x :: y :: l)) (None :: more))
              = Panic "invalid memory address or nil pointer dereference"
           /\ ToSlice (OrderByDescending SortFunc (FromSlice (x :: y :: l))
                         (fun item => item) (None :: more))
              = Panic "invalid memory address or nil pointer dereference").
Proof.
  intros SortFunc Hcontract.
  assert (Hflip : forall (E : Type) (c : E -> E -> Z) (l : list E),
             StrictWeakOrdering c ->
             Permutation l (SortFunc E (fun x y => c y x) l)
             /\ nonIncreasing c (SortFunc E (fun x y => c y x) l)).
  { intros E c l Hswo.
    exact (Hcontract E (fun x y => c y x) l (StrictWeakOrdering_flip c Hswo)). }
  split; [|split; [|split; [|split]]].
  - intros T G compare c l Hresolved Hswo.
    exists (SortFunc T (fun x y => c y x) l).
    split; [|now apply Hflip].
    unfold ToSlice, Iterator_OrderDescending. rewrite collect_FromSlice. simpl bind.
    unfold resolvedComparison in Hresolved.
    destruct compare as [|[c0|] more].
    + destruct IComparable as [Compare|].
      * injection Hresolved as ->. simpl. apply collect_FromSlice.
      * rewrite Hresolved. simpl. apply collect_FromSlice.
    + injection Hresolved as ->. simpl. apply collect_FromSlice.
    + discriminate.
  - intros T C compare c l Hresolved Hswo.
    exists (SortFunc T (fun x y => c y x) l).
    split; [|now apply Hflip].
    unfold ToSlice, OrderDescending. rewrite collect_FromSlice. simpl bind.
    unfold resolvedKeyComparison in Hresolved.
    destruct compare as [|[c0|] more]; [| |discriminate];
      injection Hresolved as ->; simpl; apply collect_FromSlice.
  - intros T V C valueSelector compare c l Hresolved Hswo.
    set (pairs := map (fun item => mkValuePair item (valueSelector item)) l).
    set (byKey := fun x y : ValuePair T V => c (Item2 y) (Item2 x)).
    destruct (Hcontract _ byKey pairs
                (StrictWeakOrdering_flip _ (swo_on_keys Item2 c Hswo)))
      as [Hperm Hsorted].
    assert (Hkeys : forall pair, In pair (SortFunc _ byKey pairs) ->
                                 Item2 pair = valueSelector (Item1 pair)).
    { intros pair Hin.
      apply (Permutation_in pair (Permutation_sym Hperm)) in Hin.
      apply in_map_iff in Hin. destruct Hin as (item & <- & _). reflexivity. }
    exists (map Item1 (SortFunc _ byKey pairs)).
    split; [|split].
    + unfold ToSlice, OrderByDescending. rewrite collect_pairs. simpl bind.
      unfold resolvedKeyComparison in Hresolved.
      destruct compare as [|[c0|] more]; [| |discriminate];
        injection Hresolved as ->; simpl; apply collect_FromSlice.
    + replace l with (map Item1 pairs) at 1; [now apply Permutation_map|].
      subst pairs. rewrite map_map. simpl. apply map_id.
    + exact (nonDecreasing_carried_keys valueSelector (fun x y => c y x) _ Hkeys Hsorted).
  - intros Sort T C c more l Hswo.
    exists (SortFunc T c l). split; [|now apply Hcontract].
    unfold ToSlice, Order. rewrite collect_FromSlice. simpl. apply collect_FromSlice.
  - intros T G C more x y l.
    unfold ToSlice, Iterator_OrderDescending, OrderDescending, OrderByDescending.
    rewrite collect_pairs, !collect_FromSlice. repeat split.
Qed.

Lemma descending_orders_sorted_permutation_witness :
  SortFunc_contract insertionSort
  /\ (exists output,
         ToSlice (Iterator_OrderDescending insertionSort (FromSlice [3; 1; 2; 1]) [])
         = Done output
         /\ Permutation [3; 1; 2; 1] output
         /\ nonIncreasing cmp_Compare_int output)
  /\ (exists output,
         ToSlice (OrderByDescending insertionSort (FromSlice [30; 11; 25; 12])
                    (fun x => Z.quot x 10) []) = Done output
         /\ Permutation [30; 11; 25; 12] output
         /\ nonIncreasing
              (fun x y => cmp_Compare_int (Z.quot x 10) (Z.quot y 10)) output).
Proof.
  destruct (descending_orders_sorted_permutation insertionSort insertionSort_contract)
    as (Hmethod & _ & Hby & _).
  split; [exact insertionSort_contract|]. split.
  - exact (Hmethod Z _ [] cmp_Compare_int [3; 1; 2; 1] eq_refl cmp_Compare_int_swo).
  - exact (Hby Z Z _ (fun x => Z.quot x 10) [] cmp_Compare_int [30; 11; 25; 12]
             eq_refl cmp_Compare_int_swo).
Defined.

(* ------------------------------------------------------------------ *)
(** ** Range and Repeat *)

Lemma Range_loop_FromSlice {S : Type} (yield : Yield Z S) (turns : nat) :
  forall (start count : Z) (s : S),
    isInt count -> Z.to_nat count = turns ->
    ('(_, _, s') <- Range_loop turns start count S yield s ;; Done s')
    = FromSlice (countUp start turns) S yield s.
Proof.
  induction turns as [|turns IH]; intros start count s Hint Hturns; [reflexivity|].
  cbn [Range_loop countUp FromSlice].
  replace (count >? 0) with true by (symmetry; apply Z.gtb_lt; lia).
  destruct (yield start s) as [[s' [|]]|msg]; cbn [bind]; [|reflexivity|reflexivity].
  unfold int_sub. rewrite isInt_wrap64 by (unfold isInt in *; lia).
  apply IH; unfold isInt in *; lia.
Qed.

Lemma Range_loop_collect (turns : nat) :
  forall (start count : Z) (acc : list Z),
    isInt count -> Z.to_nat count = turns ->
    exists start',
      Range_loop turns start count (list Z)
        (fun item result => Done (result ++ [item], true)) acc
      = Done (start', Z.min count 0, acc ++ countUp start turns).
Proof.
  induction turns as [|turns IH]; intros start count acc Hint Hturns.
  - exists start. cbn [Range_loop countUp]. rewrite app_nil_r.
    replace (Z.min count 0) with count by lia. reflexivity.
  - cbn [Range_loop countUp].
    replace (count >? 0) with true by (symmetry; apply Z.gtb_lt; lia).
    cbn [bind]. unfold int_sub. rewrite isInt_wrap64 by (unfold isInt in *; lia).
    destruct (IH (int_add start 1) (count - 1) (acc ++ [start])) as [start' Hrun];
      [unfold isInt in *; lia | lia |].
    exists start'. rewrite Hrun, <- app_assoc.
    replace (Z.min (count - 1) 0) with (Z.min count 0) by lia. reflexivity.
Qed.

Lemma Repeat_loop_FromSlice {T S : Type} (element : T) (yield : Yield T S) (turns : nat) :
  forall (count : Z) (s : S),
    isInt count -> Z.to_nat count = turns ->
    ('(_, s') <- Repeat_loop turns element count S yield s ;; Done s')
    = FromSlice (repeat element turns) S yield s.
Proof.
  induction turns as [|turns IH]; intros count s Hint Hturns; [reflexivity|].
  cbn [Repeat_loop repeat FromSlice].
  replace (count >? 0) with true by (symmetry; apply Z.gtb_lt; lia).
  destruct (yield element s) as [[s' [|]]|msg]; cbn [bind]; [|reflexivity|reflexivity].
  unfold int_sub. rewrite isInt_wrap64 by (unfold isInt in *; lia).
  apply IH; unfold isInt in *; lia.
Qed.

Lemma Repeat_loop_collect {T : Type} (element : T) (turns : nat) :
  forall (count : Z) (acc : list T),
    isInt count -> Z.to_nat count = turns ->
    Repeat_loop turns element count (list T)
      (fun item result => Done (result ++ [item], true)) acc
    = Done (Z.min count 0, acc ++ repeat element turns).
Proof.
  induction turns as [|turns IH]; intros count acc Hint Hturns.
  - cbn [Repeat_loop repeat]. rewrite app_nil_r.
    replace (Z.min count 0) with count by lia. reflexivity.
  - cbn [Repeat_loop repeat].
    replace (count >? 0) with true by (symmetry; apply Z.gtb_lt; lia).
    cbn [bind]. unfold int_sub. rewrite isInt_wrap64 by (unfold isInt in *; lia).
    rewrite IH by (unfold isInt in *; lia). rewrite <- app_assoc.
    replace (Z.min (count - 1) 0) with (Z.min count 0) by lia. reflexivity.
Qed.

Lemma countUp_length (n : nat) : forall start, List.length (countUp start n) = n.
Proof. induction n as [|n IH]; intros start; simpl; [reflexivity | now rewrite IH]. Qed.

Lemma countUp_no_overflow (n : nat) :
  forall start,
    isInt start -> start + Z.of_nat n <= 2 ^ 63 ->
    countUp start n = map (fun i => start + Z.of_nat i) (seq 0 n).
Proof.
  induction n as [|n IH]; intros start Hint Hbound; [reflexivity|].
  cbn [countUp seq map]. f_equal; [f_equal; lia|].
  destruct n as [|n]; [reflexivity|].
  unfold int_add. rewrite isInt_wrap64 by (unfold isInt in *; lia).
  rewrite IH by (unfold isInt in *; lia).
  rewrite <- seq_shift, map_map. apply map_ext. intros i. lia.
Qed.

(** X25.  Range(start, count) yields [count] integers (none when [count]
    is not positive), beginning with [start] and each one more than the
    one before, wrapping at 64 bits; when [start + count] does not pass
    the greatest int these are [start], [start + 1], ...,
    [start + count - 1].  The iterator is good for one traversal: a
    complete traversal leaves the captured [count] at zero, and a second
    traversal of the same iterator value yields nothing. *)
Theorem Range_counts_up :
  forall start count : Z,
    isInt start -> isInt count ->
    sameSequence (Range start count) (FromSlice (countUp start (Z.to_nat count)))
    /\ ToSlice (Range start count) = Done (countUp start (Z.to_nat count))
    /\ List.length (countUp start (Z.to_nat count)) = Z.to_nat count
    /\ (start + count <= 2 ^ 63 ->
        countUp start (Z.to_nat count)
        = map (fun i => start + Z.of_nat i) (seq 0 (Z.to_nat count)))
    /\ (exists start',
           Range_run start count (list Z)
             (fun item result => Done (result ++ [item], true)) []
           = Done (start', Z.min count 0, countUp start (Z.to_nat count))
           /\ Range_run start' (Z.min count 0) (list Z)
                (fun item result => Done (result ++ [item], true)) []
              = Done (start', Z.min count 0, [])).
Proof.
  intros start count Hstart Hcount.
  assert (Hsame : sameSequence (Range start count)
                    (FromSlice (countUp start (Z.to_nat count)))).
  { intros S yield s. unfold Range, Range_run. now apply Range_loop_FromSlice. }
  split; [exact Hsame|]. split; [now apply sameSequence_ToSlice|].
  split; [apply countUp_length|]. split.
  - intros Hbound. apply countUp_no_overflow; [exact Hstart | unfold isInt in *; lia].
  - destruct (Range_loop_collect (Z.to_nat count) start count [] Hcount eq_refl)
      as [start' Hrun].
    exists start'. split; [exact Hrun|].
    unfold Range_run. replace (Z.to_nat (Z.min count 0)) with O by lia. reflexivity.
Qed.

Lemma Range_counts_up_witness :
  isInt 5 /\ isInt 3 /\ ToSlice (Range 5 3) = Done [5; 6; 7].
Proof.
  assert (Hstart : isInt 5) by (unfold isInt; lia).
  assert (Hcount : isInt 3) by (unfold isInt; lia).
  split; [exact Hstart|]. split; [exact Hcount|].
  exact (proj1 (proj2 (Range_counts_up 5 3 Hstart Hcount))).
Defined.

(** X26.  Repeat(element, count) yields [element] [count] times, and
    nothing when [count] is not positive.  The iterator is good for one
    traversal: collected a second time, the same iterator value yields
    nothing. *)
Theorem Repeat_repeats :
  forall (T : Type) (element : T) (count : Z),
    isInt count ->
    sameSequence (Repeat element count) (FromSlice (repeat element (Z.to_nat count)))
    /\ ToSlice (Repeat element count) = Done (repeat element (Z.to_nat count))
    /\ ToSlice_twice (Repeat_run element) count
       = Done (repeat element (Z.to_nat count), []).
Proof.
  intros T element count Hcount.
  assert (Hsame : sameSequence (Repeat element count)
                    (FromSlice (repeat element (Z.to_nat count)))).
  { intros S yield s. unfold Repeat, Repeat_run. now apply Repeat_loop_FromSlice. }
  split; [exact Hsame|]. split; [now apply sameSequence_ToSlice|].
  unfold ToSlice_twice, Repeat_run.
  rewrite (Repeat_loop_collect element (Z.to_nat count) count [] Hcount eq_refl).
  cbn [bind app]. replace (Z.to_nat (Z.min count 0)) with O by lia. reflexivity.
Qed.

Lemma Repeat_repeats_witness :
  isInt 3
  /\ ToSlice_twice (Repeat_run 7) 3 = Done ([7; 7; 7], []).
Proof.
  assert (Hcount : isInt 3) by (unfold isInt; lia).
  split; [exact Hcount|].
  exact (proj2 (proj2 (Repeat_repeats Z 7 3 Hcount))).
Defined.

(* ------------------------------------------------------------------ *)
(** ** Maps: ToMap, FromMap, GroupBy *)

Section Maps.
Context {K V : Type} `{ComparableKey K}.

Lemma key_eqb_refl (k : K) : key_eqb k k = true.
Proof. now apply key_eqb_eq. Qed.

Lemma key_eqb_neq (k k' : K) : k <> k' -> key_eqb k k' = false.
Proof.
  intros Hne. destruct (key_eqb k k') eqn:Heq; [|reflexivity].
  apply key_eqb_eq in Heq. contradiction.
Qed.

Lemma lookup_assign (m : GoMap K V) (k k' : K) (v : V) :
  map_lookup (map_assign m k v) k'
  = if key_eqb k k' then Some v else map_lookup m k'.
Proof.
  induction m as [|[k0 v0] m IH]; simpl.
  - reflexivity.
  - destruct (key_eqb k0 k) eqn:Hk0; simpl.
    + apply key_eqb_eq in Hk0. subst k0. now destruct (key_eqb k k').
    + rewrite IH. destruct (key_eqb k0 k') eqn:Hk0'; [|reflexivity].
      apply key_eqb_eq in Hk0'. subst k0.
      destruct (key_eqb k k') eqn:Hkk'; [|reflexivity].
      apply key_eqb_eq in Hkk'. subst k'. now rewrite key_eqb_refl in Hk0.
Qed.

Lemma keys_assign (m : GoMap K V) (k k' : K) (v : V) :
  In k' (map fst (map_assign m k v)) <-> k' = k \/ In k' (map fst m).
Proof.
  induction m as [|[k0 v0] m IH]; simpl.
  - intuition.
  - destruct (key_eqb k0 k) eqn:Hk0; simpl.
    + apply key_eqb_eq in Hk0. subst k0. intuition.
    + rewrite IH. intuition.
Qed.

Lemma NoDup_assign (m : GoMap K V) (k : K) (v : V) :
  NoDup (map fst m) -> NoDup (map fst (map_assign m k v)).
Proof.
  induction m as [|[k0 v0] m IH]; simpl; intros Hnodup.
  - constructor; [intros []|constructor].
  - inversion Hnodup as [|k1 keys Hout Htail]; subst.
    destruct (key_eqb k0 k) eqn:Hk0; simpl.
    + apply key_eqb_eq in Hk0. subst k0. now constructor.
    + constructor; [|now apply IH].
      rewrite keys_assign. intros [->|Hin]; [|contradiction].
      now rewrite key_eqb_refl in Hk0.
Qed.

Lemma lookup_None (m : GoMap K V) (k : K) :
  map_lookup m k = None <-> ~ In k (map fst m).
Proof.
  induction m as [|[k0 v0] m IH]; simpl; [intuition|].
  destruct (key_eqb k0 k) eqn:Hk0.
  - apply key_eqb_eq in Hk0. subst k0. split; [discriminate | intros Hout; exfalso; auto].
  - rewrite IH. split.
    + intros Hout [->|Hin]; [now rewrite key_eqb_refl in Hk0 | contradiction].
    + intros Hout Hin. apply Hout. now right.
Qed.

Lemma In_lookup (m : GoMap K V) (k : K) (v : V) :
  NoDup (map fst m) -> (In (k, v) m <-> map_lookup m k = Some v).
Proof.
  induction m as [|[k0 v0] m IH]; simpl; intros Hnodup.
  - split; [intros [] | discriminate].
  - inversion Hnodup as [|k1 keys Hout Htail]; subst.
    destruct (key_eqb k0 k) eqn:Hk0.
    + apply key_eqb_eq in Hk0. subst k0. split.
      * intros [Heq|Hin]; [congruence|].
        exfalso. apply Hout. now apply (in_map fst) in Hin.
      * intros Heq. left. congruence.
    + rewrite <- (IH Htail). split.
      * intros [Heq|Hin]; [|exact Hin].
        injection Heq as -> ->. now rewrite key_eqb_refl in Hk0.
      * intros Hin. now right.
Qed.

Lemma lookup_Permutation (m m' : GoMap K V) (k : K) :
  NoDup (map fst m) -> Permutation m m' -> map_lookup m' k = map_lookup m k.
Proof.
  intros Hnodup Hperm.
  assert (Hnodup' : NoDup (map fst m')).
  { apply (Permutation_NoDup (l := map fst m)); [now apply Permutation_map | exact Hnodup]. }
  destruct (map_lookup m k) as [v|] eqn:Hlookup.
  - apply In_lookup; [exact Hnodup'|].
    apply (Permutation_in _ Hperm). now apply In_lookup.
  - apply lookup_None. apply lookup_None in Hlookup. intros Hin. apply Hlookup.
    apply (Permutation_in _ (Permutation_sym (Permutation_map fst Hperm))). exact Hin.
Qed.
End Maps.

Section ToMapFacts.
Context {T K V : Type} `{ComparableKey K}.
Variable keySelector : T -> K.
Variable valueSelector : T -> V.

Lemma ToMap_FromSlice (l : list T) :
  ToMap (FromSlice l) keySelector valueSelector
  = Done (fold_left (fun result item =>
                       map_assign result (keySelector item) (valueSelector item)) l []).
Proof.
  unfold ToMap.
  apply (FromSlice_fold
           (fun item result => map_assign result (keySelector item) (valueSelector item))).
Qed.

Lemma ToMap_facts (l : list T) :
  let result := fold_left (fun result item =>
                             map_assign result (keySelector item) (valueSelector item))
                  l [] in
  NoDup (map fst result)
  /\ (forall k, map_lookup result k
                = option_map valueSelector
                    (find (fun item => key_eqb (keySelector item) k) (rev l)))
  /\ (forall k, In k (map fst result) <-> In k (map keySelector l)).
Proof.
  induction l as [|x l IH] using rev_ind; simpl.
  - split; [constructor|]. split; [reflexivity|]. intuition.
  - destruct IH as (Hnodup & Hlookup & Hkeys).
    rewrite fold_left_app. simpl. split; [|split].
    + now apply NoDup_assign.
    + intros k. rewrite lookup_assign, rev_app_distr. simpl.
      destruct (key_eqb (keySelector x) k); [reflexivity | apply Hlookup].
    + intros k. rewrite keys_assign, map_app, in_app_iff, Hkeys. simpl. intuition.
Qed.
End ToMapFacts.

(** X27.  ToMap on a slice returns a map with one binding per key that
    occurs: a key is bound exactly when some element has it, and it is
    bound to the value of the last element that has it. *)
Theorem ToMap_last_value_wins :
  forall (T K V : Type) (CK : ComparableKey K) (keySelector : T -> K)
         (valueSelector : T -> V) (l : list T),
    exists result,
      ToMap (FromSlice l) keySelector valueSelector = Done result
      /\ NoDup (map fst result)
      /\ (forall k, In k (map fst result) <-> In k (map keySelector l))
      /\ (forall k, map_lookup result k
                    = option_map valueSelector
                        (find (fun item => key_eqb (keySelector item) k) (rev l)))
      /\ (forall l1 x l2,
             l = l1 ++ x :: l2 ->
             (forall y, In y l2 -> keySelector y <> keySelector x) ->
             map_lookup result (keySelector x) = Some (valueSelector x)).
Proof.
  intros T K V CK keySelector valueSelector l.
  destruct (ToMap_facts keySelector valueSelector l) as (Hnodup & Hlookup & Hkeys).
  eexists. split; [apply ToMap_FromSlice|].
  split; [exact Hnodup|]. split; [exact Hkeys|]. split; [exact Hlookup|].
  intros l1 x l2 -> Hlast. rewrite Hlookup, rev_app_distr. simpl.
  rewrite <- app_assoc. simpl.
  assert (Hfind : forall rest,
             find (fun item => key_eqb (keySelector item) (keySelector x))
               (rev l2 ++ x :: rest) = Some x).
  { intros rest.
    assert (Hrev : forall y, In y (rev l2) -> keySelector y <> keySelector x)
      by (intros y Hy; apply Hlast; now apply in_rev).
    induction (rev l2) as [|y r IH]; simpl.
    - now rewrite key_eqb_refl.
    - rewrite (key_eqb_neq (keySelector y) (keySelector x)) by (apply Hrev; now left).
      apply IH. intros z Hz. apply Hrev. now right. }
  now rewrite Hfind.
Qed.

Lemma find_rev_lookup {K V : Type} `{ComparableKey K} (bindings : GoMap K V) (k : K) :
  NoDup (map fst bindings) ->
  option_map Value
    (find (fun item => key_eqb (Key item) k)
       (rev (map (fun binding => mkKeyValuePair (fst binding) (snd binding)) bindings)))
  = map_lookup bindings k.
Proof.
  intros Hnodup.
  destruct (find _ _) as [item|] eqn:Hfind; simpl; symmetry.
  - apply find_some in Hfind. destruct Hfind as [Hin Hkey].
    apply in_rev, in_map_iff in Hin. destruct Hin as ([k0 v0] & <- & Hin).
    simpl in *. apply key_eqb_eq in Hkey. subst k0. now apply In_lookup.
  - apply lookup_None. intros Hin.
    apply in_map_iff in Hin. destruct Hin as ([k0 v0] & Hk0 & Hin). simpl in Hk0. subst k0.
    pose proof (find_none _ _ Hfind (mkKeyValuePair k v0)) as Hnone.
    simpl in Hnone. rewrite key_eqb_refl in Hnone.
    assert (Hfalse : true = false); [|discriminate].
    apply Hnone. apply -> in_rev.
    apply in_map_iff. exists (k, v0). now split.
Qed.

(** X28.  A map sent through FromMap and ToMap, with the key and the
    value of the pairs as selectors, comes back as the same map whatever
    the order in which [range] visits it: the same keys are bound, each to
    the same value.  FromMap yields every binding of the map exactly
    once. *)
Theorem FromMap_ToMap_round_trip :
  forall rangeOrder : forall K V : Type, GoMap K V -> list (K * V),
    visitsEveryBindingOnce rangeOrder ->
    forall (K V : Type) (CK : ComparableKey K) (m : GoMap K V),
      NoDup (map fst m) ->
      exists pairs result,
        ToSlice (FromMap rangeOrder m) = Done pairs
        /\ Permutation m (map (fun pair => (Key pair, Value pair)) pairs)
        /\ ToMap (FromMap rangeOrder m) Key Value = Done result
        /\ NoDup (map fst result)
        /\ (forall k, map_lookup result k = map_lookup m k)
        /\ (forall k v, In (k, v) result <-> In (k, v) m).
Proof.
  intros rangeOrder Hrange K V CK m Hnodup.
  set (pairs := map (fun binding => mkKeyValuePair (fst binding) (snd binding))
                  (rangeOrder K V m)).
  assert (Hvisited : NoDup (map fst (rangeOrder K V m))).
  { apply (Permutation_NoDup (l := map fst m)); [|exact Hnodup].
    apply Permutation_map, Hrange. }
  destruct (ToMap_facts (@Key K V) (@Value K V) pairs) as (Hkeys & Hlookup & _).
  assert (Hsame : forall k,
             map_lookup
               (fold_left (fun result item => map_assign result (Key item) (Value item))
                  pairs []) k
             = map_lookup m k).
  { intros k. rewrite Hlookup. subst pairs. rewrite (find_rev_lookup _ k Hvisited).
    now apply lookup_Permutation. }
  exists pairs. eexists.
  split; [apply ToSlice_FromSlice|]. split; [|split; [apply ToMap_FromSlice|]].
  - subst pairs. rewrite map_map. simpl.
    rewrite (map_ext _ (fun binding => binding)) by (now intros [k v]).
    rewrite map_id. apply Hrange.
  - split; [exact Hkeys|]. split; [exact Hsame|].
    intros k v. split; intros Hin.
    + apply (In_lookup m k v Hnodup). rewrite <- Hsame.
      apply (In_lookup _ k v Hkeys). exact Hin.
    + apply (In_lookup _ k v Hkeys). rewrite Hsame.
      now apply (In_lookup m k v Hnodup).
Qed.

Lemma FromMap_ToMap_round_trip_witness :
  visitsEveryBindingOnce (fun K V m => rev m)
  /\ NoDup (map fst [(1, 10); (2, 20); (3, 30)])
  /\ exists pairs result,
       ToSlice (FromMap (fun K V m => rev m) [(1, 10); (2, 20); (3, 30)]) = Done pairs
       /\ Permutation [(1, 10); (2, 20); (3, 30)]
            (map (fun pair => (Key pair, Value pair)) pairs)
       /\ ToMap (FromMap (fun K V m => rev m) [(1, 10); (2, 20); (3, 30)]) Key Value
          = Done result
       /\ NoDup (map fst result)
       /\ (forall k, map_lookup result k = map_lookup [(1, 10); (2, 20); (3, 30)] k)
       /\ (forall k v, In (k, v) result <-> In (k, v) [(1, 10); (2, 20); (3, 30)]).
Proof.
  assert (Hrange : visitsEveryBindingOnce (fun K V m => rev m))
    by (intros K V m; apply Permutation_rev).
  assert (Hnodup : NoDup (map fst [(1, 10); (2, 20); (3, 30)])).
  { simpl. repeat constructor; simpl; intuition discriminate. }
  split; [exact Hrange|]. split; [exact Hnodup|].
  exact (FromMap_ToMap_round_trip (fun K V m => rev m) Hrange Z Z _
           [(1, 10); (2, 20); (3, 30)] Hnodup).
Defined.

Section GroupByFacts.
Context {T K : Type} `{ComparableKey K}.
Variable keySelector : T -> K.

Lemma GroupBy_groups_FromSlice (l : list T) :
  GroupBy_groups (FromSlice l) keySelector
  = Done (fold_left
            (fun groups item =>
               map_assign groups (keySelector item)
                 (match map_lookup groups (keySelector item) with
                  | Some group => group ++ [item]
                  | None => [item]
                  end)) l []).
Proof.
  unfold GroupBy_groups.
  apply (FromSlice_fold
           (fun item groups =>
              map_assign groups (keySelector item)
                (match map_lookup groups (keySelector item) with
                 | Some group => group ++ [item]
                 | None => [item]
                 end))).
Qed.

Lemma GroupBy_groups_facts (l : list T) :
  let groups :=
    fold_left
      (fun groups item =>
         map_assign groups (keySelector item)
           (match map_lookup groups (keySelector item) with
            | Some group => group ++ [item]
            | None => [item]
            end)) l [] in
  NoDup (map fst groups)
  /\ (forall k, map_lookup groups k
                = match withKey keySelector k l with
                  | [] => None
                  | group => Some group
                  end).
Proof.
  induction l as [|x l IH] using rev_ind; simpl.
  - split; [constructor | reflexivity].
  - destruct IH as (Hnodup & Hlookup).
    rewrite fold_left_app. simpl. split; [now apply NoDup_assign|].
    intros k. rewrite lookup_assign. unfold withKey in *. rewrite filter_app. simpl.
    destruct (key_eqb (keySelector x) k) eqn:Hkey.
    + apply key_eqb_eq in Hkey. subst k. rewrite Hlookup.
      destruct (filter _ l); reflexivity.
    + rewrite app_nil_r. apply Hlookup.
Qed.
End GroupByFacts.

(** X29.  GroupBy on a slice yields one pair per key that occurs,
    whatever the order in which [range] visits the map of groups: no key
    is yielded twice, and the value yielded with a key is the sequence of
    the elements of the slice that have this key, in the order of the
    slice; every element of the slice is in the group of its key. *)
Theorem GroupBy_groups_by_key :
  forall rangeOrder : forall K V : Type, GoMap K V -> list (K * V),
    visitsEveryBindingOnce rangeOrder ->
    forall (T K : Type) (CK : ComparableKey K) (keySelector : T -> K) (l : list T),
      exists groups,
        sameSequence (GroupBy rangeOrder (FromSlice l) keySelector)
          (FromSlice (map (fun binding =>
                             mkKeyValuePair (fst binding) (FromSlice (snd binding)))
                        groups))
        /\ NoDup (map fst groups)
        /\ (forall k, In k (map fst groups) <-> In k (map keySelector l))
        /\ (forall k group,
               In (k, group) groups
               <-> group = withKey keySelector k l /\ group <> [])
        /\ (forall item, In item l ->
               In (keySelector item, withKey keySelector (keySelector item) l) groups).
Proof.
  intros rangeOrder Hrange T K CK keySelector l.
  destruct (GroupBy_groups_facts keySelector l) as (Hnodup & Hlookup).
  set (groups := fold_left
                   (fun groups item =>
                      map_assign groups (keySelector item)
                        (match map_lookup groups (keySelector item) with
                         | Some group => group ++ [item]
                         | None => [item]
                         end)) l []) in *.
  assert (Hvisited : NoDup (map fst (rangeOrder K (list T) groups))).
  { apply (Permutation_NoDup (l := map fst groups)); [|exact Hnodup].
    apply Permutation_map, Hrange. }
  assert (Hmember : forall k group,
             In (k, group) (rangeOrder K (list T) groups)
             <-> group = withKey keySelector k l /\ group <> []).
  { intros k group. rewrite (In_lookup _ k group Hvisited).
    rewrite (lookup_Permutation groups _ k Hnodup (Hrange K (list T) groups)).
    rewrite Hlookup. destruct (withKey keySelector k l) as [|y rest]; split.
    - discriminate.
    - intros [-> Hne]. contradiction.
    - intros Hsome. injection Hsome as <-. split; [reflexivity | discriminate].
    - intros [-> _]. reflexivity. }
  assert (Hgroup : forall item, In item l ->
             In (keySelector item, withKey keySelector (keySelector item) l)
               (rangeOrder K (list T) groups)).
  { intros item Hin. apply Hmember. split; [reflexivity|].
    intros Hnil.
    assert (Hitem : In item (withKey keySelector (keySelector item) l)).
    { apply filter_In. split; [exact Hin | apply key_eqb_refl]. }
    rewrite Hnil in Hitem. destruct Hitem. }
  exists (rangeOrder K (list T) groups).
  split; [|split; [exact Hvisited|split; [|split; [exact Hmember | exact Hgroup]]]].
  - intros S yield s. unfold GroupBy. rewrite GroupBy_groups_FromSlice. cbn [bind].
    exact (Select_FromSlice
             (fun binding => mkKeyValuePair (fst binding) (FromSlice (snd binding)))
             (rangeOrder K (list T) groups) S yield s).
  - intros k. split.
    + intros Hin. apply in_map_iff in Hin. destruct Hin as ([k0 group] & Hk0 & Hin).
      simpl in Hk0. subst k0. apply Hmember in Hin. destruct Hin as [-> Hne].
      destruct (withKey keySelector k l) as [|y rest] eqn:Hwith; [contradiction|].
      assert (Hy : In y (withKey keySelector k l)) by (rewrite Hwith; now left).
      apply filter_In in Hy. destruct Hy as [Hy Hkey]. apply key_eqb_eq in Hkey.
      subst k. now apply in_map.
    + intros Hin. apply in_map_iff in Hin. destruct Hin as (item & <- & Hin).
      exact (in_map fst _ _ (Hgroup item Hin)).
Qed.

Lemma GroupBy_groups_by_key_witness :
  visitsEveryBindingOnce (fun K V m => rev m)
  /\ exists groups,
       sameSequence
         (GroupBy (fun K V m => rev m) (FromSlice [11; 25; 12; 30; 27])
            (fun x => Z.quot x 10))
         (FromSlice (map (fun binding =>
                            mkKeyValuePair (fst binding) (FromSlice (snd binding)))
                       groups))
       /\ In (2, [25; 27]) groups.
Proof.
  assert (Hrange : visitsEveryBindingOnce (fun K V m => rev m))
    by (intros K V m; apply Permutation_rev).
  split; [exact Hrange|].
  destruct (GroupBy_groups_by_key (fun K V m => rev m) Hrange Z Z _
              (fun x => Z.quot x 10) [11; 25; 12; 30; 27])
    as (groups & Hsame & _ & _ & _ & Hgroup).
  exists groups. split; [exact Hsame|].
  exact (Hgroup 25 (or_intror (or_introl eq_refl))).
Defined.

(* ------------------------------------------------------------------ *)
(** ** Average *)

Lemma Average_loop {T : Type} `{Number T} (l : list T) :
  forall (count : Z) (sum : T),
    0 <= count ->
    count + Z.of_nat (List.length l) < 2 ^ 63 ->
    FromSlice l (Z * T)%type
      (fun item '(count, sum) => Done ((int_add count 1, plus sum item), true))
      (count, sum)
    = Done (count + Z.of_nat (List.length l), fold_left plus l sum).
Proof.
  induction l as [|x l IH]; intros count sum Hcount Hbound.
  - simpl. f_equal. f_equal. lia.
  - cbn [FromSlice List.length fold_left] in *. cbv beta iota. cbn [bind].
    replace (int_add count 1) with (count + 1)
      by (unfold int_add; rewrite isInt_wrap64; [reflexivity | unfold isInt; lia]).
    rewrite IH by lia. f_equal. f_equal. lia.
Qed.

(** X30.  Average on a slice that is not empty (and of fewer than 2^63
    elements) returns, with a nil error, the quotient of the converted
    sum and the converted number of elements, where the sum is the one
    Sum returns: it is accumulated in the element type before the
    conversion to float64. *)
Theorem Average_is_Sum_over_Count :
  forall (T : Type) (G : GoType T) (N : Number T) (F : Type) (F0 : F)
         (conv : T -> F) (convInt : Z -> F) (div : F -> F -> F) (l : list T),
    l <> [] ->
    Z.of_nat (List.length l) < 2 ^ 63 ->
    exists sum count,
      Sum (FromSlice l) = Done sum
      /\ Iterator_Count (FromSlice l) [] = Done count
      /\ count = Z.of_nat (List.length l)
      /\ Average F F0 conv convInt div (FromSlice l)
         = Done (div (conv sum) (convInt count), None).
Proof.
  intros T G N F F0 conv convInt div l Hne Hbound.
  exists (fold_left plus l zero), (Z.of_nat (List.length l)).
  split; [|split; [|split; [reflexivity|]]].
  - unfold Sum. now rewrite (FromSlice_fold (fun item result => plus result item)).
  - now apply Count_FromSlice.
  - unfold Average. rewrite Average_loop by lia. cbn [bind Z.add].
    destruct l as [|x l]; [contradiction|].
    replace (Z.of_nat (List.length (x :: l)) =? 0) with false; [reflexivity|].
    symmetry. apply Z.eqb_neq. cbn [List.length]. lia.
Qed.

Lemma Average_is_Sum_over_Count_witness :
  [2 ^ 63 - 1; 1] <> []
  /\ Z.of_nat (List.length [2 ^ 63 - 1; 1]) < 2 ^ 63
  /\ Average (Z * Z) (0, 1) (fun sum => (sum, 1)) (fun count => (count, 1))
       (fun x y => (fst x, fst y)) (FromSlice [2 ^ 63 - 1; 1])
     = Done ((- 2 ^ 63, 2), None).
Proof.
  assert (Hne : [2 ^ 63 - 1; 1] <> []) by discriminate.
  assert (Hbound : Z.of_nat (List.length [2 ^ 63 - 1; 1]) < 2 ^ 63) by (simpl; lia).
  split; [exact Hne|]. split; [exact Hbound|].
  destruct (Average_is_Sum_over_Count Z _ _ (Z * Z)%type (0, 1) (fun sum => (sum, 1))
              (fun count => (count, 1)) (fun x y => (fst x, fst y))
              [2 ^ 63 - 1; 1] Hne Hbound)
    as (sum & count & Hsum & _ & Hcount & Haverage).
  rewrite Haverage. injection Hsum as <-. subst count. reflexivity.
Defined.
